(** * mcp-st: the structured-extraction pipeline of [main.py] and [server.py]

    A shallow embedding of the two Python modules: the response normalizer,
    the JSON decoding step ([json.loads]), the schema validation step
    ([PdfSummaryWithQuiz.parse_obj]), the PDF download helper and the three
    entry points, followed by the properties stated about them.

    Python [str] values are sequences of Unicode code points; they are
    modelled as lists of [N].  Exceptions are modelled by an explicit
    outcome type: every [raise] site of the source has its own constructor. *)

From Stdlib Require Import String Ascii NArith ZArith Lia Bool List.
Import ListNotations.

Set Implicit Arguments.
Set Warnings "-register-all".

(** ** Python strings *)

Module Py.

Local Open Scope N_scope.

Definition char := N.
Definition str := list char.

(** An ASCII literal as a Python string. *)
Definition u (s : string) : str :=
  List.map N_of_ascii (list_ascii_of_string s).

(** The same with every apostrophe of the literal read as a double quote,
    to write JSON texts. *)
Definition uq (s : string) : str :=
  List.map (fun c => if c =? 0x27 then 0x22 else c) (u s).

Fixpoint str_eqb (a b : str) : bool :=
  match a, b with
  | [], [] => true
  | x :: a', y :: b' => N.eqb x y && str_eqb a' b'
  | _, _ => false
  end.

(** [str.isspace] on one code point, the set [str.strip()] removes:
    U+0009..U+000D, U+001C..U+0020, U+0085, U+00A0, U+1680,
    U+2000..U+200A, U+2028, U+2029, U+202F, U+205F, U+3000. *)
Definition isspace (c : char) : bool :=
  ((0x09 <=? c) && (c <=? 0x0D)) || ((0x1C <=? c) && (c <=? 0x20))
  || (c =? 0x85) || (c =? 0xA0) || (c =? 0x1680)
  || ((0x2000 <=? c) && (c <=? 0x200A))
  || (c =? 0x2028) || (c =? 0x2029) || (c =? 0x202F) || (c =? 0x205F)
  || (c =? 0x3000).

Fixpoint lstrip_with (p : char -> bool) (s : str) : str :=
  match s with
  | [] => []
  | c :: r => if p c then lstrip_with p r else s
  end.

Definition rstrip_with (p : char -> bool) (s : str) : str :=
  rev (lstrip_with p (rev s)).

(** [s.strip(...)]: the characters are removed at the left end, then at the
    right end; nothing inside the string is touched. *)
Definition strip_with (p : char -> bool) (s : str) : str :=
  rstrip_with p (lstrip_with p s).

(** [s.strip()] *)
Definition strip (s : str) : str := strip_with isspace s.

(** [s.strip(chars)] *)
Definition strip_chars (chars : str) (s : str) : str :=
  strip_with (fun c => existsb (N.eqb c) chars) s.

(** [s.startswith(prefix)] *)
Fixpoint startswith (s prefix : str) : bool :=
  match prefix, s with
  | [], _ => true
  | p :: ps, c :: cs => N.eqb c p && startswith cs ps
  | _ :: _, [] => false
  end.

(** [s[n:]] and [s[:n]] for a non-negative constant [n]. *)
Definition slice_from (n : nat) (s : str) : str := skipn n s.
Definition slice_to (n : nat) (s : str) : str := firstn n s.

End Py.
Import Py.

(** ** Response normalizer

    [main.py] lines 86-92 and [server.py] lines 176-184 (the same code):
<<
    raw_text = response.text.strip()
    if raw_text.startswith("```"):
        raw_text = raw_text.strip("`")
        if raw_text.startswith("json"):
            raw_text = raw_text[4:].strip()
>> *)

Definition BACKTICK : char := 0x60%N.
Definition FENCE : str := [BACKTICK; BACKTICK; BACKTICK].

Definition normalize_response (text : str) : str :=
  let raw_text := strip text in
  if startswith raw_text FENCE then
    let raw_text := strip_chars [BACKTICK] raw_text in
    if startswith raw_text (u "json") then strip (slice_from 4 raw_text)
    else raw_text
  else raw_text.

(** ** Outcomes

    A Python call either returns a value or raises. *)

Inductive result (E A : Type) : Type :=
| Return (a : A)
| Raise (e : E).

Arguments Return {E A} a.
Arguments Raise {E A} e.

(** ** [json.loads]

    The decoder of the standard library as the pipeline calls it
    ([json.loads(raw_text)] on a [str], default arguments): the scanner
    [scan_once], [scanstring] in strict mode, [_match_number], the object
    and array loops, and [JSONDecoder.decode] around them.  The scanner
    recurses on nested values, so the model carries fuel; [json_loads]
    supplies more than the text can use ([scan_once_fuel] below).

    A float is kept as the literal it was read from: Python rounds it to a
    binary64 value, which is left out of the model.  The two limits of the
    interpreter that the decoder meets are parameters: the recursion depth
    that is left where [json.loads] is called, and the digit limit of
    [int].  As in Python, the constants [NaN], [Infinity] and
    [-Infinity] are read as floats.  The messages are those of CPython up
    to 3.12; later versions word the error on a trailing comma
    differently, with the same exception class. *)

Module Json.

Local Open Scope N_scope.

Inductive json : Type :=
| JNull
| JBool (b : bool)
| JInt (n : Z)
| JFloat (literal : str)
| JStr (s : str)
| JList (items : list json)
| JDict (members : list (str * json)).

(** A Python [dict] with [str] keys, in insertion order. *)
Definition dict := list (str * json).

(** [d.get(k)] *)
Fixpoint dict_get (k : str) (d : dict) : option json :=
  match d with
  | [] => None
  | (k', v) :: r => if str_eqb k k' then Some v else dict_get k r
  end.

(** [d[k] = v]: an existing key keeps its place and takes the new value. *)
Fixpoint dict_set (k : str) (v : json) (d : dict) : dict :=
  match d with
  | [] => [(k, v)]
  | (k', v') :: r =>
      if str_eqb k k' then (k', v) :: r else (k', v') :: dict_set k v r
  end.

(** The messages of [JSONDecodeError] the decoder raises. *)
Inductive errmsg : Type :=
| Expecting_value
| Expecting_property_name
| Expecting_colon_delimiter
| Expecting_comma_delimiter
| Unterminated_string
| Invalid_control_character
| Invalid_escape
| Invalid_uXXXX_escape
| Extra_data
| Unexpected_BOM.

Record JSONDecodeError : Type := { msg : errmsg; pos : nat }.

(** Two limits of the interpreter end the decoding with an exception
    that is no [JSONDecodeError]: a container nested deeper than the stack
    allows raises [RecursionError] ([Py_EnterRecursiveCall] in
    [scan_once_unicode]), and an integer with more digits than
    [sys.get_int_max_str_digits()] raises [ValueError] ([PyLong_FromString]
    in [_match_number_unicode]). *)
Inductive limit : Type :=
| RecursionLimit
| IntMaxStrDigits.

(** What a scanning function gives back: the value and the text after it,
    or a message with the number of characters from the reported position
    to the end of the document, or the limit that was exceeded. *)
Inductive scan (A : Type) : Type :=
| Scanned (a : A) (rest : str)
| Fail (m : errmsg) (remaining : nat)
| Exceeded (l : limit).

Arguments Scanned {A} a rest.
Arguments Fail {A} m remaining.
Arguments Exceeded {A} l.

Definition scan_map {A B} (f : A -> B) (r : scan A) : scan B :=
  match r with
  | Scanned a rest => Scanned (f a) rest
  | Fail m k => Fail m k
  | Exceeded l => Exceeded l
  end.

(** What [json.loads] raises. *)
Inductive loads_error : Type :=
| Malformed (e : JSONDecodeError)
| LimitExceeded (l : limit).

Definition QUOTE : char := 0x22.
Definition BACKSLASH : char := 0x5C.
Definition LBRACE : char := 0x7B.
Definition RBRACE : char := 0x7D.
Definition LBRACKET : char := 0x5B.
Definition RBRACKET : char := 0x5D.
Definition COLON : char := 0x3A.
Definition COMMA : char := 0x2C.
Definition MINUS : char := 0x2D.
Definition PLUS : char := 0x2B.
Definition DOT : char := 0x2E.

(** [IS_WHITESPACE]: space, tab, line feed, carriage return. *)
Definition is_whitespace (c : char) : bool :=
  (c =? 0x20) || (c =? 0x09) || (c =? 0x0A) || (c =? 0x0D).

Definition skip_ws (s : str) : str := lstrip_with is_whitespace s.

Definition hexval (c : char) : option N :=
  if (0x30 <=? c) && (c <=? 0x39) then Some (c - 0x30)
  else if (0x61 <=? c) && (c <=? 0x66) then Some (c - 0x61 + 10)
  else if (0x41 <=? c) && (c <=? 0x46) then Some (c - 0x41 + 10)
  else None.

Definition hex4 (a b c d : char) : option N :=
  match hexval a, hexval b, hexval c, hexval d with
  | Some x, Some y, Some z, Some w => Some (((x * 16 + y) * 16 + z) * 16 + w)
  | _, _, _, _ => None
  end.

Definition is_high_surrogate (c : N) : bool := (0xD800 <=? c) && (c <=? 0xDBFF).
Definition is_low_surrogate (c : N) : bool := (0xDC00 <=? c) && (c <=? 0xDFFF).
Definition join_surrogates (hi lo : N) : N :=
  0x10000 + (N.lor (N.shiftl (N.land hi 0x3FF) 10) (N.land lo 0x3FF)).

(** The escapes of one character after a backslash. *)
Definition simple_escape (e : char) : option char :=
  if e =? 0x22 then Some 0x22
  else if e =? 0x5C then Some 0x5C
  else if e =? 0x2F then Some 0x2F
  else if e =? 0x62 then Some 0x08
  else if e =? 0x66 then Some 0x0C
  else if e =? 0x6E then Some 0x0A
  else if e =? 0x72 then Some 0x0D
  else if e =? 0x74 then Some 0x09
  else None.

(** [scanstring_unicode] with [strict = 1].  [s] is the text after the
    opening quote and [begin] the number of characters from that quote to
    the end of the document. *)
Fixpoint scanstring (begin : nat) (s : str) : scan str :=
  match s with
  | [] => Fail Unterminated_string begin
  | c :: r =>
      if c =? QUOTE then Scanned [] r
      else if c =? BACKSLASH then
        match r with
        | [] => Fail Unterminated_string begin
        | e :: r1 =>
            if e =? 0x75 then
              match r1 with
              | h1 :: h2 :: h3 :: h4 :: r2 =>
                  match r2 with
                  | [] => Fail Invalid_uXXXX_escape (length r)
                  | _ :: _ =>
                      match hex4 h1 h2 h3 h4 with
                      | None => Fail Invalid_uXXXX_escape (length r)
                      | Some c1 =>
                          let single := scan_map (cons c1) (scanstring begin r2) in
                          if is_high_surrogate c1 then
                            match r2 with
                            | b :: v :: g1 :: g2 :: g3 :: g4 :: r3 =>
                                match r3 with
                                | [] => single
                                | _ :: _ =>
                                    if (b =? BACKSLASH) && (v =? 0x75) then
                                      match hex4 g1 g2 g3 g4 with
                                      | None =>
                                          Fail Invalid_uXXXX_escape (length r2 - 1)
                                      | Some c2 =>
                                          if is_low_surrogate c2 then
                                            scan_map (cons (join_surrogates c1 c2))
                                                     (scanstring begin r3)
                                          else single
                                      end
                                    else single
                                end
                            | _ => single
                            end
                          else single
                      end
                  end
              | _ => Fail Invalid_uXXXX_escape (length r)
              end
            else
              match simple_escape e with
              | Some c' => scan_map (cons c') (scanstring begin r1)
              | None => Fail Invalid_escape (length s)
              end
        end
      else if c <=? 0x1F then Fail Invalid_control_character (length s)
      else scan_map (cons c) (scanstring begin r)
  end.

Definition isdigit (c : char) : bool := (0x30 <=? c) && (c <=? 0x39).

Fixpoint span_digits (s : str) : str * str :=
  match s with
  | [] => ([], [])
  | c :: r =>
      if isdigit c then let (ds, r') := span_digits r in (c :: ds, r')
      else ([], s)
  end.

(** [int(numstr)] on a run of ASCII digits. *)
Definition int_of_digits (ds : str) : N :=
  fold_left (fun a c => 10 * a + (c - 0x30)) ds 0.

(** The check of [PyLong_FromString] on the number of digits: it is made
    for more than 640 digits, against the limit when one is set (0 is no
    limit). *)
Definition exceeds_int_max_str_digits (limit digits : nat) : bool :=
  (640 <? digits)%nat && (0 <? limit)%nat && (limit <? digits)%nat.

Section Decoder.

(** [sys.get_int_max_str_digits()] *)
Variable int_max_str_digits : nat.

(** [_match_number_unicode]: an optional minus sign, then a single zero
    or a run of digits that does not start with zero; then, if present, a
    dot followed by at least one digit; then, if present, e or E, an
    optional sign and at least one digit.  [None] is its [StopIteration]. *)
Definition match_number (s : str) : option (scan json) :=
  let '(neg, s1) :=
    match s with
    | c :: r => if c =? MINUS then (true, r) else (false, s)
    | [] => (false, s)
    end in
  let int_part :=
    match s1 with
    | c :: r =>
        if (0x31 <=? c) && (c <=? 0x39)
        then let (ds, r') := span_digits r in Some (c :: ds, r')
        else if c =? 0x30 then Some ([c], r) else None
    | [] => None
    end in
  match int_part with
  | None => None
  | Some (ds, s2) =>
      let '(frac, s3) :=
        match s2 with
        | d0 :: d1 :: r =>
            if (d0 =? DOT) && isdigit d1
            then let (fs, r') := span_digits r in (d0 :: d1 :: fs, r')
            else ([], s2)
        | _ => ([], s2)
        end in
      let '(ex, s4) :=
        match s3 with
        | e :: r =>
            if (e =? 0x65) || (e =? 0x45) then
              let '(sg, r1) :=
                match r with
                | c :: ((_ :: _) as r') =>
                    if (c =? MINUS) || (c =? PLUS) then ([c], r') else ([], r)
                | _ => ([], r)
                end in
              let (es, r2) := span_digits r1 in
              match es with
              | [] => ([], s3)
              | _ :: _ => (e :: sg ++ es, r2)
              end
            else ([], s3)
        | [] => ([], s3)
        end in
      match frac, ex with
      | [], [] =>
          if exceeds_int_max_str_digits int_max_str_digits (length ds)
          then Some (Exceeded IntMaxStrDigits)
          else
            let n := Z.of_N (int_of_digits ds) in
            Some (Scanned (JInt (if neg then (- n)%Z else n)) s4)
      | _, _ =>
          Some (Scanned
                  (JFloat ((if neg then [MINUS] else []) ++ ds ++ frac ++ ex))
                  s4)
      end
  end.

(** [scan_once_unicode], [_parse_object_unicode] and [_parse_array_unicode].
    The two loops take the text at the first key (resp. first element) and
    the members read so far; [None] is fuel exhaustion.  [depth] is the
    number of containers that may still be entered, one inside the other,
    before the interpreter's recursion limit is reached. *)
Fixpoint scan_once (fuel depth : nat) (s : str) : option (scan json) :=
  match fuel with
  | O => None
  | S f =>
      match s with
      | [] => Some (Fail Expecting_value 0)
      | c :: r =>
          if c =? QUOTE then Some (scan_map JStr (scanstring (length s) r))
          else if c =? LBRACE then
            match depth with
            | O => Some (Exceeded RecursionLimit)
            | S d =>
                match skip_ws r with
                | c1 :: r1 =>
                    if c1 =? RBRACE then Some (Scanned (JDict []) r1)
                    else parse_object f d (c1 :: r1) []
                | [] => parse_object f d [] []
                end
            end
          else if c =? LBRACKET then
            match depth with
            | O => Some (Exceeded RecursionLimit)
            | S d =>
                match skip_ws r with
                | c1 :: r1 =>
                    if c1 =? RBRACKET then Some (Scanned (JList []) r1)
                    else parse_array f d (c1 :: r1) []
                | [] => parse_array f d [] []
                end
            end
          else if startswith s (u "null") then Some (Scanned JNull (skipn 4 s))
          else if startswith s (u "true") then Some (Scanned (JBool true) (skipn 4 s))
          else if startswith s (u "false") then Some (Scanned (JBool false) (skipn 5 s))
          else if startswith s (u "NaN") then Some (Scanned (JFloat (u "NaN")) (skipn 3 s))
          else if startswith s (u "Infinity")
          then Some (Scanned (JFloat (u "Infinity")) (skipn 8 s))
          else if startswith s (u "-Infinity")
          then Some (Scanned (JFloat (u "-Infinity")) (skipn 9 s))
          else
            match match_number s with
            | Some x => Some x
            | None => Some (Fail Expecting_value (length s))
            end
      end
  end

with parse_object (fuel depth : nat) (s : str) (acc : dict)
    : option (scan json) :=
  match fuel with
  | O => None
  | S f =>
      match s with
      | [] => Some (Fail Expecting_property_name 0)
      | c :: r =>
          if c =? QUOTE then
            match scanstring (length s) r with
            | Fail m k => Some (Fail m k)
            | Exceeded l => Some (Exceeded l)
            | Scanned key r1 =>
                match skip_ws r1 with
                | [] => Some (Fail Expecting_colon_delimiter 0)
                | c2 :: r2 =>
                    if c2 =? COLON then
                      match scan_once f depth (skip_ws r2) with
                      | None => None
                      | Some (Fail m k) => Some (Fail m k)
                      | Some (Exceeded l) => Some (Exceeded l)
                      | Some (Scanned v r3) =>
                          let acc' := dict_set key v acc in
                          match skip_ws r3 with
                          | [] => Some (Fail Expecting_comma_delimiter 0)
                          | c4 :: r4 =>
                              if c4 =? RBRACE then Some (Scanned (JDict acc') r4)
                              else if c4 =? COMMA
                              then parse_object f depth (skip_ws r4) acc'
                              else Some (Fail Expecting_comma_delimiter (length (c4 :: r4)))
                          end
                      end
                    else Some (Fail Expecting_colon_delimiter (length (c2 :: r2)))
                end
            end
          else Some (Fail Expecting_property_name (length s))
      end
  end

with parse_array (fuel depth : nat) (s : str) (acc : list json)
    : option (scan json) :=
  match fuel with
  | O => None
  | S f =>
      match scan_once f depth s with
      | None => None
      | Some (Fail m k) => Some (Fail m k)
      | Some (Exceeded l) => Some (Exceeded l)
      | Some (Scanned v r) =>
          let acc' := acc ++ [v] in
          match skip_ws r with
          | [] => Some (Fail Expecting_comma_delimiter 0)
          | c :: r1 =>
              if c =? RBRACKET then Some (Scanned (JList acc') r1)
              else if c =? COMMA then parse_array f depth (skip_ws r1) acc'
              else Some (Fail Expecting_comma_delimiter (length (c :: r1)))
          end
      end
  end.

Definition BOM : char := 0xFEFF.

(** [json.loads(s)]: the BOM check of [loads], then [JSONDecoder.decode]:
    whitespace, one value, whitespace, end of text.  [recursion_depth] is
    the number of nested calls the interpreter still allows where
    [json.loads] is called. *)
Definition json_loads (recursion_depth : nat) (s : str)
    : result loads_error json :=
  let err m k := Raise (Malformed {| msg := m; pos := (length s - k)%nat |}) in
  if startswith s [BOM] then err Unexpected_BOM (length s)
  else
    match scan_once (S (2 * length s)) recursion_depth (skip_ws s) with
    | None => err Expecting_value (length s)
    | Some (Fail m k) => err m k
    | Some (Exceeded l) => Raise (LimitExceeded l)
    | Some (Scanned v r) =>
        match skip_ws r with
        | [] => Return v
        | c :: r' => err Extra_data (length (c :: r'))
        end
    end.

End Decoder.

End Json.
Import Json.

(** ** The schema models and their validation

    [QuizItem], [PdfSummaryWithQuiz] and [PdfSummary] are pydantic models;
    [parse_obj] validates a decoded JSON value against them field by field
    and collects every error it meets.  The declarations fix the fields,
    their types and which are required; no validator, constraint or
    [Config] is declared, so unknown keys are ignored and nothing relates
    one field to another.

    A [str] field takes a string; [List[...]] takes a list; a model takes
    a dict; [Optional[str]] also takes [None].  An [int] field takes an
    integer, and in pydantic's default (lax) mode also a bool, a float
    without fractional part and a numeric string: the last two conversions
    are the library's and stay parameters ([float_as_int], [str_as_int]). *)

Module Pydantic.

Inductive loc_item : Type :=
| Field (name : str)
| Index (i : nat).

Inductive error_type : Type :=
| missing
| string_type
| int_type
| int_parsing
| int_from_float
| finite_number
| list_type
| model_type.

(** One entry of a [ValidationError]: the kind of error, the path to the
    place and the input found there (for a missing field, the object that
    lacks it).  The message of an entry is fixed by its kind and is left
    out. *)
Record ErrorDetails : Type := {
  type : error_type;
  loc : list loc_item;
  input : json
}.

(** A [ValidationError] holds one entry per failed field. *)
Definition ValidationError := list ErrorDetails.

Definition validated (A : Type) := result ValidationError A.

Definition fail_here {A} (t : error_type) (v : json) : validated A :=
  Raise [{| type := t; loc := []; input := v |}].

Definition under (l : loc_item) (es : ValidationError) : ValidationError :=
  List.map (fun e => {| type := type e; loc := l :: loc e; input := input e |})
    es.

(** Validation goes on after a failure: the errors of both sides are kept. *)
Definition both {A B} (ra : validated A) (rb : validated B) : validated (A * B) :=
  match ra, rb with
  | Return a, Return b => Return (a, b)
  | Raise e, Return _ => Raise e
  | Return _, Raise e => Raise e
  | Raise e, Raise e' => Raise (e ++ e')
  end.

Definition required {A} (name : str) (validate : json -> validated A)
    (d : dict) : validated A :=
  match dict_get name d with
  | None => Raise [{| type := missing; loc := [Field name]; input := JDict d |}]
  | Some v =>
      match validate v with
      | Return a => Return a
      | Raise e => Raise (under (Field name) e)
      end
  end.

Definition with_default {A} (name : str) (default : A)
    (validate : json -> validated A) (d : dict) : validated A :=
  match dict_get name d with
  | None => Return default
  | Some v =>
      match validate v with
      | Return a => Return a
      | Raise e => Raise (under (Field name) e)
      end
  end.

Fixpoint validate_items {A} (validate : json -> validated A) (i : nat)
    (vs : list json) : validated (list A) :=
  match vs with
  | [] => Return []
  | v :: r =>
      match validate v, validate_items validate (S i) r with
      | Return a, Return l => Return (a :: l)
      | Raise e, Return _ => Raise (under (Index i) e)
      | Return _, Raise e' => Raise e'
      | Raise e, Raise e' => Raise (under (Index i) e ++ e')
      end
  end.

Definition validate_list {A} (validate : json -> validated A) (v : json)
    : validated (list A) :=
  match v with
  | JList vs => validate_items validate 0 vs
  | _ => fail_here list_type v
  end.

Definition validate_str (v : json) : validated str :=
  match v with
  | JStr s => Return s
  | _ => fail_here string_type v
  end.

Definition validate_optional_str (v : json) : validated (option str) :=
  match v with
  | JNull => Return None
  | JStr s => Return (Some s)
  | _ => fail_here string_type v
  end.

(** [class QuizItem(BaseModel)] *)
Record QuizItem : Type := {
  question : str;
  choices : list str;
  correct_index : Z;
  explanation : option str
}.

(** [class PdfSummaryWithQuiz(BaseModel)] *)
Record PdfSummaryWithQuiz : Type := {
  summary : str;
  quiz : list QuizItem
}.

(** [class PdfSummary(BaseModel)]; its field [summary] is named
    [summary_text] here, [summary] being taken by the model above. *)
Record PdfSummary : Type := { summary_text : str }.

Section Validation.

Variable float_as_int : str -> result error_type Z.
Variable str_as_int : str -> result error_type Z.

Definition validate_int (v : json) : validated Z :=
  match v with
  | JInt n => Return n
  | JBool b => Return (if b then 1 else 0)%Z
  | JFloat lit =>
      match float_as_int lit with
      | Return n => Return n
      | Raise t => fail_here t v
      end
  | JStr s =>
      match str_as_int s with
      | Return n => Return n
      | Raise t => fail_here t v
      end
  | _ => fail_here int_type v
  end.

Definition validate_QuizItem (v : json) : validated QuizItem :=
  match v with
  | JDict d =>
      match both (required (u "question") validate_str d)
           (both (required (u "choices") (validate_list validate_str) d)
           (both (required (u "correct_index") validate_int d)
                 (with_default (u "explanation") None validate_optional_str d)))
      with
      | Return (q, (c, (i, e))) =>
          Return {| question := q; choices := c; correct_index := i;
                    explanation := e |}
      | Raise e => Raise e
      end
  | _ => fail_here model_type v
  end.

(** [PdfSummaryWithQuiz.parse_obj(data)] *)
Definition parse_obj (data : json) : validated PdfSummaryWithQuiz :=
  match data with
  | JDict d =>
      match both (required (u "summary") validate_str d)
                 (required (u "quiz") (validate_list validate_QuizItem) d)
      with
      | Return (s, q) => Return {| summary := s; quiz := q |}
      | Raise e => Raise e
      end
  | _ => fail_here model_type data
  end.

End Validation.

(** [PdfSummary(summary=text)], [text] being [response.text]: a string or
    [None]. *)
Definition new_PdfSummary (text : option str) : validated PdfSummary :=
  match text with
  | Some t => Return {| summary_text := t |}
  | None =>
      Raise [{| type := string_type; loc := [Field (u "summary")];
                input := JNull |}]
  end.

End Pydantic.
Import Pydantic.

(** ** The wire format

    The JSON texts of a value in the object shape of section 6 of the
    specification.  The source has no serializer.  [encode] writes the
    compact text: the keys in the order of the contract, [explanation]
    left out when the item has none; in a string the double quote and the
    backslash behind a backslash, a control character as a [\u00XX]
    escape and every other character as it is.  [value_text], further
    down, holds of every text that writes the value in that shape. *)

Module Wire.

Local Open Scope N_scope.

Definition hexdigit (n : N) : char :=
  if n <? 10 then 0x30 + n else 0x61 + (n - 10).

Definition escape_char (c : char) : str :=
  if c =? QUOTE then [BACKSLASH; QUOTE]
  else if c =? BACKSLASH then [BACKSLASH; BACKSLASH]
  else if c <=? 0x1F
  then [BACKSLASH; 0x75; 0x30; 0x30; hexdigit (c / 16); hexdigit (c mod 16)]
  else [c].

Definition encode_str (s : str) : str :=
  QUOTE :: flat_map escape_char s ++ [QUOTE].

(** The decimal digits of [n], most significant first. *)
Fixpoint digits_fuel (fuel : nat) (n : N) : str :=
  match fuel with
  | O => []
  | S f =>
      (if n / 10 =? 0 then [] else digits_fuel f (n / 10))
      ++ [0x30 + n mod 10]
  end.

Definition digits (n : N) : str := digits_fuel (S (N.to_nat (N.log2 n))) n.

Definition encode_int (z : Z) : str :=
  if (z <? 0)%Z then MINUS :: digits (Z.to_N (- z)) else digits (Z.to_N z).

(** The elements with commas between them. *)
Fixpoint join_comma (parts : list str) : str :=
  match parts with
  | [] => []
  | [p] => p
  | p :: rest => p ++ COMMA :: join_comma rest
  end.

Definition encode_list (parts : list str) : str :=
  LBRACKET :: join_comma parts ++ [RBRACKET].

Definition encode_item (q : QuizItem) : str :=
  uq "{'question':" ++ encode_str (question q)
  ++ uq ",'choices':" ++ encode_list (List.map encode_str (choices q))
  ++ uq ",'correct_index':" ++ encode_int (correct_index q)
  ++ match explanation q with
     | Some e => uq ",'explanation':" ++ encode_str e
     | None => []
     end
  ++ [RBRACE].

Definition encode (r : PdfSummaryWithQuiz) : str :=
  uq "{'summary':" ++ encode_str (summary r)
  ++ uq ",'quiz':" ++ encode_list (List.map encode_item (quiz r))
  ++ [RBRACE].

(** The value [json.loads] is to find in that text. *)
Definition item_json (q : QuizItem) : json :=
  JDict ([(u "question", JStr (question q));
          (u "choices", JList (List.map JStr (choices q)));
          (u "correct_index", JInt (correct_index q))]
         ++ match explanation q with
            | Some e => [(u "explanation", JStr e)]
            | None => []
            end).

Definition value_json (r : PdfSummaryWithQuiz) : json :=
  JDict [(u "summary", JStr (summary r));
         (u "quiz", JList (List.map item_json (quiz r)))].

(** *** Every text of a value

    [encode] is one way to write a value.  A JSON text may also put
    blanks between any two tokens, write a character of a string in any
    of the ways JSON has for it (as it is, behind a backslash, as
    [\uXXXX] with digits of either case, as a pair of surrogates when it
    lies outside the basic plane) and write [null] for an explanation
    that is absent.  [value_text r t] holds of every text [t] that writes
    [r] in the object shape of section 6 in one of these ways; the keys
    are written literally and in the order of the contract, an integer in
    decimal.  A high surrogate is not written as a [\uXXXX] escape of its
    own: the decoder would join it to a low surrogate that follows. *)

Definition blank (w : str) : Prop := forallb is_whitespace w = true.

(** The character that a high and a low surrogate stand for (UTF-16). *)
Definition pair_code_point (hi lo : N) : N :=
  0x10000 + (hi - 0xD800) * 0x400 + (lo - 0xDC00).

Inductive char_text : char -> str -> Prop :=
| written_plain (c : char) :
    (c =? QUOTE) = false -> (c =? BACKSLASH) = false -> (c <=? 0x1F) = false ->
    char_text c [c]
| written_escaped (e c : char) :
    simple_escape e = Some c -> char_text c [BACKSLASH; e]
| written_hex (h1 h2 h3 h4 c : char) :
    hex4 h1 h2 h3 h4 = Some c -> is_high_surrogate c = false ->
    char_text c [BACKSLASH; 0x75; h1; h2; h3; h4]
| written_pair (h1 h2 h3 h4 g1 g2 g3 g4 hi lo : char) :
    hex4 h1 h2 h3 h4 = Some hi -> is_high_surrogate hi = true ->
    hex4 g1 g2 g3 g4 = Some lo -> is_low_surrogate lo = true ->
    char_text (pair_code_point hi lo)
      [BACKSLASH; 0x75; h1; h2; h3; h4; BACKSLASH; 0x75; g1; g2; g3; g4].

(** The characters of a string between the quotes. *)
Inductive string_body : str -> str -> Prop :=
| body_end : string_body [] []
| body_char (c : char) (s tc ts : str) :
    char_text c tc -> string_body s ts -> string_body (c :: s) (tc ++ ts).

Inductive string_text : str -> str -> Prop :=
| quoted (s body : str) :
    string_body s body -> string_text s (QUOTE :: body ++ [QUOTE]).

(** The elements of a list that is not empty, with their commas. *)
Inductive elements_text {A : Type} (elem : A -> str -> Prop)
    : list A -> str -> Prop :=
| last_element (a : A) (t w : str) :
    elem a t -> blank w -> elements_text elem [a] (t ++ w)
| next_element (a : A) (l : list A) (t w1 w2 rest : str) :
    elem a t -> blank w1 -> blank w2 -> elements_text elem l rest ->
    elements_text elem (a :: l) (t ++ w1 ++ COMMA :: w2 ++ rest).

Inductive list_text {A : Type} (elem : A -> str -> Prop)
    : list A -> str -> Prop :=
| empty_list (w : str) :
    blank w -> list_text elem [] (LBRACKET :: w ++ [RBRACKET])
| full_list (l : list A) (w body : str) :
    blank w -> elements_text elem l body ->
    list_text elem l (LBRACKET :: w ++ body ++ [RBRACKET]).

(** A member of an object: the key, the colon, the value and the blanks
    around them. *)
Inductive member_text (key value : str) : str -> Prop :=
| member (w1 w2 w3 : str) :
    blank w1 -> blank w2 -> blank w3 ->
    member_text key value
      (QUOTE :: key ++ QUOTE :: w1 ++ COLON :: w2 ++ value ++ w3).

(** The last member of an item, if it is written. *)
Inductive explanation_text : option str -> str -> Prop :=
| explanation_left_out : explanation_text None []
| explanation_null (w m : str) :
    blank w -> member_text (u "explanation") (u "null") m ->
    explanation_text None (COMMA :: w ++ m)
| explanation_given (e te w m : str) :
    string_text e te -> blank w -> member_text (u "explanation") te m ->
    explanation_text (Some e) (COMMA :: w ++ m).

Inductive item_text (q : QuizItem) : str -> Prop :=
| item_written (tq tc w0 m1 w1 m2 w2 m3 te : str) :
    string_text (question q) tq ->
    list_text string_text (choices q) tc ->
    blank w0 -> blank w1 -> blank w2 ->
    member_text (u "question") tq m1 ->
    member_text (u "choices") tc m2 ->
    member_text (u "correct_index") (encode_int (correct_index q)) m3 ->
    explanation_text (explanation q) te ->
    item_text q
      (LBRACE :: w0 ++ m1 ++ COMMA :: w1 ++ m2 ++ COMMA :: w2 ++ m3 ++ te
         ++ [RBRACE]).

Inductive value_text (r : PdfSummaryWithQuiz) : str -> Prop :=
| value_written (ts tq w0 m1 w1 m2 : str) :
    string_text (summary r) ts ->
    list_text item_text (quiz r) tq ->
    blank w0 -> blank w1 ->
    member_text (u "summary") ts m1 ->
    member_text (u "quiz") tq m2 ->
    value_text r (LBRACE :: w0 ++ m1 ++ COMMA :: w1 ++ m2 ++ [RBRACE]).

(** The number of digits that [int] is given for [z], and whether it
    converts them under the limit. *)
Definition int_digits (z : Z) : nat := length (digits (Z.to_N (Z.abs z))).

Definition int_converts (int_max_str_digits : nat) (z : Z) : Prop :=
  exceeds_int_max_str_digits int_max_str_digits (int_digits z) = false.

(** The containers that the text of a value opens one inside the other:
    the object and the list of items, and in an item its object and the
    list of choices. *)
Definition nesting (r : PdfSummaryWithQuiz) : nat :=
  match quiz r with
  | [] => 2
  | _ :: _ => 4
  end.

End Wire.
Import Wire.

(** ** Collaborators and errors *)

(** Exceptions that reach the handlers of the pipeline. *)
Inductive exception : Type :=
| JSONDecodeError_ (e : JSONDecodeError)
| ValidationError_ (e : ValidationError)
| AttributeError      (* [None] has no attribute [strip] *)
| UnboundLocalError   (* [raw_text] read before assignment *)
| RecursionError      (* the text nests deeper than the stack allows *)
| ValueError          (* an integer with more digits than [int] converts *)
| HTTPStatusError (status_code : Z)
| OtherException (name : str).

(** Every [raise RuntimeError(...)] of the source, by what it reports.
    [Uncaught] is an exception that no handler of the source wraps. *)
Inductive error : Type :=
| DownloadFailure (pdf_url : str) (cause : exception)
| SummaryGenerationFailure (cause : exception)
| GenerationFailure (cause : exception)
| MalformedResponse (cause : JSONDecodeError) (snippet : str)
| SchemaViolation (cause : ValidationError) (data : json)
| Uncaught (e : exception).

(** What is sent to the model next to the PDF: the caller's prompt, or the
    quiz instructions, a fixed text into which [num_questions] is printed. *)
Inductive prompt : Type :=
| UserPrompt (text : str)
| QuizPrompt (num_questions : Z).

(** [client.models.generate_content(...)]: it raises, or returns a response
    whose [text] is a string or [None]. *)
Inductive response : Type :=
| Raises (e : exception)
| Text (text : option str).

(** [httpx.get(url, timeout=60.0)]: it raises, or returns a response. *)
Inductive http_response : Type :=
| HttpRaises (e : exception)
| HttpResponse (status_code : Z) (content : list Byte.byte).

(** The exception of [json.loads] for a limit. *)
Definition exception_of_limit (l : limit) : exception :=
  match l with
  | RecursionLimit => RecursionError
  | IntMaxStrDigits => ValueError
  end.

(** [Response.is_success], which [raise_for_status] tests. *)
Definition is_success (status_code : Z) : bool :=
  (200 <=? status_code)%Z && (status_code <=? 299)%Z.

(** ** The pipeline *)

Module Pipeline.

Section Collaborators.

Variable float_as_int : str -> result error_type Z.
Variable str_as_int : str -> result error_type Z.

(** The interpreter: [sys.get_int_max_str_digits()], and the number of
    nested calls that the recursion limit leaves where [json.loads] is
    called. *)
Variable int_max_str_digits : nat.
Variable recursion_depth : nat.

(** The module-level [client] and [httpx.get]. *)
Variable generate_content : list Byte.byte -> prompt -> response.
Variable httpx_get : str -> http_response.

(** [server.py] lines 63-72. *)
Definition _download_pdf (pdf_url : str) : result error (list Byte.byte) :=
  let pdf_url := strip pdf_url in
  match httpx_get pdf_url with
  | HttpRaises e => Raise (DownloadFailure pdf_url e)
  | HttpResponse status_code content =>
      if is_success status_code then Return content
      else Raise (DownloadFailure pdf_url (HTTPStatusError status_code))
  end.

(** [server.py] lines 77-105. *)
Definition summarize_pdf_from_url (pdf_url : str) (prompt_text : str)
    : result error PdfSummary :=
  match _download_pdf pdf_url with
  | Raise e => Raise e
  | Return pdf_bytes =>
      match generate_content pdf_bytes (UserPrompt prompt_text) with
      | Raises e => Raise (SummaryGenerationFailure e)
      | Text summary_text =>
          match new_PdfSummary summary_text with
          | Return r => Return r
          | Raise e => Raise (Uncaught (ValidationError_ e))
          end
      end
  end.

(** [main.py] lines 75-114 and [server.py] lines 164-207, which are the
    same statements: the [try] block with its two handlers, then the
    validation with its handler. *)
Definition extract_summary_with_quiz (r : response)
    : result error PdfSummaryWithQuiz :=
  match r with
  | Raises (JSONDecodeError_ _) => Raise (Uncaught UnboundLocalError)
  | Raises e => Raise (GenerationFailure e)
  | Text None => Raise (GenerationFailure AttributeError)
  | Text (Some text) =>
      let raw_text := normalize_response text in
      match json_loads int_max_str_digits recursion_depth raw_text with
      | Raise (Malformed e) => Raise (MalformedResponse e (slice_to 300 raw_text))
      | Raise (LimitExceeded l) => Raise (GenerationFailure (exception_of_limit l))
      | Return data =>
          match parse_obj float_as_int str_as_int data with
          | Raise e => Raise (SchemaViolation e data)
          | Return result => Return result
          end
      end
  end.

(** [main.py] lines 44-114. *)
Definition summarize_and_quiz_pdf_bytes (pdf_bytes : list Byte.byte)
    (num_questions : Z) : result error PdfSummaryWithQuiz :=
  extract_summary_with_quiz (generate_content pdf_bytes (QuizPrompt num_questions)).

(** [server.py] lines 110-207. *)
Definition summarize_and_quiz_pdf_from_url (pdf_url : str)
    (num_questions : Z) : result error PdfSummaryWithQuiz :=
  match _download_pdf pdf_url with
  | Raise e => Raise e
  | Return pdf_bytes =>
      extract_summary_with_quiz
        (generate_content pdf_bytes (QuizPrompt num_questions))
  end.

End Collaborators.

End Pipeline.
Import Pipeline.

(** ** Notions used in the statements *)

(** The first (resp. last) character of a string is kept by [p]-stripping. *)
Definition head_kept (p : char -> bool) (s : str) : Prop :=
  match s with
  | [] => True
  | c :: _ => p c = false
  end.

Definition last_kept (p : char -> bool) (s : str) : Prop := head_kept p (rev s).

(** The characters [strip] removes for the argument of the normalizer. *)
Definition is_backtick (c : char) : bool := existsb (N.eqb c) [BACKTICK].

(** Every occurrence of [c] removed from [s]. *)
Definition remove_all (c : char) (s : str) : str :=
  filter (fun x => negb (x =? c)%N) s.

(** The normalizer as section 4.3 of the specification words it: every
    backtick of the text is removed, wherever it stands. *)
Definition normalize_response_as_specified (text : str) : str :=
  let raw_text := strip text in
  if startswith raw_text FENCE then
    let raw_text := remove_all BACKTICK raw_text in
    if startswith raw_text (u "json") then strip (slice_from 4 raw_text)
    else raw_text
  else raw_text.

(** A scanning result leaves less text than it was given. *)
Definition uses_text {A} (s : str) (o : option (scan A)) : Prop :=
  forall v r, o = Some (Scanned v r) -> length r < length s.

(** A character that cannot go on a number. *)
Definition ends_number (c : char) : bool :=
  negb (isdigit c) && negb (c =? DOT)%N && negb (c =? 0x65)%N
  && negb (c =? 0x45)%N.


(** [t] starts as the text of a value does: with a character that is no
    blank and closes no list. *)
Definition opens_value (t : str) : Prop :=
  exists c r,
    t = c :: r /\ is_whitespace c = false /\ (c =? RBRACKET)%N = false.

(** The decoder reads the value [v] off the text [t], whatever follows
    that cannot go on a number, when [k] containers may still be
    entered. *)
Definition reads (int_max_str_digits k : nat) (t : str) (v : json) : Prop :=
  forall (f d : nat) (c0 : char) (rest : str),
    k <= d -> ends_number c0 = true ->
    2 * length (t ++ c0 :: rest) < f ->
    Json.scan_once int_max_str_digits f d (t ++ c0 :: rest)
    = Some (Scanned v (c0 :: rest)).

(** [d] is the JSON object of the quiz item [q]: the four keys of the
    wire contract with values of the declared types, [explanation] being
    a string, [null] or absent. *)
Definition item_object (q : QuizItem) (d : dict) : Prop :=
  dict_get (u "question") d = Some (JStr (question q))
  /\ dict_get (u "choices") d = Some (JList (List.map JStr (choices q)))
  /\ dict_get (u "correct_index") d = Some (JInt (correct_index q))
  /\ match explanation q with
     | Some e => dict_get (u "explanation") d = Some (JStr e)
     | None => dict_get (u "explanation") d = None
               \/ dict_get (u "explanation") d = Some JNull
     end.

Definition item_value (q : QuizItem) (v : json) : Prop :=
  exists d, v = JDict d /\ item_object q d.

(** The quiz item of the wire contract has an index that points into its
    choices. *)
Definition index_in_range (q : QuizItem) : Prop :=
  (0 <= correct_index q < Z.of_nat (length (choices q)))%Z.

(** *** The schema, read off the declarations of the models

    [conforms data r]: the decoded value [data] has the shape of the
    models and stands for the value [r].  An [int] field takes an integer,
    and in the validator's default mode also a bool, and a float or a
    string that converts.  [refused data entry]: [data] departs from the
    shape at the place and in the way that [entry] tells. *)

Section Schema.

Variable float_as_int : str -> result error_type Z.
Variable str_as_int : str -> result error_type Z.

Definition int_value (v : json) (i : Z) : Prop :=
  match v with
  | JInt n => i = n
  | JBool b => i = (if b then 1 else 0)%Z
  | JFloat lit => float_as_int lit = Return i
  | JStr s => str_as_int s = Return i
  | _ => False
  end.

Definition int_refused (v : json) (t : error_type) : Prop :=
  match v with
  | JInt _ | JBool _ => False
  | JFloat lit => float_as_int lit = Raise t
  | JStr s => str_as_int s = Raise t
  | _ => t = int_type
  end.

Definition item_conforms (v : json) (q : QuizItem) : Prop :=
  exists d,
    v = JDict d
    /\ dict_get (u "question") d = Some (JStr (question q))
    /\ dict_get (u "choices") d = Some (JList (List.map JStr (choices q)))
    /\ (exists x, dict_get (u "correct_index") d = Some x
                  /\ int_value x (correct_index q))
    /\ match explanation q with
       | Some e => dict_get (u "explanation") d = Some (JStr e)
       | None => dict_get (u "explanation") d = None
                 \/ dict_get (u "explanation") d = Some JNull
       end.

Definition conforms (data : json) (r : PdfSummaryWithQuiz) : Prop :=
  exists d items,
    data = JDict d
    /\ dict_get (u "summary") d = Some (JStr (summary r))
    /\ dict_get (u "quiz") d = Some (JList items)
    /\ Forall2 item_conforms items (quiz r).

Definition not_a_string (v : json) : Prop := forall s, v <> JStr s.

Inductive item_refused : json -> ErrorDetails -> Prop :=
| item_not_an_object (v : json) :
    (forall d, v <> JDict d) ->
    item_refused v {| type := model_type; loc := []; input := v |}
| item_key_missing (d : dict) (name : str) :
    In name [u "question"; u "choices"; u "correct_index"] ->
    dict_get name d = None ->
    item_refused (JDict d)
      {| type := missing; loc := [Field name]; input := JDict d |}
| question_not_a_string (d : dict) (v : json) :
    dict_get (u "question") d = Some v -> not_a_string v ->
    item_refused (JDict d)
      {| type := string_type; loc := [Field (u "question")]; input := v |}
| choices_not_a_list (d : dict) (v : json) :
    dict_get (u "choices") d = Some v -> (forall l, v <> JList l) ->
    item_refused (JDict d)
      {| type := list_type; loc := [Field (u "choices")]; input := v |}
| choice_not_a_string (d : dict) (l : list json) (j : nat) (v : json) :
    dict_get (u "choices") d = Some (JList l) ->
    nth_error l j = Some v -> not_a_string v ->
    item_refused (JDict d)
      {| type := string_type; loc := [Field (u "choices"); Index j];
         input := v |}
| index_not_an_integer (d : dict) (v : json) (t : error_type) :
    dict_get (u "correct_index") d = Some v -> int_refused v t ->
    item_refused (JDict d)
      {| type := t; loc := [Field (u "correct_index")]; input := v |}
| explanation_not_a_string (d : dict) (v : json) :
    dict_get (u "explanation") d = Some v -> v <> JNull -> not_a_string v ->
    item_refused (JDict d)
      {| type := string_type; loc := [Field (u "explanation")]; input := v |}.

Inductive refused : json -> ErrorDetails -> Prop :=
| not_an_object (data : json) :
    (forall d, data <> JDict d) ->
    refused data {| type := model_type; loc := []; input := data |}
| key_missing (d : dict) (name : str) :
    In name [u "summary"; u "quiz"] ->
    dict_get name d = None ->
    refused (JDict d)
      {| type := missing; loc := [Field name]; input := JDict d |}
| summary_not_a_string (d : dict) (v : json) :
    dict_get (u "summary") d = Some v -> not_a_string v ->
    refused (JDict d)
      {| type := string_type; loc := [Field (u "summary")]; input := v |}
| quiz_not_a_list (d : dict) (v : json) :
    dict_get (u "quiz") d = Some v -> (forall l, v <> JList l) ->
    refused (JDict d)
      {| type := list_type; loc := [Field (u "quiz")]; input := v |}
| quiz_item_refused (d : dict) (items : list json) (i : nat) (v : json)
    (entry : ErrorDetails) :
    dict_get (u "quiz") d = Some (JList items) ->
    nth_error items i = Some v ->
    item_refused v entry ->
    refused (JDict d)
      {| type := type entry;
         loc := Field (u "quiz") :: Index i :: loc entry;
         input := input entry |}.

End Schema.

(** The entries of a validation error, none when a value is returned. *)
Definition errors_of {A} (r : validated A) : ValidationError :=
  match r with
  | Return _ => []
  | Raise e => e
  end.

(** A validation result without the inputs of its entries: the value, or
    the kinds and places of the errors. *)
Definition outline {A} (r : validated A)
    : result (list (error_type * list loc_item)) A :=
  match r with
  | Return a => Return a
  | Raise e => Raise (List.map (fun x => (type x, loc x)) e)
  end.

(** Two entries report the same error at the same place, on the same
    input or, for a missing field, on the objects [a] and [b]. *)
Definition same_report (a b : json) (x y : ErrorDetails) : Prop :=
  type x = type y /\ loc x = loc y
  /\ (input x = input y
      \/ (type x = missing /\ input x = a /\ input y = b)).

(** Two validation results agree: the same value, or the same errors up
    to the object shown for a missing field. *)
Definition same_outcome {A} (a b : json) (r r' : validated A) : Prop :=
  match r, r' with
  | Return x, Return y => x = y
  | Raise e, Raise e' => Forall2 (same_report a b) e e'
  | _, _ => False
  end.

(** ** Stub collaborators and sample responses

    The collaborators are replaced by stubs that answer with a fixed
    text, a fixed HTTP response or a fixed error. *)

(** The interpreter as it is started: integers of up to 4300 digits, and
    room for a thousand nested calls. *)
Definition default_max_str_digits : nat := 4300.

Definition default_depth : nat := 1000.

(** No numeric string and no float is taken for an integer. *)
Definition no_conversion : str -> result error_type Z :=
  fun _ => Raise int_parsing.

Definition model_answers (text : str) : list Byte.byte -> prompt -> response :=
  fun _ _ => Text (Some text).

Definition server_answers (status_code : Z) (content : list Byte.byte)
    : str -> http_response :=
  fun _ => HttpResponse status_code content.

Definition no_route : str -> http_response :=
  fun _ => HttpRaises (OtherException (u "ConnectError")).

(** The response of section 8 of the specification: one item, four
    choices, index 5. *)
Definition out_of_range_response : str :=
  uq "{'summary':'s','quiz':[{'question':'q','choices':['a','b','c','d'],'correct_index':5}]}".

Definition out_of_range_item : QuizItem :=
  {| question := u "q"; choices := [u "a"; u "b"; u "c"; u "d"];
     correct_index := 5; explanation := None |}.

(** A fenced response with two well-formed items. *)
Definition two_item_response : str :=
  uq "```json {'summary':'s','quiz':[{'question':'q1','choices':['a','b','c','d'],'correct_index':3,'explanation':'e'},{'question':'q2','choices':['a','b','c','d'],'correct_index':0}]} ```".

Definition two_items : list QuizItem :=
  [ {| question := u "q1"; choices := [u "a"; u "b"; u "c"; u "d"];
       correct_index := 3; explanation := Some (u "e") |};
    {| question := u "q2"; choices := [u "a"; u "b"; u "c"; u "d"];
       correct_index := 0; explanation := None |} ].

(** The responses of section 8 of the specification that are to fail. *)
Definition malformed_response : str := uq "{'summary': 'x', 'quiz': [}".

Definition quiz_missing_response : str := uq "{'summary': 'x'}".

(** Responses that are no JSON texts and are not reported as malformed:
    one with the constant [NaN], which the decoder reads; one that opens
    more arrays than the interpreter can nest calls; one number with more
    digits than an [int] is converted from. *)
Definition nan_response : str := uq "{'summary':'s','quiz':[],'x':NaN}".

Definition deep_response : str := repeat LBRACKET (S default_depth).

Definition long_number_response : str :=
  repeat 0x31%N (S default_max_str_digits).

(** A response whose items do not match the model: the first is no
    object, the second has a choice and an index that are [null]. *)
Definition ill_typed_response : str :=
  uq "{'summary':'x','quiz':[3,{'question':'q','choices':['a',null],'correct_index':null}]}".

Definition ill_typed_data : json :=
  JDict [(u "summary", JStr (u "x"));
         (u "quiz",
          JList [JInt 3;
                 JDict [(u "question", JStr (u "q"));
                        (u "choices", JList [JStr (u "a"); JNull]);
                        (u "correct_index", JNull)]])].

(** A value whose text uses what JSON allows: blanks between the tokens,
    a line feed written as an escape, a character outside the basic plane
    written as a pair of surrogates, a letter as a [\u] escape and [null]
    for the explanation. *)
Definition escaped_response : str :=
  uq "{ 'summary' : 'a\nb\ud83d\uDE00' , 'quiz' : [ { 'question' : 'q', 'choices' : [ 'x' , 'y\u00e9' ], 'correct_index' : -7, 'explanation' : null } ] }".

Definition escaped_value : PdfSummaryWithQuiz :=
  {| summary := [0x61; 0x0A; 0x62; 0x1F600]%N;
     quiz := [ {| question := u "q"; choices := [u "x"; [0x79; 0xE9]%N];
                  correct_index := -7; explanation := None |} ] |}.

(** The least integer that [int] does not convert from its digits under
    the default limit: a one and 4300 zeros. *)
Definition long_index : Z := 10 ^ Z.of_nat default_max_str_digits.

Definition long_index_value : PdfSummaryWithQuiz :=
  {| summary := u "s";
     quiz := [ {| question := u "q"; choices := [];
                  correct_index := long_index; explanation := None |} ] |}.

Definition long_index_response : str :=
  uq "{'summary':'s','quiz':[{'question':'q','choices':[],'correct_index':"
  ++ 0x31%N :: repeat 0x30%N default_max_str_digits ++ u "}]}".

(** A response to the summary prompt with blanks and a fence around it. *)
Definition untidy_summary : str :=
  u "  ```json" ++ [10%N] ++ u "not json at all ``` ".

(** ** Notions used in the further properties *)

(** What the normalizer may remove in front of its result: whitespace,
    backticks and the characters of the tag [json]; and behind it:
    whitespace and backticks. *)
Definition removable_before (c : char) : Prop :=
  isspace c = true \/ c = BACKTICK \/ In c (u "json").

Definition removable_after (c : char) : Prop :=
  isspace c = true \/ c = BACKTICK.

(** The characters at which [scan_once] finds a value: the quote, the
    brace, the bracket, the first letters of [null], [true], [false],
    [NaN] and [Infinity], the minus sign and the digits. *)
Definition starts_value (c : char) : bool :=
  ((c =? QUOTE) || (c =? LBRACE) || (c =? LBRACKET)
   || (c =? 0x6E) || (c =? 0x74) || (c =? 0x66) || (c =? 0x4E) || (c =? 0x49)
   || (c =? MINUS) || isdigit c)%N.

(** ** The result page

    [main.py] lines 149-202: the handler of [POST /summarize-quiz] reads
    the upload, runs the pipeline and renders the result as HTML, or the
    text of the exception in an error page.  The literals are those of
    the source, their Korean words written as code points. *)

Module Web.

Local Open Scope N_scope.

(** The text [mark] takes for the correct choice. *)
Definition MARK : str := u " " ++ [0x2705] ++ u " (" ++ [0xC815; 0xB2F5] ++ u ")".

(** The [<li>] line of the choice at [idx]. *)
Definition choice_line (correct_index : Z) (idx : nat) (choice : str) : str :=
  let mark := if (Z.of_nat idx =? correct_index)%Z then MARK else [] in
  u "<li>" ++ choice ++ mark ++ u "</li>".

(** [for idx, choice in enumerate(q.choices)], counting from [idx]. *)
Fixpoint choice_lines (correct_index : Z) (idx : nat) (choices : list str)
    : list str :=
  match choices with
  | [] => []
  | choice :: rest =>
      choice_line correct_index idx choice
      :: choice_lines correct_index (S idx) rest
  end.

(** [if q.explanation:] holds for a string that is not empty. *)
Definition explanation_lines (explanation : option str) : list str :=
  match explanation with
  | Some (c :: r) =>
      [u "<p><b>" ++ [0xD574; 0xC124] ++ u ":</b> " ++ (c :: r) ++ u "</p>"]
  | _ => []
  end.

(** The parts appended for the item numbered [i]. *)
Definition item_parts (i : nat) (q : QuizItem) : list str :=
  [u "<h2>" ++ [0xBB38; 0xC81C] ++ u " " ++ digits (N.of_nat i) ++ u "</h2>";
   u "<p>" ++ question q ++ u "</p>";
   u "<ol type='A'>"]
  ++ choice_lines (correct_index q) 0 (choices q)
  ++ [u "</ol>"]
  ++ explanation_lines (explanation q)
  ++ [u "<hr>"].

(** [for i, q in enumerate(result.quiz, start=1)], counting from [i]. *)
Fixpoint quiz_parts (i : nat) (quiz : list QuizItem) : list str :=
  match quiz with
  | [] => []
  | q :: rest => item_parts i q ++ quiz_parts (S i) rest
  end.

Definition html_parts (result : PdfSummaryWithQuiz) : list str :=
  [u "<html>";
   u "<head><meta charset='utf-8' /><title>" ++ [0xC694; 0xC57D] ++ u " & "
     ++ [0xD034; 0xC988] ++ u " " ++ [0xACB0; 0xACFC] ++ u "</title></head>";
   u "<body>";
   u "<h1>" ++ [0xC694; 0xC57D] ++ u " " ++ [0xACB0; 0xACFC] ++ u "</h1>";
   u "<pre style='white-space: pre-wrap;'>" ++ summary result ++ u "</pre>";
   u "<hr>";
   u "<h1>" ++ [0xD034; 0xC988] ++ u "</h1>"]
  ++ quiz_parts 1 (quiz result)
  ++ [u "<p><a href='/'>" ++ [0xB2E4; 0xB978] ++ u " PDF" ++ [0xB85C] ++ u " "
        ++ [0xB2E4; 0xC2DC] ++ u " " ++ [0xC2DC; 0xB3C4; 0xD558; 0xAE30]
        ++ u "</a></p>";
      u "</body></html>"].

(** The page returned in the [except] branch, [message] being [str(e)]. *)
Definition error_page (message : str) : str :=
  [0xA] ++ u "        <html>" ++ [0xA]
  ++ u "          <head><meta charset=" ++ [0x22] ++ u "utf-8" ++ [0x22]
  ++ u " /><title>" ++ [0xC5D0; 0xB7EC] ++ u "</title></head>" ++ [0xA]
  ++ u "          <body>" ++ [0xA]
  ++ u "            <h1>" ++ [0xC5D0; 0xB7EC] ++ u " " ++ [0xBC1C; 0xC0DD]
  ++ u "</h1>" ++ [0xA]
  ++ u "            <pre>" ++ message ++ u "</pre>" ++ [0xA]
  ++ u "            <p><a href=" ++ [0x22] ++ u "/" ++ [0x22] ++ u ">"
  ++ [0xB3CC; 0xC544; 0xAC00; 0xAE30] ++ u "</a></p>" ++ [0xA]
  ++ u "          </body>" ++ [0xA]
  ++ u "        </html>" ++ [0xA]
  ++ u "        ".

Section Handler.

Variable float_as_int : str -> result error_type Z.
Variable str_as_int : str -> result error_type Z.
Variable int_max_str_digits : nat.
Variable recursion_depth : nat.
Variable generate_content : list Byte.byte -> prompt -> response.

(** [str(e)] of the exception caught. *)
Variable str_of_error : error -> str.

(** [summarize_quiz(pdf, num_questions)]; [pdf] is what [await pdf.read()]
    gives: the bytes, or an exception, which nothing has wrapped. *)
Definition summarize_quiz (pdf : result exception (list Byte.byte))
    (num_questions : Z) : str :=
  match pdf with
  | Raise e => error_page (str_of_error (Uncaught e))
  | Return pdf_bytes =>
      match summarize_and_quiz_pdf_bytes float_as_int str_as_int
              int_max_str_digits recursion_depth generate_content
              pdf_bytes num_questions with
      | Raise e => error_page (str_of_error e)
      | Return result => concat (html_parts result)
      end
  end.

End Handler.

End Web.
Import Web.

(** The line of a choice without the mark, and with it. *)
Definition plain_line (choice : str) : str := u "<li>" ++ choice ++ u "</li>".

Definition marked_line (choice : str) : str :=
  u "<li>" ++ choice ++ MARK ++ u "</li>".

(** ** The instructions sent with the PDF

    [main.py] lines 49-73 and [server.py] lines 138-162 hold the same
    f-string: a fixed text in Korean with the shape of the answer, into
    which [num_questions] is printed.  The text is given by its code
    points; the two braces of the f-string stand for one. *)

Module Prompt.

Local Open Scope N_scope.

(** The text before [{num_questions}]. *)
Definition PROMPT_HEAD : str :=
  [0xA]
  ++ [0xB2F9; 0xC2E0; 0xC740] ++ u " " ++ [0xB300; 0xD559] ++ u " "
     ++ [0xAC15; 0xC758; 0xB97C] ++ u " " ++ [0xC704; 0xD55C] ++ u " "
     ++ [0xD559; 0xC2B5] ++ u " " ++ [0xC790; 0xB8CC; 0xB97C] ++ u " "
     ++ [0xB9CC; 0xB4DC; 0xB294] ++ u " " ++ [0xBCF4; 0xC870] ++ u " "
     ++ [0xAD50; 0xC0AC; 0xC785; 0xB2C8; 0xB2E4] ++ u "." ++ [0xA]
  ++ [0xA]
  ++ [0xC8FC; 0xC5B4; 0xC9C4] ++ u " PDF " ++ [0xB0B4; 0xC6A9; 0xC744]
     ++ u " " ++ [0xBC14; 0xD0D5; 0xC73C; 0xB85C] ++ u " "
     ++ [0xC544; 0xB798] ++ u " JSON " ++ [0xD615; 0xC2DD; 0xC5D0] ++ u " "
     ++ [0xB9DE; 0xAC8C] ++ u " "
     ++ [0xCD9C; 0xB825; 0xD558; 0xC138; 0xC694] ++ u "." ++ [0xA]
  ++ [0xA]
  ++ u "{" ++ [0xA]
  ++ uq "  'summary': 'PDF " ++ [0xC804; 0xCCB4] ++ u " "
     ++ [0xB0B4; 0xC6A9; 0xC744] ++ u " "
     ++ [0xD55C; 0xAD6D; 0xC5B4; 0xB85C] ++ u " 5~7"
     ++ [0xBB38; 0xC7A5; 0xC73C; 0xB85C] ++ u " "
     ++ [0xC694; 0xC57D; 0xD55C] ++ u " " ++ [0xD14D; 0xC2A4; 0xD2B8]
     ++ uq "'," ++ [0xA]
  ++ uq "  'quiz': [" ++ [0xA]
  ++ u "    {" ++ [0xA]
  ++ uq "      'question': '" ++ [0xAC1D; 0xAD00; 0xC2DD] ++ u " "
     ++ [0xBB38; 0xC81C; 0xC758] ++ u " " ++ [0xC9C8; 0xBB38] ++ u " ("
     ++ [0xD55C; 0xAD6D; 0xC5B4] ++ uq ")'," ++ [0xA]
  ++ uq "      'choices': ['" ++ [0xC120; 0xD0DD; 0xC9C0] ++ uq "1', '"
     ++ [0xC120; 0xD0DD; 0xC9C0] ++ uq "2', '" ++ [0xC120; 0xD0DD; 0xC9C0]
     ++ uq "3', '" ++ [0xC120; 0xD0DD; 0xC9C0] ++ uq "4']," ++ [0xA]
  ++ uq "      'correct_index': 0," ++ [0xA]
  ++ uq "      'explanation': '" ++ [0xC815; 0xB2F5; 0xACFC] ++ u " "
     ++ [0xAD00; 0xB828; 0xD55C] ++ u " " ++ [0xAC04; 0xB2E8; 0xD55C]
     ++ u " " ++ [0xD574; 0xC124] ++ u " (" ++ [0xD55C; 0xAD6D; 0xC5B4]
     ++ uq ")'" ++ [0xA]
  ++ u "    }" ++ [0xA]
  ++ u "  ]" ++ [0xA]
  ++ u "}" ++ [0xA]
  ++ [0xA]
  ++ [0xC694; 0xAD6C; 0xC0AC; 0xD56D] ++ u ":" ++ [0xA]
  ++ u "- quiz " ++ [0xBC30; 0xC5F4; 0xC5D0; 0xB294] ++ u " "
     ++ [0xC815; 0xD655; 0xD788] ++ u " ".

(** The text behind [{num_questions}]. *)
Definition PROMPT_TAIL : str :=
  [0xAC1C; 0xC758] ++ u " " ++ [0xBB38; 0xC81C; 0xB9CC] ++ u " "
     ++ [0xD3EC; 0xD568; 0xD558; 0xC138; 0xC694] ++ u "." ++ [0xA]
  ++ u "- " ++ [0xAC01] ++ u " choices" ++ [0xB294] ++ u " 4"
     ++ [0xAC1C; 0xC758] ++ u " " ++ [0xBCF4; 0xAE30; 0xB97C] ++ u " "
     ++ [0xAC00; 0xC9C0; 0xAC8C] ++ u " " ++ [0xD558; 0xC138; 0xC694]
     ++ u "." ++ [0xA]
  ++ u "- correct_index" ++ [0xB294] ++ u " 0" ++ [0xBD80; 0xD130]
     ++ u " 3 " ++ [0xC0AC; 0xC774; 0xC758] ++ u " "
     ++ [0xC815; 0xC218; 0xC785; 0xB2C8; 0xB2E4] ++ u "." ++ [0xA]
  ++ u "- summary" ++ [0xC640] ++ u " quiz" ++ [0xC758] ++ u " "
     ++ [0xB0B4; 0xC6A9; 0xC740] ++ u " " ++ [0xBAA8; 0xB450] ++ u " PDF "
     ++ [0xB0B4; 0xC6A9; 0xC5D0] ++ u " "
     ++ [0xAE30; 0xBC18; 0xD574; 0xC57C] ++ u " "
     ++ [0xD569; 0xB2C8; 0xB2E4] ++ u "." ++ [0xA]
  ++ u "- " ++ [0xBC18; 0xB4DC; 0xC2DC] ++ u " " ++ [0xC704] ++ u " JSON "
     ++ [0xD615; 0xC2DD] ++ u " " ++ [0xADF8; 0xB300; 0xB85C; 0xB97C]
     ++ u " " ++ [0xCD9C; 0xB825; 0xD558; 0xACE0] ++ u "," ++ [0xA]
  ++ u "  " ++ [0xB2E4; 0xB978] ++ u " " ++ [0xC124; 0xBA85] ++ u ", "
     ++ [0xC790; 0xC5F0; 0xC5B4] ++ u " " ++ [0xBB38; 0xC7A5] ++ u ", "
     ++ [0xB9C8; 0xD06C; 0xB2E4; 0xC6B4] ++ u ", "
     ++ [0xCF54; 0xB4DC; 0xBE14; 0xB85D] ++ u ", "
     ++ [0xC8FC; 0xC11D; 0xC740] ++ u " " ++ [0xC808; 0xB300] ++ u " "
     ++ [0xCD94; 0xAC00; 0xD558; 0xC9C0] ++ u " "
     ++ [0xB9C8; 0xC138; 0xC694] ++ u "." ++ [0xA].

(** [system_prompt]; [str] of an [int] is its decimal text. *)
Definition system_prompt (num_questions : Z) : str :=
  PROMPT_HEAD ++ encode_int num_questions ++ PROMPT_TAIL.

End Prompt.
Import Prompt.

(** Further sample responses: the object with a sentence behind it, and
    with a sentence before it. *)
Definition trailing_text_response : str :=
  uq "{'summary':'s','quiz':[]} Done.".

Definition leading_text_response : str :=
  uq "Here is the JSON: {'summary':'s','quiz':[]}".

Definition empty_quiz : PdfSummaryWithQuiz := {| summary := u "s"; quiz := [] |}.

(** * Properties *)

(** ** Stripping *)

Section StripFacts.

Variable p : char -> bool.

Lemma lstrip_with_split (s : str) :
  exists pre, s = pre ++ lstrip_with p s /\ forallb p pre = true.
Proof.
  induction s as [|c r IH]; simpl.
  - exists []. split; reflexivity.
  - destruct (p c) eqn:Hc.
    + destruct IH as [pre [E F]]. exists (c :: pre). simpl.
      rewrite Hc, F. split; [f_equal; exact E | reflexivity].
    + exists []. split; reflexivity.
Qed.

Lemma lstrip_with_head (s : str) : head_kept p (lstrip_with p s).
Proof.
  induction s as [|c r IH]; simpl; [exact I|].
  destruct (p c) eqn:Hc; [exact IH | simpl; exact Hc].
Qed.

Lemma lstrip_with_fix (s : str) : head_kept p s -> lstrip_with p s = s.
Proof.
  destruct s as [|c r]; simpl; [reflexivity|].
  intros ->. reflexivity.
Qed.

Lemma lstrip_with_length (s : str) : length (lstrip_with p s) <= length s.
Proof.
  induction s as [|c r IH]; simpl; [lia|].
  destruct (p c); simpl; lia.
Qed.

Lemma lstrip_with_length_eq (s : str) :
  length (lstrip_with p s) = length s -> lstrip_with p s = s.
Proof.
  destruct s as [|c r]; simpl; [reflexivity|].
  destruct (p c); [|reflexivity].
  intros H. pose proof (lstrip_with_length r). lia.
Qed.

Lemma lstrip_with_shorter (c : char) (s : str) :
  p c = true -> length (lstrip_with p (c :: s)) < length (c :: s).
Proof.
  intros Hc. simpl. rewrite Hc. pose proof (lstrip_with_length s). lia.
Qed.

Lemma rstrip_with_split (s : str) :
  exists post, s = rstrip_with p s ++ post /\ forallb p post = true.
Proof.
  unfold rstrip_with.
  destruct (lstrip_with_split (rev s)) as [pre [E F]].
  exists (rev pre). split.
  - rewrite <- rev_app_distr, <- E, rev_involutive. reflexivity.
  - rewrite forallb_forall in *. intros x Hx. apply F.
    apply in_rev. exact Hx.
Qed.

Lemma rstrip_with_last (s : str) : last_kept p (rstrip_with p s).
Proof.
  unfold last_kept, rstrip_with. rewrite rev_involutive.
  apply lstrip_with_head.
Qed.

Lemma rstrip_with_fix (s : str) : last_kept p s -> rstrip_with p s = s.
Proof.
  unfold last_kept, rstrip_with. intros H.
  rewrite (lstrip_with_fix _ H). apply rev_involutive.
Qed.

Lemma rstrip_with_length (s : str) : length (rstrip_with p s) <= length s.
Proof.
  unfold rstrip_with. rewrite length_rev.
  pose proof (lstrip_with_length (rev s)). rewrite length_rev in H. exact H.
Qed.

Lemma rstrip_with_length_eq (s : str) :
  length (rstrip_with p s) = length s -> rstrip_with p s = s.
Proof.
  unfold rstrip_with. rewrite length_rev. intros H.
  rewrite lstrip_with_length_eq; [apply rev_involutive|].
  rewrite length_rev. exact H.
Qed.

(** Stripping at the right end keeps the first character. *)
Lemma rstrip_with_head (s : str) : head_kept p s -> head_kept p (rstrip_with p s).
Proof.
  destruct (rstrip_with_split s) as [post [E _]].
  destruct (rstrip_with p s) as [|c r]; [intros _; exact I|].
  rewrite E. simpl. auto.
Qed.

Lemma strip_with_head (s : str) : head_kept p (strip_with p s).
Proof. apply rstrip_with_head, lstrip_with_head. Qed.

Lemma strip_with_last (s : str) : last_kept p (strip_with p s).
Proof. apply rstrip_with_last. Qed.

Lemma strip_with_fix (s : str) :
  head_kept p s -> last_kept p s -> strip_with p s = s.
Proof.
  intros Hh Hl. unfold strip_with.
  rewrite (lstrip_with_fix _ Hh). apply rstrip_with_fix, Hl.
Qed.

Lemma strip_with_idem (s : str) :
  strip_with p (strip_with p s) = strip_with p s.
Proof. apply strip_with_fix; [apply strip_with_head | apply strip_with_last]. Qed.

Lemma strip_with_length (s : str) : length (strip_with p s) <= length s.
Proof.
  unfold strip_with.
  pose proof (rstrip_with_length (lstrip_with p s)).
  pose proof (lstrip_with_length s). lia.
Qed.

Lemma strip_with_length_eq (s : str) :
  length (strip_with p s) = length s -> strip_with p s = s.
Proof.
  unfold strip_with. intros H.
  pose proof (rstrip_with_length (lstrip_with p s)).
  pose proof (lstrip_with_length s).
  rewrite rstrip_with_length_eq by lia.
  apply lstrip_with_length_eq. lia.
Qed.

Lemma strip_with_shorter (c : char) (s : str) :
  p c = true -> length (strip_with p (c :: s)) < length (c :: s).
Proof.
  intros Hc. unfold strip_with.
  pose proof (rstrip_with_length (lstrip_with p (c :: s))).
  pose proof (lstrip_with_shorter s Hc). lia.
Qed.

(** What [strip] removes and what it leaves. *)
Lemma strip_with_split (s : str) :
  exists pre post,
    s = pre ++ strip_with p s ++ post
    /\ forallb p pre = true /\ forallb p post = true.
Proof.
  destruct (lstrip_with_split s) as [pre [E1 F1]].
  destruct (rstrip_with_split (lstrip_with p s)) as [post [E2 F2]].
  exists pre, post. unfold strip_with.
  rewrite <- E2. auto.
Qed.

End StripFacts.

(** ** The response normalizer *)

(** The fenced text of section 8 of the specification. *)
Example normalize_fenced_example :
  normalize_response (u "```json" ++ [10%N] ++ u "{}" ++ [10%N] ++ u "```") = u "{}".
Proof. reflexivity. Qed.

Lemma strip_idem (s : str) : strip (strip s) = strip s.
Proof. apply strip_with_idem. Qed.

Lemma startswith_fence_head (s : str) :
  startswith s FENCE = true -> exists r, s = BACKTICK :: r.
Proof.
  destruct s as [|c r]; simpl; [discriminate|].
  intros H. apply andb_true_iff in H. destruct H as [H _].
  apply N.eqb_eq in H. subst c. exists r. reflexivity.
Qed.

Lemma normalize_response_unfenced (text : str) :
  startswith (strip text) FENCE = false ->
  normalize_response text = strip text.
Proof. unfold normalize_response. intros ->. reflexivity. Qed.

(** The normalizer never lengthens the trimmed text, and shortens it when
    it starts with a fence. *)
Lemma normalize_response_length (text : str) :
  length (normalize_response text) <= length (strip text)
  /\ (startswith (strip text) FENCE = true ->
      length (normalize_response text) < length (strip text)).
Proof.
  unfold normalize_response.
  destruct (startswith (strip text) FENCE) eqn:Hf.
  - destruct (startswith_fence_head _ Hf) as [r Hr]. rewrite Hr.
    assert (Hlt : length (strip_chars [BACKTICK] (BACKTICK :: r))
                  < length (BACKTICK :: r))
      by (apply strip_with_shorter; reflexivity).
    assert (Hgoal : length
              (if startswith (strip_chars [BACKTICK] (BACKTICK :: r)) (u "json")
               then strip (slice_from 4 (strip_chars [BACKTICK] (BACKTICK :: r)))
               else strip_chars [BACKTICK] (BACKTICK :: r))
            < length (BACKTICK :: r)).
    { destruct (startswith _ (u "json")); [|exact Hlt].
      pose proof (strip_with_length isspace
                    (slice_from 4 (strip_chars [BACKTICK] (BACKTICK :: r)))) as H1.
      unfold strip. unfold slice_from in *. rewrite length_skipn in H1. lia. }
    split; [apply Nat.lt_le_incl; exact Hgoal | intros _; exact Hgoal].
  - split; [lia | discriminate].
Qed.

(** C3, refuted as stated: on a fenced response whose summary holds a
    backtick, the code keeps that backtick ([strip] only works at the two
    ends), while the normalizer of the specification removes it. *)
Lemma C3_fence_strip_counterexample :
  startswith (strip (uq "```json{'summary':'a`b','quiz':[]}```")) FENCE = true
  /\ normalize_response (uq "```json{'summary':'a`b','quiz':[]}```")
     = uq "{'summary':'a`b','quiz':[]}"
  /\ normalize_response_as_specified (uq "```json{'summary':'a`b','quiz':[]}```")
     = uq "{'summary':'ab','quiz':[]}".
Proof. repeat split; reflexivity. Qed.

(** C3, amended: when the trimmed response begins with three backticks,
    the normalizer removes the backticks at its two ends only: the trimmed
    text is a run of backticks, a core that neither begins nor ends with a
    backtick, and a run of backticks; the core keeps every backtick inside
    it.  The result is the core, or, when the core begins with [json], the
    core without its first four characters, trimmed again. *)
Theorem C3_fence_strip_at_ends (text : str) :
  startswith (strip text) FENCE = true ->
  exists pre core post,
    strip text = pre ++ core ++ post
    /\ Forall (fun c => c = BACKTICK) pre
    /\ Forall (fun c => c = BACKTICK) post
    /\ hd_error core <> Some BACKTICK
    /\ hd_error (rev core) <> Some BACKTICK
    /\ normalize_response text =
         if startswith core (u "json") then strip (slice_from 4 core) else core.
Proof.
  intros Hf.
  destruct (strip_with_split is_backtick (strip text)) as [pre [post [E [Fp Fq]]]].
  exists pre, (strip_chars [BACKTICK] (strip text)), post.
  assert (Hall : forall l, forallb is_backtick l = true ->
                           Forall (fun c => c = BACKTICK) l).
  { intros l Hl. apply Forall_forall. intros x Hx.
    rewrite forallb_forall in Hl. specialize (Hl x Hx).
    unfold is_backtick in Hl. simpl in Hl. rewrite orb_false_r in Hl.
    apply N.eqb_eq. exact Hl. }
  assert (Hkept : forall l, head_kept is_backtick l -> hd_error l <> Some BACKTICK).
  { intros [|c l]; simpl; [discriminate|].
    intros Hc Heq. injection Heq as ->. discriminate Hc. }
  repeat split.
  - exact E.
  - apply Hall, Fp.
  - apply Hall, Fq.
  - apply Hkept, strip_with_head.
  - apply Hkept. apply (strip_with_last is_backtick).
  - unfold normalize_response. rewrite Hf. reflexivity.
Qed.

Lemma C3_fence_strip_at_ends_witness :
  startswith (strip (uq "```json{'summary':'a`b','quiz':[]}```")) FENCE = true
  /\ exists pre core post,
       strip (uq "```json{'summary':'a`b','quiz':[]}```") = pre ++ core ++ post
       /\ Forall (fun c => c = BACKTICK) pre
       /\ Forall (fun c => c = BACKTICK) post
       /\ hd_error core <> Some BACKTICK
       /\ hd_error (rev core) <> Some BACKTICK
       /\ normalize_response (uq "```json{'summary':'a`b','quiz':[]}```") =
            if startswith core (u "json") then strip (slice_from 4 core) else core.
Proof.
  split; [reflexivity|].
  apply (C3_fence_strip_at_ends (uq "```json{'summary':'a`b','quiz':[]}```")).
  reflexivity.
Defined.

(** C4, refuted as stated: a fenced response without the [json] tag is
    not trimmed again after the backticks are removed, so the output still
    has blanks around it, and a second pass removes them. *)
Lemma C4_idempotence_counterexample :
  normalize_response (u "``` {} ```") = u " {} "
  /\ normalize_response (normalize_response (u "``` {} ```")) = u "{}"
  /\ str_eqb (normalize_response (normalize_response (u "``` {} ```")))
             (normalize_response (u "``` {} ```")) = false.
Proof. repeat split; reflexivity. Qed.

(** C4, amended: the normalizer leaves its own output unchanged exactly
    when that output has no whitespace at its ends and does not begin with
    three backticks.  That is so for every input whose trimmed text does
    not begin with three backticks. *)
Theorem C4_normalizer_fixed_points (text : str) :
  let out := normalize_response text in
  (normalize_response out = out
   <-> strip out = out /\ startswith out FENCE = false)
  /\ (startswith (strip text) FENCE = false -> normalize_response out = out).
Proof.
  intros out.
  assert (Hback : strip out = out /\ startswith out FENCE = false ->
                  normalize_response out = out).
  { intros [Hs Hf]. rewrite normalize_response_unfenced; rewrite Hs; auto. }
  split; [split; [|exact Hback]|].
  - intros Hfix.
    destruct (normalize_response_length out) as [Hle Hlt].
    rewrite Hfix in Hle, Hlt.
    pose proof (strip_with_length isspace out) as Hs. fold (strip out) in Hs.
    assert (Hstrip : strip out = out)
      by (apply strip_with_length_eq; fold (strip out); lia).
    split; [exact Hstrip|].
    destruct (startswith out FENCE) eqn:Hf; [|reflexivity].
    rewrite Hstrip in Hlt. specialize (Hlt Hf). lia.
  - intros Hf. apply Hback. subst out.
    rewrite (normalize_response_unfenced _ Hf), strip_idem. auto.
Qed.

Lemma C4_normalizer_fixed_points_witness :
  startswith (strip (uq "  {'summary':'x','quiz':[]}  ")) FENCE = false
  /\ normalize_response (normalize_response (uq "  {'summary':'x','quiz':[]}  "))
     = normalize_response (uq "  {'summary':'x','quiz':[]}  ").
Proof.
  split; [reflexivity|].
  apply (proj2 (C4_normalizer_fixed_points (uq "  {'summary':'x','quiz':[]}  "))).
  reflexivity.
Defined.

(** ** The decoder uses up text and never runs out of fuel *)

Section DecoderFacts.

Variable int_max_str_digits : nat.

Local Abbreviation match_number := (Json.match_number int_max_str_digits).
Local Abbreviation scan_once := (Json.scan_once int_max_str_digits).
Local Abbreviation parse_object := (Json.parse_object int_max_str_digits).
Local Abbreviation parse_array := (Json.parse_array int_max_str_digits).

Lemma scan_map_scanned {A B} (f : A -> B) (x : scan A) (b : B) (r : str) :
  scan_map f x = Scanned b r -> exists a, x = Scanned a r /\ b = f a.
Proof.
  destruct x as [a rest|m k|l]; simpl; try discriminate.
  intros H. injection H as <- <-. exists a. auto.
Qed.

Lemma skip_ws_length (s : str) : length (skip_ws s) <= length s.
Proof. apply lstrip_with_length. Qed.

Lemma scanstring_length (n : nat) :
  forall (s : str) (begin : nat) (v r : str),
    length s <= n -> scanstring begin s = Scanned v r -> length r < length s.
Proof.
  induction n as [|n IH]; intros s begin v r Hn H.
  - destruct s; [discriminate H | simpl in Hn; lia].
  - destruct s as [|c s1]; [discriminate H|].
    simpl in Hn. cbn [scanstring] in H.
    assert (Hrec : forall (t : str) (x : char),
               length t <= n ->
               scan_map (cons x) (scanstring begin t) = Scanned v r ->
               length r < length t).
    { intros t x Ht Hx. apply scan_map_scanned in Hx.
      destruct Hx as [a [Hx _]]. eapply IH; eauto. }
    destruct (c =? QUOTE)%N.
    { injection H as <- <-. simpl. lia. }
    destruct (c =? BACKSLASH)%N.
    2:{ destruct (c <=? 31)%N; [discriminate H|].
        apply (Hrec s1) in H; simpl; lia. }
    destruct s1 as [|e s2]; [discriminate H|].
    destruct (e =? 117)%N.
    2:{ destruct (simple_escape e); [|discriminate H].
        apply (Hrec s2) in H; simpl in *; lia. }
    destruct s2 as [|h1 [|h2 [|h3 [|h4 s3]]]]; try discriminate H.
    destruct s3 as [|x0 s4]; [discriminate H|].
    destruct (hex4 h1 h2 h3 h4) as [c1|]; [|discriminate H].
    assert (Hsingle : scan_map (cons c1) (scanstring begin (x0 :: s4)) = Scanned v r ->
                      length r < length (c :: e :: h1 :: h2 :: h3 :: h4 :: x0 :: s4)).
    { intros Hx. apply Hrec in Hx; simpl in *; lia. }
    destruct (is_high_surrogate c1); [|auto].
    destruct s4 as [|v0 [|g1 [|g2 [|g3 [|g4 s5]]]]]; auto.
    destruct s5 as [|y0 s6]; auto.
    destruct ((x0 =? BACKSLASH)%N && (v0 =? 117)%N); auto.
    destruct (hex4 g1 g2 g3 g4) as [c2|]; [|discriminate H].
    destruct (is_low_surrogate c2); auto.
    apply Hrec in H; simpl in *; lia.
Qed.

Lemma span_digits_length (s : str) :
  length (snd (span_digits s)) <= length s.
Proof.
  induction s as [|c r IH]; simpl; [lia|].
  destruct (isdigit c); simpl; [|lia].
  destruct (span_digits r); simpl in *. lia.
Qed.

Lemma match_number_length (s : str) (v : json) (r : str) :
  match_number s = Some (Scanned v r) -> length r < length s.
Proof.
  unfold Json.match_number.
  set (start := match s with
                | [] => (false, s)
                | c :: r0 => if (c =? MINUS)%N then (true, r0) else (false, s)
                end).
  assert (Hs1 : length (snd start) <= length s).
  { subst start. destruct s as [|c r0]; simpl; [lia|].
    destruct (c =? MINUS)%N; simpl; lia. }
  destruct start as [neg s1]. simpl in Hs1.
  destruct s1 as [|c r1]; [discriminate|].
  set (ip := if ((49 <=? c)%N && (c <=? 57)%N)%bool
             then let (ds, r') := span_digits r1 in Some (c :: ds, r')
             else if (c =? 48)%N then Some ([c], r1) else None).
  assert (Hip : forall ds s2, ip = Some (ds, s2) -> length s2 <= length r1).
  { subst ip. intros ds s2.
    destruct ((49 <=? c)%N && (c <=? 57)%N)%bool.
    - pose proof (span_digits_length r1) as Hl.
      destruct (span_digits r1). simpl in Hl.
      intros H. injection H as <- <-. exact Hl.
    - destruct (c =? 48)%N; [|discriminate].
      intros H. injection H as <- <-. lia. }
  destruct ip as [[ds s2]|]; [|discriminate].
  specialize (Hip ds s2 eq_refl).
  set (fr := match s2 with
             | d0 :: d1 :: r0 =>
                 if ((d0 =? DOT)%N && isdigit d1)%bool
                 then let (fs, r') := span_digits r0 in (d0 :: d1 :: fs, r')
                 else ([], s2)
             | _ => ([], s2)
             end).
  assert (Hfr : length (snd fr) <= length s2).
  { subst fr. destruct s2 as [|d0 [|d1 r0]]; simpl; try lia.
    destruct ((d0 =? DOT)%N && isdigit d1)%bool; simpl; [|lia].
    pose proof (span_digits_length r0) as Hl.
    destruct (span_digits r0). simpl in *. lia. }
  destruct fr as [frac s3]. simpl in Hfr.
  set (ex := match s3 with
             | [] => ([], s3)
             | e :: r0 =>
                 if ((e =? 101)%N || (e =? 69)%N)%bool
                 then
                   let '(sg, r2) :=
                     match r0 with
                     | c0 :: (_ :: _) as r' =>
                         if ((c0 =? MINUS)%N || (c0 =? PLUS)%N)%bool
                         then ([c0], r') else ([], r0)
                     | _ => ([], r0)
                     end in
                   let (es, r3) := span_digits r2 in
                   match es with
                   | [] => ([], s3)
                   | _ :: _ => (e :: sg ++ es, r3)
                   end
                 else ([], s3)
             end).
  assert (Hex : length (snd ex) <= length s3).
  { subst ex. destruct s3 as [|e r0]; simpl; [lia|].
    destruct ((e =? 101)%N || (e =? 69)%N)%bool; simpl; [|lia].
    set (sgn := match r0 with
                | c0 :: (_ :: _) as r' =>
                    if ((c0 =? MINUS)%N || (c0 =? PLUS)%N)%bool
                    then ([c0], r') else ([], r0)
                | _ => ([], r0)
                end).
    assert (Hsg : length (snd sgn) <= length r0).
    { subst sgn. destruct r0 as [|c0 [|c1 r2]]; simpl; try lia.
      destruct ((c0 =? MINUS)%N || (c0 =? PLUS)%N)%bool; simpl; lia. }
    destruct sgn as [sg r2]. simpl in Hsg.
    pose proof (span_digits_length r2) as Hl.
    destruct (span_digits r2) as [es r3]. simpl in Hl.
    destruct es; simpl; lia. }
  destruct ex as [ex s4]. simpl in Hex.
  simpl in Hs1.
  destruct frac, ex;
    try destruct (exceeds_int_max_str_digits int_max_str_digits (length ds));
    intros H; try discriminate H; injection H as <- <-; lia.
Qed.

Lemma startswith_length (s lit : str) :
  startswith s lit = true -> length lit <= length s.
Proof.
  revert s. induction lit as [|p ps IH]; intros s; simpl; [lia|].
  destruct s as [|c cs]; [discriminate|].
  intros H. apply andb_true_iff in H. destruct H as [_ H].
  apply IH in H. simpl. lia.
Qed.

Lemma skipn_constant_length (k : nat) (s lit : str) :
  startswith s lit = true -> length lit = k -> 0 < k ->
  length (skipn k s) < length s.
Proof.
  intros H Hk Hpos. apply startswith_length in H.
  rewrite length_skipn. lia.
Qed.

Ltac scan_cases :=
  repeat match goal with
  | |- context [if ?b then _ else _] => destruct b eqn:?
  | |- context [match skip_ws ?x with _ => _ end] =>
      let H := fresh "Hws" in
      pose proof (skip_ws_length x) as H; destruct (skip_ws x) eqn:?; simpl in H
  | |- context [match scanstring ?b ?x with _ => _ end] =>
      destruct (scanstring b x) eqn:?
  | |- context [match match_number ?x with _ => _ end] =>
      destruct (match_number x) as [[? ?|? ?|?]|] eqn:?
  | |- context [match ?d with O => _ | S _ => _ end] =>
      is_var d; destruct d
  end.

Ltac scan_lengths :=
  repeat match goal with
  | H : scanstring _ _ = Scanned _ _ |- _ =>
      eapply scanstring_length in H; [|apply le_n]
  | H : scan_map _ (scanstring _ _) = Scanned _ _ |- _ =>
      apply scan_map_scanned in H; destruct H as [? [H _]]
  | H : match_number _ = Some (Scanned _ _) |- _ =>
      apply match_number_length in H
  | H : startswith ?s (u ?lit) = true |- _ =>
      apply startswith_length in H; simpl in H
  end.

Lemma uses_text_fail {A} (s : str) (m : errmsg) (k : nat) :
  uses_text s (Some (@Fail A m k)).
Proof. intros v r H. discriminate H. Qed.

Lemma uses_text_exceeded {A} (s : str) (l : limit) :
  uses_text s (Some (@Exceeded A l)).
Proof. intros v r H. discriminate H. Qed.

Lemma uses_text_none {A} (s : str) : uses_text s (@None (scan A)).
Proof. intros v r H. discriminate H. Qed.

Lemma uses_text_scanned {A} (s : str) (a : A) (r : str) :
  length r < length s -> uses_text s (Some (Scanned a r)).
Proof. intros Hl v r' H. injection H as _ <-. exact Hl. Qed.

Lemma uses_text_weaken {A} (s s' : str) (o : option (scan A)) :
  uses_text s' o -> length s' <= length s -> uses_text s o.
Proof. intros H Hl v r E. apply H in E. lia. Qed.

Lemma uses_text_string {B} (f : str -> B) (begin : nat) (c : char) (s : str) :
  uses_text (c :: s) (Some (scan_map f (scanstring begin s))).
Proof.
  intros v r H. injection H as H. apply scan_map_scanned in H.
  destruct H as [a [H _]].
  eapply scanstring_length in H; [|apply le_n]. simpl. lia.
Qed.

Lemma scan_fuel_invariant (f : nat) :
  (forall d s, uses_text s (scan_once f d s)
               /\ (2 * length s < f -> scan_once f d s <> None))
  /\ (forall d s acc, uses_text s (parse_object f d s acc)
                      /\ (2 * length s < f -> parse_object f d s acc <> None))
  /\ (forall d s acc, uses_text s (parse_array f d s acc)
                      /\ (2 * length s + 1 < f -> parse_array f d s acc <> None)).
Proof.
  induction f as [|f [IHs [IHo IHa]]].
  - repeat split; try apply uses_text_none; simpl; lia.
  - split; [|split].
    + intros d s. split.
      * destruct s as [|c s1]; [apply uses_text_fail|].
        cbn [Json.scan_once]. scan_cases; scan_lengths;
          try apply uses_text_fail; try apply uses_text_exceeded;
          try apply uses_text_string;
          try (apply uses_text_scanned; rewrite ?length_skipn;
               cbn [length] in *; lia).
        all: eapply uses_text_weaken;
          [ first [ apply (proj1 (IHo _ _ _)) | apply (proj1 (IHa _ _ _)) ]
          | cbn [length] in *; lia ].
      * intros Hf. destruct s as [|c s1]; [discriminate|].
        cbn [Json.scan_once]. cbn [length] in Hf. scan_cases; try discriminate.
        all: first [ apply (proj2 (IHo _ _ _)) | apply (proj2 (IHa _ _ _)) ];
          cbn [length] in *; lia.
    + intros d s acc. split.
      * destruct s as [|c s1]; [apply uses_text_fail|].
        cbn [Json.parse_object]. scan_cases; try apply uses_text_fail;
          try apply uses_text_exceeded.
        all: match goal with
             | |- context [Json.scan_once _ ?g ?e (skip_ws ?x)] =>
                 pose proof (proj1 (IHs e (skip_ws x))) as Hv;
                 pose proof (skip_ws_length x) as Hx;
                 destruct (Json.scan_once int_max_str_digits g e (skip_ws x))
                   as [[v3 r3|m k|l]|]
             end;
             try apply uses_text_fail; try apply uses_text_exceeded;
             try apply uses_text_none.
        all: specialize (Hv _ _ eq_refl).
        all: scan_cases; scan_lengths; try apply uses_text_fail;
          try (apply uses_text_scanned; cbn [length] in *; lia).
        all: match goal with
             | |- context [Json.parse_object _ _ _ (skip_ws ?x)] =>
                 pose proof (skip_ws_length x)
             end.
        all: eapply uses_text_weaken;
          [ apply (proj1 (IHo _ _ _)) | cbn [length] in *; lia ].
      * intros Hf. destruct s as [|c s1]; [discriminate|].
        cbn [Json.parse_object]. cbn [length] in Hf.
        scan_cases; try discriminate.
        all: match goal with
             | |- context [Json.scan_once _ ?g ?e (skip_ws ?x)] =>
                 pose proof (proj1 (IHs e (skip_ws x))) as Hv;
                 pose proof (proj2 (IHs e (skip_ws x))) as Hn;
                 pose proof (skip_ws_length x) as Hx;
                 destruct (Json.scan_once int_max_str_digits g e (skip_ws x))
                   as [[v3 r3|m k|l]|]
             end; try discriminate.
        all: scan_lengths.
        all: try (exfalso; apply Hn; [cbn [length] in *; lia | reflexivity]).
        all: specialize (Hv _ _ eq_refl).
        all: scan_cases; try discriminate.
        all: match goal with
             | |- context [Json.parse_object _ _ _ (skip_ws ?x)] =>
                 pose proof (skip_ws_length x)
             end.
        all: apply (proj2 (IHo _ _ _)); cbn [length] in *; lia.
    + intros d s acc. split.
      * cbn [Json.parse_array].
        pose proof (proj1 (IHs d s)) as Hv.
        destruct (Json.scan_once int_max_str_digits f d s) as [[v3 r3|m k|l]|];
          try apply uses_text_fail; try apply uses_text_exceeded;
          try apply uses_text_none.
        specialize (Hv _ _ eq_refl).
        scan_cases; try apply uses_text_fail;
          try (apply uses_text_scanned; cbn [length] in *; lia).
        match goal with
        | |- context [Json.parse_array _ _ _ (skip_ws ?x)] =>
            pose proof (skip_ws_length x)
        end.
        eapply uses_text_weaken;
          [ apply (proj1 (IHa _ _ _)) | cbn [length] in *; lia ].
      * intros Hf. cbn [Json.parse_array].
        pose proof (proj1 (IHs d s)) as Hv.
        pose proof (proj2 (IHs d s)) as Hn.
        destruct (Json.scan_once int_max_str_digits f d s) as [[v3 r3|m k|l]|];
          try discriminate.
        -- specialize (Hv _ _ eq_refl).
           scan_cases; try discriminate.
           match goal with
           | |- context [Json.parse_array _ _ _ (skip_ws ?x)] =>
               pose proof (skip_ws_length x)
           end.
           apply (proj2 (IHa _ _ _)); cbn [length] in *; lia.
        -- exfalso. apply Hn; [lia | reflexivity].
Qed.

(** [json_loads] gives the decoder enough fuel. *)
Lemma scan_once_fuel (d : nat) (s : str) :
  scan_once (S (2 * length s)) d (skip_ws s) <> None.
Proof.
  apply (proj2 (proj1 (scan_fuel_invariant _) _ _)).
  pose proof (skip_ws_length s). lia.
Qed.

End DecoderFacts.

(** ** Validation *)

Section Properties.

Variable float_as_int : str -> result error_type Z.
Variable str_as_int : str -> result error_type Z.
Variable int_max_str_digits : nat.
Variable recursion_depth : nat.
Variable generate_content : list Byte.byte -> prompt -> response.
Variable httpx_get : str -> http_response.

Local Abbreviation match_number := (Json.match_number int_max_str_digits).
Local Abbreviation scan_once := (Json.scan_once int_max_str_digits).
Local Abbreviation parse_object := (Json.parse_object int_max_str_digits).
Local Abbreviation parse_array := (Json.parse_array int_max_str_digits).
Local Abbreviation json_loads :=
  (Json.json_loads int_max_str_digits recursion_depth).
Local Abbreviation validate_int :=
  (Pydantic.validate_int float_as_int str_as_int).
Local Abbreviation validate_QuizItem :=
  (Pydantic.validate_QuizItem float_as_int str_as_int).
Local Abbreviation parse_obj := (Pydantic.parse_obj float_as_int str_as_int).
Local Abbreviation int_value := (int_value float_as_int str_as_int).
Local Abbreviation int_refused := (int_refused float_as_int str_as_int).
Local Abbreviation item_conforms := (item_conforms float_as_int str_as_int).
Local Abbreviation conforms := (conforms float_as_int str_as_int).
Local Abbreviation item_refused := (item_refused float_as_int str_as_int).
Local Abbreviation refused := (refused float_as_int str_as_int).
Local Abbreviation _download_pdf := (Pipeline._download_pdf httpx_get).
Local Abbreviation summarize_pdf_from_url :=
  (Pipeline.summarize_pdf_from_url generate_content httpx_get).
Local Abbreviation extract_summary_with_quiz :=
  (Pipeline.extract_summary_with_quiz float_as_int str_as_int
     int_max_str_digits recursion_depth).
Local Abbreviation summarize_and_quiz_pdf_bytes :=
  (Pipeline.summarize_and_quiz_pdf_bytes float_as_int str_as_int
     int_max_str_digits recursion_depth generate_content).
Local Abbreviation summarize_and_quiz_pdf_from_url :=
  (Pipeline.summarize_and_quiz_pdf_from_url float_as_int str_as_int
     int_max_str_digits recursion_depth generate_content httpx_get).

Lemma validate_items_return {A} (validate : json -> validated A) :
  forall (vs : list json) (k : nat) (l : list A),
    validate_items validate k vs = Return l
    <-> Forall2 (fun v a => validate v = Return a) vs l.
Proof.
  induction vs as [|v vs IH]; intros k l; simpl.
  - split.
    + intros H. injection H as <-. constructor.
    + intros H. inversion H. reflexivity.
  - split.
    + destruct (validate v) as [a|e] eqn:Hv;
        destruct (validate_items validate (S k) vs) as [l'|e'] eqn:Hr;
        try discriminate.
      intros H. injection H as <-. constructor; [exact Hv|].
      apply (IH (S k)). exact Hr.
    + intros H. inversion H as [|v' a vs' l' Hv Hr]; subst.
      rewrite Hv. apply (IH (S k)) in Hr. rewrite Hr. reflexivity.
Qed.

(** A failing element is reported under its index. *)
Lemma validate_items_raise {A} (validate : json -> validated A) :
  forall (vs : list json) (k i : nat) (v : json) (ev : ValidationError),
    nth_error vs i = Some v -> validate v = Raise ev ->
    exists e, validate_items validate k vs = Raise e
              /\ incl (under (Index (k + i)) ev) e.
Proof.
  induction vs as [|v0 vs IH]; intros k i v ev Hn Hv.
  - destruct i; discriminate Hn.
  - destruct i as [|i]; simpl in Hn.
    + injection Hn as ->. simpl. rewrite Hv, Nat.add_0_r.
      destruct (validate_items validate (S k) vs) as [l'|e'].
      * eexists. split; [reflexivity | apply incl_refl].
      * eexists. split; [reflexivity | apply incl_appl, incl_refl].
    + destruct (IH (S k) i v ev Hn Hv) as [e [He Hi]].
      simpl. rewrite He.
      replace (k + S i) with (S k + i) by lia.
      destruct (validate v0) as [a|e0].
      * eexists. split; [reflexivity | exact Hi].
      * eexists. split; [reflexivity | apply incl_appr, Hi].
Qed.

Lemma validate_str_items (l : list str) (k : nat) :
  validate_items validate_str k (List.map JStr l) = Return l.
Proof.
  apply validate_items_return. induction l; simpl; constructor; auto.
Qed.

Lemma validate_QuizItem_object (q : QuizItem) (v : json) :
  item_value q v -> validate_QuizItem v = Return q.
Proof.
  intros [d [-> [Hq [Hc [Hi He]]]]].
  unfold Pydantic.validate_QuizItem, required, with_default.
  rewrite Hq, Hc, Hi. simpl. rewrite validate_str_items.
  destruct q as [qq qc qi [e|]]; simpl in *.
  - rewrite He. reflexivity.
  - destruct He as [He|He]; rewrite He; reflexivity.
Qed.

(** A well-formed object is accepted as it stands: no field is compared
    with another, with a length or with a range. *)
Lemma parse_obj_object (d : dict) (s : str) (items : list json)
    (qs : list QuizItem) :
  dict_get (u "summary") d = Some (JStr s) ->
  dict_get (u "quiz") d = Some (JList items) ->
  Forall2 (fun v q => item_value q v) items qs ->
  parse_obj (JDict d) = Return {| summary := s; quiz := qs |}.
Proof.
  intros Hs Hq Hitems.
  unfold Pydantic.parse_obj, required. rewrite Hs, Hq. simpl.
  assert (Hv : validate_items validate_QuizItem 0 items = Return qs).
  { apply validate_items_return.
    eapply Forall2_impl; [|exact Hitems].
    intros v q Hvq. apply validate_QuizItem_object. exact Hvq. }
  rewrite Hv. reflexivity.
Qed.

Lemma both_return {A B} (ra : validated A) (rb : validated B) (a : A) (b : B) :
  both ra rb = Return (a, b) -> ra = Return a /\ rb = Return b.
Proof.
  destruct ra, rb; simpl; try discriminate.
  intros H. injection H as <- <-. auto.
Qed.

Lemma required_return {A} (name : str) (validate : json -> validated A)
    (d : dict) (a : A) :
  required name validate d = Return a ->
  exists v, dict_get name d = Some v /\ validate v = Return a.
Proof.
  unfold required. destruct (dict_get name d) as [v|]; [|discriminate].
  destruct (validate v) as [a'|e] eqn:Hv; [|discriminate].
  intros H. injection H as <-. exists v. auto.
Qed.

Lemma validate_str_return (v : json) (s : str) :
  validate_str v = Return s -> v = JStr s.
Proof.
  destruct v; try discriminate. intros H. injection H as <-. reflexivity.
Qed.

Lemma validate_list_return {A} (validate : json -> validated A) (v : json)
    (l : list A) :
  validate_list validate v = Return l ->
  exists vs, v = JList vs /\ Forall2 (fun x a => validate x = Return a) vs l.
Proof.
  destruct v; try discriminate. simpl. intros H.
  apply validate_items_return in H. eauto.
Qed.

(** What an accepted value was made from. *)
Lemma parse_obj_return (data : json) (r : PdfSummaryWithQuiz) :
  parse_obj data = Return r ->
  exists d items,
    data = JDict d
    /\ dict_get (u "summary") d = Some (JStr (summary r))
    /\ dict_get (u "quiz") d = Some (JList items)
    /\ Forall2 (fun v q => validate_QuizItem v = Return q) items (quiz r).
Proof.
  destruct data as [| | | | |l|d]; try discriminate.
  unfold Pydantic.parse_obj.
  destruct (both _ _) as [[s q]|e] eqn:Hb; [|discriminate].
  intros H. injection H as <-. simpl.
  apply both_return in Hb. destruct Hb as [Hs Hq].
  apply required_return in Hs. destruct Hs as [vs [Hs Hvs]].
  apply required_return in Hq. destruct Hq as [vq [Hq Hvq]].
  apply validate_str_return in Hvs. subst vs.
  apply validate_list_return in Hvq. destruct Hvq as [items [-> Hitems]].
  exists d, items. auto.
Qed.

Lemma validate_QuizItem_return (v : json) (q : QuizItem) :
  validate_QuizItem v = Return q ->
  exists d cs,
    v = JDict d
    /\ dict_get (u "question") d = Some (JStr (question q))
    /\ dict_get (u "choices") d = Some (JList cs)
    /\ Forall2 (fun c s => c = JStr s) cs (choices q)
    /\ (forall i, dict_get (u "correct_index") d = Some (JInt i) ->
                  correct_index q = i).
Proof.
  destruct v as [| | | | |l|d]; try discriminate.
  unfold Pydantic.validate_QuizItem.
  destruct (both _ _) as [[sq [lc [zi oe]]]|e] eqn:Hb; [|discriminate].
  intros H. injection H as <-. simpl.
  apply both_return in Hb. destruct Hb as [Hq Hb].
  apply both_return in Hb. destruct Hb as [Hc Hb].
  apply both_return in Hb. destruct Hb as [Hi _].
  apply required_return in Hq. destruct Hq as [vq [Hq Hvq]].
  apply required_return in Hc. destruct Hc as [vc [Hc Hvc]].
  apply required_return in Hi. destruct Hi as [vi [Hi Hvi]].
  apply validate_str_return in Hvq. subst vq.
  apply validate_list_return in Hvc. destruct Hvc as [cs [-> Hcs]].
  exists d, cs. split; [reflexivity|]. split; [exact Hq|].
  split; [exact Hc|]. split.
  - eapply Forall2_impl; [|exact Hcs].
    intros c s Hs. apply validate_str_return. exact Hs.
  - intros i Hvi'. rewrite Hvi' in Hi. injection Hi as <-.
    simpl in Hvi. injection Hvi as ->. reflexivity.
Qed.

(** A missing required key is reported by name. *)
Lemma required_missing {A} (name : str) (validate : json -> validated A)
    (d : dict) :
  dict_get name d = None ->
  required name validate d
  = Raise [{| type := missing; loc := [Field name]; input := JDict d |}].
Proof. unfold required. intros ->. reflexivity. Qed.

Lemma required_raise {A} (name : str) (validate : json -> validated A)
    (d : dict) (v : json) (e : ValidationError) :
  dict_get name d = Some v -> validate v = Raise e ->
  required name validate d = Raise (under (Field name) e).
Proof. unfold required. intros -> ->. reflexivity. Qed.

Lemma both_raise_l {A B} (ra : validated A) (rb : validated B)
    (e : ValidationError) :
  ra = Raise e -> exists e', both ra rb = Raise e' /\ incl e e'.
Proof.
  intros ->. destruct rb; simpl; eexists; split; try reflexivity.
  - apply incl_refl.
  - apply incl_appl, incl_refl.
Qed.

Lemma both_raise_r {A B} (ra : validated A) (rb : validated B)
    (e : ValidationError) :
  rb = Raise e -> exists e', both ra rb = Raise e' /\ incl e e'.
Proof.
  intros ->. destruct ra; simpl; eexists; split; try reflexivity.
  - apply incl_refl.
  - apply incl_appr, incl_refl.
Qed.

(** ** The entry points *)

(** The tool of [server.py] is the function of [main.py] behind the
    download. *)
Lemma from_url_after_download (pdf_url : str) (pdf_bytes : list Byte.byte)
    (num_questions : Z) :
  _download_pdf pdf_url = Return pdf_bytes ->
  summarize_and_quiz_pdf_from_url pdf_url num_questions
  = summarize_and_quiz_pdf_bytes pdf_bytes num_questions.
Proof.
  unfold Pipeline.summarize_and_quiz_pdf_from_url, Pipeline.summarize_and_quiz_pdf_bytes.
  intros ->. reflexivity.
Qed.

(** C8: when the fetch raises (no connection, timeout, ...) or answers
    with a status outside 200..299, [_download_pdf] raises the download
    failure, which holds the URL that was fetched (the argument, trimmed)
    and the underlying error; it raises nothing else, and both tools pass
    the failure on unchanged. *)
Theorem C8_download_failure (pdf_url : str) :
  (forall e, httpx_get (strip pdf_url) = HttpRaises e ->
     _download_pdf pdf_url = Raise (DownloadFailure (strip pdf_url) e))
  /\ (forall status_code content,
        httpx_get (strip pdf_url) = HttpResponse status_code content ->
        is_success status_code = false ->
        _download_pdf pdf_url
        = Raise (DownloadFailure (strip pdf_url) (HTTPStatusError status_code)))
  /\ (forall err, _download_pdf pdf_url = Raise err ->
        (exists cause, err = DownloadFailure (strip pdf_url) cause)
        /\ (forall prompt_text, summarize_pdf_from_url pdf_url prompt_text = Raise err)
        /\ (forall n, summarize_and_quiz_pdf_from_url pdf_url n = Raise err)).
Proof.
  unfold Pipeline._download_pdf.
  split; [|split].
  - intros e ->. reflexivity.
  - intros status_code content -> ->. reflexivity.
  - intros err Herr.
    unfold Pipeline.summarize_pdf_from_url, Pipeline.summarize_and_quiz_pdf_from_url,
      Pipeline._download_pdf.
    destruct (httpx_get (strip pdf_url)) as [e|status_code content].
    + injection Herr as <-. split; [eauto|]. split; reflexivity.
    + destruct (is_success status_code); [discriminate|].
      injection Herr as <-. split; [eauto|]. split; reflexivity.
Qed.

(** C10: the summary tool returns the text of the response as it is, for
    every text: the summary field is that text, untrimmed, unparsed and
    unchecked. *)
Theorem C10_summary_verbatim (pdf_url prompt_text : str)
    (pdf_bytes : list Byte.byte) (text : str) :
  _download_pdf pdf_url = Return pdf_bytes ->
  generate_content pdf_bytes (UserPrompt prompt_text) = Text (Some text) ->
  summarize_pdf_from_url pdf_url prompt_text
  = Return {| summary_text := text |}.
Proof.
  unfold Pipeline.summarize_pdf_from_url. intros -> ->. reflexivity.
Qed.

(** What the pipeline makes of the three outcomes of [json.loads]. *)
Lemma extract_of_loads (text : str) :
  extract_summary_with_quiz (Text (Some text))
  = match json_loads (normalize_response text) with
    | Raise (Malformed e) =>
        Raise (MalformedResponse e (slice_to 300 (normalize_response text)))
    | Raise (LimitExceeded l) => Raise (GenerationFailure (exception_of_limit l))
    | Return data =>
        match parse_obj data with
        | Raise e => Raise (SchemaViolation e data)
        | Return result => Return result
        end
    end.
Proof. reflexivity. Qed.

(** C5, amended: when [json.loads] rejects the normalized text with a
    [JSONDecodeError], both entry points raise the malformed-response
    error, and they raise it in no other case; it holds the decoder's
    error and the first 300 characters of the normalized text: the whole
    text when it has no more than 300 characters, a shorter prefix
    otherwise.  When [json.loads] stops at a limit of the interpreter
    (nesting beyond the recursion limit, an integer of too many digits),
    the error is the generation failure. *)
Theorem C5_malformed_response (pdf_bytes : list Byte.byte) (n : Z)
    (text : str) :
  generate_content pdf_bytes (QuizPrompt n) = Text (Some text) ->
  let raw_text := normalize_response text in
  let snippet := slice_to 300 raw_text in
  (forall e, json_loads raw_text = Raise (Malformed e) ->
     summarize_and_quiz_pdf_bytes pdf_bytes n = Raise (MalformedResponse e snippet)
     /\ (forall pdf_url, _download_pdf pdf_url = Return pdf_bytes ->
           summarize_and_quiz_pdf_from_url pdf_url n
           = Raise (MalformedResponse e snippet)))
  /\ (forall l, json_loads raw_text = Raise (LimitExceeded l) ->
        summarize_and_quiz_pdf_bytes pdf_bytes n
        = Raise (GenerationFailure (exception_of_limit l))
        /\ (forall pdf_url, _download_pdf pdf_url = Return pdf_bytes ->
              summarize_and_quiz_pdf_from_url pdf_url n
              = Raise (GenerationFailure (exception_of_limit l))))
  /\ (forall e s,
        summarize_and_quiz_pdf_bytes pdf_bytes n = Raise (MalformedResponse e s) ->
        json_loads raw_text = Raise (Malformed e) /\ s = snippet)
  /\ length snippet = Nat.min 300 (length raw_text)
  /\ raw_text = snippet ++ slice_from 300 raw_text
  /\ (length raw_text <= 300 -> snippet = raw_text)
  /\ (300 < length raw_text -> length snippet < length raw_text).
Proof.
  intros Hgen raw_text snippet.
  assert (Hrun : summarize_and_quiz_pdf_bytes pdf_bytes n
                 = extract_summary_with_quiz (Text (Some text))).
  { unfold Pipeline.summarize_and_quiz_pdf_bytes. rewrite Hgen. reflexivity. }
  rewrite Hrun, extract_of_loads. fold raw_text. fold snippet.
  assert (Hurl : forall pdf_url out,
             _download_pdf pdf_url = Return pdf_bytes ->
             extract_summary_with_quiz (Text (Some text)) = out ->
             summarize_and_quiz_pdf_from_url pdf_url n = out).
  { intros pdf_url out Hd <-.
    erewrite from_url_after_download by eassumption. exact Hrun. }
  split; [|split; [|split]].
  - intros e He. rewrite He. split; [reflexivity|].
    intros pdf_url Hd. apply (Hurl _ _ Hd). rewrite extract_of_loads.
    fold raw_text. rewrite He. reflexivity.
  - intros l Hl. rewrite Hl. split; [reflexivity|].
    intros pdf_url Hd. apply (Hurl _ _ Hd). rewrite extract_of_loads.
    fold raw_text. rewrite Hl. reflexivity.
  - intros e s. destruct (json_loads raw_text) as [data|[e'|l]].
    + destruct (parse_obj data); discriminate.
    + intros H. injection H as <- <-. split; reflexivity.
    + discriminate.
  - subst snippet. unfold slice_to, slice_from.
    split; [apply length_firstn|].
    split; [symmetry; apply firstn_skipn|].
    split.
    + intros Hlen. apply firstn_all2, Hlen.
    + intros Hlen. rewrite length_firstn. lia.
Qed.

(** *** The entries of a validation error *)

Lemma errors_of_both {A B} (ra : validated A) (rb : validated B) :
  errors_of (both ra rb) = errors_of ra ++ errors_of rb.
Proof. destruct ra, rb; simpl; rewrite ?app_nil_r; reflexivity. Qed.

Lemma errors_of_required {A} (name : str) (validate : json -> validated A)
    (d : dict) :
  errors_of (required name validate d)
  = match dict_get name d with
    | None => [{| type := missing; loc := [Field name]; input := JDict d |}]
    | Some v => under (Field name) (errors_of (validate v))
    end.
Proof.
  unfold required. destruct (dict_get name d) as [v|]; [|reflexivity].
  destruct (validate v); reflexivity.
Qed.

Lemma errors_of_with_default {A} (name : str) (default : A)
    (validate : json -> validated A) (d : dict) :
  errors_of (with_default name default validate d)
  = match dict_get name d with
    | None => []
    | Some v => under (Field name) (errors_of (validate v))
    end.
Proof.
  unfold with_default. destruct (dict_get name d) as [v|]; [|reflexivity].
  destruct (validate v); reflexivity.
Qed.

Lemma errors_of_items {A} (validate : json -> validated A) (v : json)
    (vs : list json) (k : nat) :
  errors_of (validate_items validate k (v :: vs))
  = under (Index k) (errors_of (validate v))
    ++ errors_of (validate_items validate (S k) vs).
Proof.
  cbn [validate_items].
  destruct (validate v), (validate_items validate (S k) vs); simpl;
    rewrite ?app_nil_r; reflexivity.
Qed.

Lemma in_under_iff (l : loc_item) (x : ErrorDetails) (e : ValidationError) :
  In x (under l e)
  <-> exists y, In y e
                /\ x = {| type := type y; loc := l :: loc y; input := input y |}.
Proof.
  unfold under. rewrite in_map_iff. split; intros [y [H1 H2]]; eauto.
Qed.

(** The entries for a list: those of its elements, each under its index. *)
Lemma in_errors_of_items {A} (validate : json -> validated A)
    (x : ErrorDetails) :
  forall (vs : list json) (k : nat),
    In x (errors_of (validate_items validate k vs))
    <-> exists i v y,
          nth_error vs i = Some v /\ In y (errors_of (validate v))
          /\ x = {| type := type y; loc := Index (k + i) :: loc y;
                    input := input y |}.
Proof.
  induction vs as [|v vs IH]; intros k.
  - split; [intros []|]. intros [i [v [y [H _]]]]. destruct i; discriminate H.
  - rewrite errors_of_items, in_app_iff, in_under_iff, IH. split.
    + intros [[y [Hy ->]]|[i [v' [y [Hn [Hy ->]]]]]].
      * exists 0, v, y. rewrite Nat.add_0_r. auto.
      * exists (S i), v', y. replace (k + S i) with (S k + i) by lia. auto.
    + intros [[|i] [v' [y [Hn [Hy ->]]]]].
      * left. injection Hn as <-. exists y. rewrite Nat.add_0_r. auto.
      * right. exists i, v', y.
        replace (k + S i) with (S k + i) by lia. auto.
Qed.

(** A raised validation error has an entry. *)
Definition has_entry {A} (r : validated A) : Prop :=
  match r with
  | Raise [] => False
  | _ => True
  end.

Lemma has_entry_errors {A} (r : validated A) :
  has_entry r -> (exists a, r = Return a) \/ errors_of r <> [].
Proof.
  destruct r as [a|[|x e]]; simpl; intros H; [eauto|destruct H|].
  right. discriminate.
Qed.

Lemma has_entry_both {A B} (ra : validated A) (rb : validated B) :
  has_entry ra -> has_entry rb -> has_entry (both ra rb).
Proof.
  destruct ra as [a|[|x e]], rb as [b|[|y e']]; simpl; auto.
Qed.

Lemma has_entry_required {A} (name : str) (validate : json -> validated A)
    (d : dict) :
  (forall v, has_entry (validate v)) -> has_entry (required name validate d).
Proof.
  intros H. unfold required. destruct (dict_get name d) as [v|]; [|exact I].
  specialize (H v). destruct (validate v) as [a|[|x e]]; simpl; auto.
Qed.

Lemma has_entry_with_default {A} (name : str) (default : A)
    (validate : json -> validated A) (d : dict) :
  (forall v, has_entry (validate v)) ->
  has_entry (with_default name default validate d).
Proof.
  intros H. unfold with_default. destruct (dict_get name d) as [v|]; [|exact I].
  specialize (H v). destruct (validate v) as [a|[|x e]]; simpl; auto.
Qed.

Lemma has_entry_items {A} (validate : json -> validated A) :
  (forall v, has_entry (validate v)) ->
  forall vs k, has_entry (validate_items validate k vs).
Proof.
  intros H. induction vs as [|v vs IH]; intros k; [exact I|].
  cbn [validate_items]. specialize (H v). specialize (IH (S k)).
  destruct (validate v) as [a|[|x e]],
    (validate_items validate (S k) vs) as [l|[|y e']]; simpl; auto.
Qed.

Lemma has_entry_list {A} (validate : json -> validated A) (v : json) :
  (forall x, has_entry (validate x)) -> has_entry (validate_list validate v).
Proof.
  intros H. destruct v; try exact I. apply has_entry_items, H.
Qed.

Lemma has_entry_str (v : json) : has_entry (validate_str v).
Proof. destruct v; exact I. Qed.

Lemma has_entry_optional_str (v : json) : has_entry (validate_optional_str v).
Proof. destruct v; exact I. Qed.

Lemma has_entry_int (v : json) : has_entry (validate_int v).
Proof.
  destruct v; try exact I; simpl.
  - destruct (float_as_int literal); exact I.
  - destruct (str_as_int s); exact I.
Qed.

Lemma has_entry_item (v : json) : has_entry (validate_QuizItem v).
Proof.
  destruct v; try exact I. unfold Pydantic.validate_QuizItem.
  match goal with
  | |- has_entry (match ?b with _ => _ end) =>
      assert (Hb : has_entry b); [|destruct b as [[q [c [i e]]]|[|x e]]; auto]
  end.
  repeat apply has_entry_both;
    first [ apply has_entry_required | apply has_entry_with_default ];
    intros x; try apply has_entry_list; intros;
    first [ apply has_entry_str | apply has_entry_int
          | apply has_entry_optional_str ].
Qed.

Lemma has_entry_parse_obj (data : json) : has_entry (parse_obj data).
Proof.
  destruct data; try exact I. unfold Pydantic.parse_obj.
  match goal with
  | |- has_entry (match ?b with _ => _ end) =>
      assert (Hb : has_entry b); [|destruct b as [[s q]|[|x e]]; auto]
  end.
  apply has_entry_both; apply has_entry_required; intros x;
    [apply has_entry_str|apply has_entry_list, has_entry_item].
Qed.

(** *** The validator and the schema *)

Lemma validate_int_value (v : json) (i : Z) :
  validate_int v = Return i <-> int_value v i.
Proof.
  destruct v; simpl; try (split; [discriminate|intros []]).
  - split; [intros H; injection H as <-; reflexivity|intros ->; reflexivity].
  - split; [intros H; injection H as <-; reflexivity|intros ->; reflexivity].
  - destruct (float_as_int literal); split; intros H;
      try discriminate H; try (injection H as <-; reflexivity).
  - destruct (str_as_int s); split; intros H;
      try discriminate H; try (injection H as <-; reflexivity).
Qed.

Lemma in_errors_of_int (v : json) (x : ErrorDetails) :
  In x (errors_of (validate_int v))
  <-> exists t, int_refused v t /\ x = {| type := t; loc := []; input := v |}.
Proof.
  destruct v; simpl;
    try (split; [intros [<-|[]]; eauto | intros [t [-> ->]]; auto]);
    try (split; [intros [] | intros [t [[] _]]]).
  - destruct (float_as_int literal) as [i|t]; simpl.
    + split; [intros []|]. intros [t [H _]]. discriminate H.
    + split; [intros [<-|[]]; eauto|]. intros [t' [H ->]].
      injection H as ->. auto.
  - destruct (str_as_int s) as [i|t]; simpl.
    + split; [intros []|]. intros [t [H _]]. discriminate H.
    + split; [intros [<-|[]]; eauto|]. intros [t' [H ->]].
      injection H as ->. auto.
Qed.

Lemma in_errors_of_str (v : json) (x : ErrorDetails) :
  In x (errors_of (validate_str v))
  <-> not_a_string v /\ x = {| type := string_type; loc := []; input := v |}.
Proof.
  unfold not_a_string.
  destruct v; simpl;
    try (split; [intros [<-|[]]; split; [discriminate|reflexivity]
                | intros [_ ->]; auto]).
  split; [intros []|]. intros [H _]. contradiction (H s). reflexivity.
Qed.

Lemma in_errors_of_optional_str (v : json) (x : ErrorDetails) :
  In x (errors_of (validate_optional_str v))
  <-> v <> JNull /\ not_a_string v
      /\ x = {| type := string_type; loc := []; input := v |}.
Proof.
  unfold not_a_string.
  destruct v; simpl;
    try (split; [intros [<-|[]]; repeat split; discriminate
                | intros [_ [_ ->]]; auto]).
  - split; [intros []|]. intros [H _]. contradiction H. reflexivity.
  - split; [intros []|]. intros [_ [H _]]. contradiction (H s). reflexivity.
Qed.

Lemma in_errors_of_strings (v : json) (x : ErrorDetails) :
  In x (errors_of (validate_list validate_str v))
  <-> ((forall l, v <> JList l)
       /\ x = {| type := list_type; loc := []; input := v |})
      \/ exists l j w,
           v = JList l /\ nth_error l j = Some w /\ not_a_string w
           /\ x = {| type := string_type; loc := [Index j]; input := w |}.
Proof.
  destruct v;
    try (simpl; split;
         [ intros [<-|[]]; left; split; [discriminate|reflexivity]
         | intros [[_ ->]|[l [j [w [H _]]]]]; [auto|discriminate H] ]).
  cbn [validate_list]. rewrite in_errors_of_items. split.
  - intros [i [w [y [Hn [Hy ->]]]]]. apply in_errors_of_str in Hy.
    destruct Hy as [Hw ->]. right. exists items, i, w. auto.
  - intros [[H _]|[l [j [w [E [Hn [Hw ->]]]]]]].
    + contradiction (H items). reflexivity.
    + injection E as <-. exists j, w. eexists. split; [exact Hn|].
      split; [apply in_errors_of_str; split; [exact Hw|reflexivity]|].
      reflexivity.
Qed.

Lemma item_errors (v : json) (x : ErrorDetails) :
  In x (errors_of (validate_QuizItem v)) <-> item_refused v x.
Proof.
  destruct v as [| | | | | |d];
    try (simpl; split;
         [ intros [<-|[]]; apply item_not_an_object; discriminate
         | intros H; inversion H; subst; auto ]).
  assert (Herr : errors_of (validate_QuizItem (JDict d))
                 = errors_of (required (u "question") validate_str d)
                   ++ errors_of (required (u "choices")
                                   (validate_list validate_str) d)
                   ++ errors_of (required (u "correct_index") validate_int d)
                   ++ errors_of (with_default (u "explanation") None
                                   validate_optional_str d)).
  { unfold Pydantic.validate_QuizItem. rewrite <- !errors_of_both.
    destruct (both _ _) as [[q [c [i e]]]|e]; reflexivity. }
  rewrite Herr, !in_app_iff, !errors_of_required, errors_of_with_default.
  split.
  - intros [H|[H|[H|H]]].
    + destruct (dict_get (u "question") d) as [w|] eqn:E.
      * apply in_under_iff in H. destruct H as [y [Hy ->]].
        apply in_errors_of_str in Hy. destruct Hy as [Hw ->].
        apply question_not_a_string; assumption.
      * destruct H as [<-|[]]. apply item_key_missing; [|exact E].
        cbn [In]. auto.
    + destruct (dict_get (u "choices") d) as [w|] eqn:E.
      * apply in_under_iff in H. destruct H as [y [Hy ->]].
        apply in_errors_of_strings in Hy.
        destruct Hy as [[Hw ->]|[l [j [w' [-> [Hn [Hw ->]]]]]]].
        -- apply choices_not_a_list; assumption.
        -- eapply choice_not_a_string; eassumption.
      * destruct H as [<-|[]]. apply item_key_missing; [|exact E].
        cbn [In]. auto.
    + destruct (dict_get (u "correct_index") d) as [w|] eqn:E.
      * apply in_under_iff in H. destruct H as [y [Hy ->]].
        apply in_errors_of_int in Hy. destruct Hy as [t [Ht ->]].
        apply index_not_an_integer; assumption.
      * destruct H as [<-|[]]. apply item_key_missing; [|exact E].
        cbn [In]. auto.
    + destruct (dict_get (u "explanation") d) as [w|] eqn:E; [|destruct H].
      apply in_under_iff in H. destruct H as [y [Hy ->]].
      apply in_errors_of_optional_str in Hy. destruct Hy as [Hn [Hw ->]].
      apply explanation_not_a_string; assumption.
  - intros H. inversion H as [v Hv|d' name Hname Hnone|d' w Hget Hw
                             |d' w Hget Hw|d' l j w Hget Hn Hw
                             |d' w t Hget Ht|d' w Hget Hnull Hw]; subst.
    + contradiction (Hv d). reflexivity.
    + destruct Hname as [<-|[<-|[<-|[]]]]; rewrite Hnone.
      * left. left. reflexivity.
      * right. left. left. reflexivity.
      * right. right. left. left. reflexivity.
    + left. rewrite Hget. apply in_under_iff. eexists.
      split; [apply in_errors_of_str; split; [exact Hw|reflexivity]|].
      reflexivity.
    + right. left. rewrite Hget. apply in_under_iff. eexists.
      split; [apply in_errors_of_strings; left; split;
              [exact Hw|reflexivity]|].
      reflexivity.
    + right. left. rewrite Hget. apply in_under_iff. eexists.
      split; [apply in_errors_of_strings; right; exists l, j, w; auto|].
      reflexivity.
    + right. right. left. rewrite Hget. apply in_under_iff. eexists.
      split; [apply in_errors_of_int; exists t; auto|]. reflexivity.
    + right. right. right. rewrite Hget. apply in_under_iff. eexists.
      split; [apply in_errors_of_optional_str; auto|]. reflexivity.
Qed.

(** The entries of the error are the departures from the schema. *)
Lemma parse_obj_errors (data : json) (x : ErrorDetails) :
  In x (errors_of (parse_obj data)) <-> refused data x.
Proof.
  destruct data as [| | | | | |d];
    try (simpl; split;
         [ intros [<-|[]]; apply not_an_object; discriminate
         | intros H; inversion H; subst; auto ]).
  assert (Herr : errors_of (parse_obj (JDict d))
                 = errors_of (required (u "summary") validate_str d)
                   ++ errors_of (required (u "quiz")
                                   (validate_list validate_QuizItem) d)).
  { unfold Pydantic.parse_obj. rewrite <- errors_of_both.
    destruct (both _ _) as [[s q]|e]; reflexivity. }
  rewrite Herr, in_app_iff, !errors_of_required. split.
  - intros [H|H].
    + destruct (dict_get (u "summary") d) as [w|] eqn:E.
      * apply in_under_iff in H. destruct H as [y [Hy ->]].
        apply in_errors_of_str in Hy. destruct Hy as [Hw ->].
        apply summary_not_a_string; assumption.
      * destruct H as [<-|[]]. apply key_missing; [|exact E]. cbn [In]. auto.
    + destruct (dict_get (u "quiz") d) as [w|] eqn:E.
      * apply in_under_iff in H. destruct H as [y [Hy ->]].
        destruct w as [| | | | |items|];
          try (destruct Hy as [<-|[]]; apply quiz_not_a_list;
               [exact E|discriminate]).
        cbn [validate_list] in Hy. apply in_errors_of_items in Hy.
        destruct Hy as [i [v [z [Hn [Hz ->]]]]]. apply item_errors in Hz.
        apply (@quiz_item_refused float_as_int str_as_int
                 d items i v z E Hn Hz).
      * destruct H as [<-|[]]. apply key_missing; [|exact E]. cbn [In]. auto.
  - intros H. inversion H as [v Hv|d' name Hname Hnone|d' w Hget Hw
                             |d' w Hget Hw|d' items i w z Hget Hn Hz]; subst.
    + contradiction (Hv d). reflexivity.
    + destruct Hname as [<-|[<-|[]]]; rewrite Hnone.
      * left. left. reflexivity.
      * right. left. reflexivity.
    + left. rewrite Hget. apply in_under_iff. eexists.
      split; [apply in_errors_of_str; split; [exact Hw|reflexivity]|].
      reflexivity.
    + right. rewrite Hget. apply in_under_iff. eexists. split.
      * destruct w; try (left; reflexivity).
        contradiction (Hw items). reflexivity.
      * reflexivity.
    + right. rewrite Hget. apply in_under_iff.
      exists {| type := type z; loc := Index i :: loc z; input := input z |}.
      split; [|reflexivity].
      cbn [validate_list]. apply in_errors_of_items.
      exists i, w, z. split; [exact Hn|]. split; [apply item_errors, Hz|].
      reflexivity.
Qed.

Lemma strings_of_values (vs : list json) (l : list str) :
  Forall2 (fun x a => validate_str x = Return a) vs l -> vs = List.map JStr l.
Proof.
  induction 1 as [|x a vs l Hx _ IH]; [reflexivity|].
  cbn [List.map]. apply validate_str_return in Hx. subst x. f_equal. exact IH.
Qed.

(** What validation accepts, field by field. *)
Lemma validate_QuizItem_accepts (v : json) (q : QuizItem) :
  validate_QuizItem v = Return q
  <-> exists d,
        v = JDict d
        /\ dict_get (u "question") d = Some (JStr (question q))
        /\ dict_get (u "choices") d = Some (JList (List.map JStr (choices q)))
        /\ (exists x, dict_get (u "correct_index") d = Some x
                      /\ validate_int x = Return (correct_index q))
        /\ match explanation q with
           | Some e => dict_get (u "explanation") d = Some (JStr e)
           | None => dict_get (u "explanation") d = None
                     \/ dict_get (u "explanation") d = Some JNull
           end.
Proof.
  split.
  - unfold Pydantic.validate_QuizItem.
    destruct v as [| | | | |?|d]; try discriminate.
    destruct (both _ _) as [[qn [cs [ci ex]]]|e] eqn:Hb; [|discriminate].
    intros H. injection H as <-. cbn [question choices correct_index explanation].
    apply both_return in Hb. destruct Hb as [Hq Hb].
    apply both_return in Hb. destruct Hb as [Hc Hb].
    apply both_return in Hb. destruct Hb as [Hi He].
    apply required_return in Hq. destruct Hq as [vq [Hq1 Hq2]].
    apply validate_str_return in Hq2. subst vq.
    apply required_return in Hc. destruct Hc as [vc [Hc1 Hc2]].
    apply validate_list_return in Hc2. destruct Hc2 as [vs [-> Hvs]].
    apply strings_of_values in Hvs. subst vs.
    apply required_return in Hi. destruct Hi as [vi [Hi1 Hi2]].
    exists d. split; [reflexivity|]. split; [exact Hq1|].
    split; [exact Hc1|]. split; [exists vi; auto|].
    unfold with_default in He.
    destruct (dict_get (u "explanation") d) as [ve|].
    + destruct ve; try discriminate He; cbn in He;
        injection He as <-; auto.
    + injection He as <-. auto.
  - intros [d [-> [Hq [Hc [[x [Hi Hx]] He]]]]].
    unfold Pydantic.validate_QuizItem, required, with_default.
    rewrite Hq, Hc, Hi, Hx. cbn [validate_str validate_list].
    rewrite validate_str_items.
    destruct q as [qn cs ci [e|]]; cbn [explanation] in He;
      cbn [question choices correct_index explanation].
    + rewrite He. reflexivity.
    + destruct He as [He|He]; rewrite He; reflexivity.
Qed.

Lemma parse_obj_accepts (data : json) (r : PdfSummaryWithQuiz) :
  parse_obj data = Return r
  <-> exists d items,
        data = JDict d
        /\ dict_get (u "summary") d = Some (JStr (summary r))
        /\ dict_get (u "quiz") d = Some (JList items)
        /\ Forall2 (fun x item => validate_QuizItem x = Return item)
             items (quiz r).
Proof.
  split.
  - unfold Pydantic.parse_obj.
    destruct data as [| | | | |?|d]; try discriminate.
    destruct (both _ _) as [[s qs]|e] eqn:Hb; [|discriminate].
    intros H. injection H as <-. cbn [summary quiz].
    apply both_return in Hb. destruct Hb as [Hs Hq].
    apply required_return in Hs. destruct Hs as [vs [Hs1 Hs2]].
    apply validate_str_return in Hs2. subst vs.
    apply required_return in Hq. destruct Hq as [vq [Hq1 Hq2]].
    apply validate_list_return in Hq2. destruct Hq2 as [items [-> Hitems]].
    exists d, items. auto.
  - intros [d [items [-> [Hs [Hq Hitems]]]]].
    unfold Pydantic.parse_obj, required. rewrite Hs, Hq.
    cbn [validate_str validate_list].
    apply (validate_items_return _ items 0) in Hitems. rewrite Hitems.
    destruct r. reflexivity.
Qed.

Lemma item_conforms_iff (v : json) (q : QuizItem) :
  validate_QuizItem v = Return q <-> item_conforms v q.
Proof.
  rewrite validate_QuizItem_accepts.
  split; intros [d [Hv [Hq [Hc [[x [Hi Hx]] He]]]]]; exists d;
    (split; [exact Hv|]); (split; [exact Hq|]); (split; [exact Hc|]);
    (split; [|exact He]); exists x; (split; [exact Hi|]);
    apply validate_int_value; exact Hx.
Qed.

Lemma parse_obj_conforms (data : json) (r : PdfSummaryWithQuiz) :
  parse_obj data = Return r <-> conforms data r.
Proof.
  rewrite parse_obj_accepts.
  split; intros [d [items [Hd [Hs [Hq Hitems]]]]]; exists d, items;
    (split; [exact Hd|]); (split; [exact Hs|]); (split; [exact Hq|]);
    (eapply Forall2_impl; [|exact Hitems]); intros x item Hx;
    apply item_conforms_iff; exact Hx.
Qed.


(** A response whose normalized text decodes to a well-formed object is
    returned as the value that object describes. *)
Lemma well_formed_response (pdf_bytes : list Byte.byte) (n : Z) (text : str)
    (d : dict) (s : str) (items : list json) (qs : list QuizItem) :
  generate_content pdf_bytes (QuizPrompt n) = Text (Some text) ->
  json_loads (normalize_response text) = Return (JDict d) ->
  dict_get (u "summary") d = Some (JStr s) ->
  dict_get (u "quiz") d = Some (JList items) ->
  Forall2 (fun v q => item_value q v) items qs ->
  summarize_and_quiz_pdf_bytes pdf_bytes n
  = Return {| summary := s; quiz := qs |}.
Proof.
  intros Hgen Hjson Hs Hq Hitems.
  unfold Pipeline.summarize_and_quiz_pdf_bytes, Pipeline.extract_summary_with_quiz.
  rewrite Hgen, Hjson.
  erewrite parse_obj_object by eassumption. reflexivity.
Qed.


(** C2: the validator accepts a well-formed object whatever the number of
    its quiz items, the number of choices of an item and the value of an
    integer index: nothing is assumed about [n], the lengths or the
    indices, and the items are returned as they are.  The response with
    index 5 and four choices is returned with that item, the interpreter
    having room for its four nested containers. *)
Theorem C2_validator_permissive :
  (forall pdf_bytes n text d s items qs,
      generate_content pdf_bytes (QuizPrompt n) = Text (Some text) ->
      json_loads (normalize_response text) = Return (JDict d) ->
      dict_get (u "summary") d = Some (JStr s) ->
      dict_get (u "quiz") d = Some (JList items) ->
      Forall2 (fun v q => item_value q v) items qs ->
      summarize_and_quiz_pdf_bytes pdf_bytes n
      = Return {| summary := s; quiz := qs |})
  /\ (forall pdf_bytes n,
        4 <= recursion_depth ->
        generate_content pdf_bytes (QuizPrompt n)
        = Text (Some out_of_range_response) ->
        summarize_and_quiz_pdf_bytes pdf_bytes n
        = Return {| summary := u "s"; quiz := [out_of_range_item] |}).
Proof.
  split.
  - intros pdf_bytes n text d s items qs. apply well_formed_response.
  - intros pdf_bytes n Hdepth Hgen.
    unfold Pipeline.summarize_and_quiz_pdf_bytes, Pipeline.extract_summary_with_quiz.
    rewrite Hgen. revert Hdepth. generalize recursion_depth.
    intros [|[|[|[|depth]]]] Hdepth; try lia. reflexivity.
Qed.

(** What a returned value was made from. *)
Lemma returned_value_origin (pdf_bytes : list Byte.byte) (n : Z)
    (r : PdfSummaryWithQuiz) :
  summarize_and_quiz_pdf_bytes pdf_bytes n = Return r ->
  exists text data,
    generate_content pdf_bytes (QuizPrompt n) = Text (Some text)
    /\ json_loads (normalize_response text) = Return data
    /\ parse_obj data = Return r.
Proof.
  unfold Pipeline.summarize_and_quiz_pdf_bytes, Pipeline.extract_summary_with_quiz.
  destruct (generate_content pdf_bytes (QuizPrompt n)) as [e|[text|]].
  - destruct e; discriminate.
  - destruct (json_loads (normalize_response text)) as [data|[e|l]] eqn:Hj;
      try discriminate.
    destruct (parse_obj data) as [r'|e] eqn:Hp; [|discriminate].
    intros H. injection H as <-. exists text, data. auto.
  - discriminate.
Qed.


(** ** Every text of a value is read back *)

Lemma scanstring_plain (begin : nat) (c : char) (r : str) :
  (c =? QUOTE)%N = false -> (c =? BACKSLASH)%N = false ->
  (c <=? 0x1F)%N = false ->
  scanstring begin (c :: r) = scan_map (cons c) (scanstring begin r).
Proof. intros H1 H2 H3. cbn [scanstring]. rewrite H1, H2, H3. reflexivity. Qed.

Lemma simple_escape_not_u (e c : char) :
  simple_escape e = Some c -> (e =? 0x75)%N = false.
Proof.
  intros H. destruct (e =? 0x75)%N eqn:E; [|reflexivity].
  apply N.eqb_eq in E. subst e. vm_compute in H. discriminate H.
Qed.

Lemma scanstring_simple_escape (begin : nat) (e c : char) (r : str) :
  simple_escape e = Some c ->
  scanstring begin (BACKSLASH :: e :: r)
  = scan_map (cons c) (scanstring begin r).
Proof.
  intros H2. pose proof (simple_escape_not_u _ H2) as H1. cbn [scanstring].
  change ((BACKSLASH =? QUOTE)%N) with false.
  change ((BACKSLASH =? BACKSLASH)%N) with true.
  cbv iota. rewrite H1, H2. reflexivity.
Qed.

Lemma scanstring_u_escape (begin : nat) (h1 h2 h3 h4 x c : char) (r : str) :
  hex4 h1 h2 h3 h4 = Some c -> is_high_surrogate c = false ->
  scanstring begin (BACKSLASH :: 0x75%N :: h1 :: h2 :: h3 :: h4 :: x :: r)
  = scan_map (cons c) (scanstring begin (x :: r)).
Proof.
  intros H1 H2. cbn [scanstring].
  change ((BACKSLASH =? QUOTE)%N) with false.
  change ((BACKSLASH =? BACKSLASH)%N) with true.
  change ((0x75 =? 0x75)%N) with true.
  cbv iota. rewrite H1, H2. reflexivity.
Qed.

(** Two escapes that are a high and a low surrogate are read as the one
    character they stand for. *)
Lemma scanstring_pair (begin : nat) (h1 h2 h3 h4 g1 g2 g3 g4 x hi lo : char)
    (r : str) :
  hex4 h1 h2 h3 h4 = Some hi -> is_high_surrogate hi = true ->
  hex4 g1 g2 g3 g4 = Some lo -> is_low_surrogate lo = true ->
  scanstring begin
    (BACKSLASH :: 0x75%N :: h1 :: h2 :: h3 :: h4
       :: BACKSLASH :: 0x75%N :: g1 :: g2 :: g3 :: g4 :: x :: r)
  = scan_map (cons (join_surrogates hi lo)) (scanstring begin (x :: r)).
Proof.
  intros H1 H2 H3 H4.
  remember (x :: r) as tail eqn:Htail.
  cbn [scanstring].
  change ((BACKSLASH =? QUOTE)%N) with false.
  change ((BACKSLASH =? BACKSLASH)%N) with true.
  change ((0x75 =? 0x75)%N) with true.
  cbv iota. rewrite H1, H2.
  subst tail. cbn [andb]. rewrite H3, H4. reflexivity.
Qed.

Lemma control_escape (c : char) :
  (c <=? 0x1F)%N = true ->
  hex4 0x30%N 0x30%N (hexdigit (c / 16)) (hexdigit (c mod 16)) = Some c
  /\ is_high_surrogate c = false.
Proof.
  intros H. apply N.leb_le in H.
  assert (Hc : c = N.of_nat (N.to_nat c)) by (rewrite N2Nat.id; reflexivity).
  assert (Hk : (N.to_nat c < 32)%nat) by lia.
  rewrite Hc. generalize dependent (N.to_nat c). intros k _ Hk.
  do 32 (destruct k as [|k]; [vm_compute; auto|]).
  lia.
Qed.

(** The decoder joins two surrogates to the character they stand for. *)
Lemma join_surrogates_code_point (hi lo : N) :
  is_high_surrogate hi = true -> is_low_surrogate lo = true ->
  join_surrogates hi lo = pair_code_point hi lo.
Proof.
  unfold is_high_surrogate, is_low_surrogate, join_surrogates, pair_code_point.
  intros Hhi Hlo.
  apply andb_true_iff in Hhi. destruct Hhi as [Hh1 Hh2].
  apply andb_true_iff in Hlo. destruct Hlo as [Hl1 Hl2].
  apply N.leb_le in Hh1, Hh2, Hl1, Hl2.
  change 0x3FF%N with (N.ones 10). rewrite !N.land_ones.
  change (2 ^ 10)%N with 1024%N.
  assert (Eh : (hi mod 1024 = hi - 0xD800)%N).
  { symmetry. apply (N.mod_unique hi 1024 54 (hi - 0xD800)); lia. }
  assert (El : (lo mod 1024 = lo - 0xDC00)%N).
  { symmetry. apply (N.mod_unique lo 1024 55 (lo - 0xDC00)); lia. }
  rewrite Eh, El.
  set (a := (hi - 0xD800)%N). set (b := (lo - 0xDC00)%N).
  assert (Hb : (b < 2 ^ 10)%N) by (change (2 ^ 10)%N with 1024%N; lia).
  assert (Hland : N.land (N.shiftl a 10) b = 0%N).
  { apply N.bits_inj. intros i. rewrite N.land_spec, N.bits_0.
    destruct (N.lt_ge_cases i 10) as [Hi|Hi].
    - rewrite N.shiftl_spec_low by exact Hi. reflexivity.
    - replace (N.testbit b i) with false; [apply andb_false_r|].
      symmetry. destruct (N.eq_dec b 0) as [->|Hnz]; [apply N.bits_0|].
      apply N.bits_above_log2.
      apply N.lt_le_trans with 10%N; [|exact Hi].
      apply N.log2_lt_pow2; [lia | exact Hb]. }
  rewrite <- N.lxor_lor by exact Hland.
  rewrite <- N.add_nocarry_lxor by exact Hland.
  rewrite N.shiftl_mul_pow2. change (2 ^ 10)%N with 1024%N. lia.
Qed.

(** One character of a string, however it is written. *)
Lemma scanstring_char (c : char) (tc : str) :
  char_text c tc ->
  forall (begin : nat) (x : char) (r : str),
    scanstring begin (tc ++ x :: r)
    = scan_map (cons c) (scanstring begin (x :: r)).
Proof.
  intros H begin x r. destruct H; cbn [app].
  - apply scanstring_plain; assumption.
  - apply scanstring_simple_escape; assumption.
  - apply scanstring_u_escape; assumption.
  - rewrite <- join_surrogates_code_point by assumption.
    apply scanstring_pair; assumption.
Qed.

Lemma scanstring_body (s body : str) :
  string_body s body ->
  forall (begin : nat) (rest : str),
    scanstring begin (body ++ QUOTE :: rest) = Scanned s rest.
Proof.
  induction 1 as [|c s tc ts Hc Hs IH]; intros begin rest.
  - reflexivity.
  - rewrite <- app_assoc.
    destruct (ts ++ QUOTE :: rest) as [|x r] eqn:E.
    { destruct ts; discriminate E. }
    pose proof (@scanstring_char c tc Hc begin x r) as Hx.
    rewrite Hx, <- E, IH. reflexivity.
Qed.

Lemma scan_once_string (s t : str) :
  string_text s t ->
  forall (f d : nat) (rest : str),
    scan_once (S f) d (t ++ rest) = Some (Scanned (JStr s) rest).
Proof.
  intros [s' body Hb] f d rest. cbn [app scan_once].
  change ((QUOTE =? QUOTE)%N) with true. cbv iota.
  rewrite <- app_assoc. cbn [app].
  rewrite (@scanstring_body s' body Hb). reflexivity.
Qed.

(** The text [encode_str] writes is one of the texts of the string. *)
Lemma escape_char_text (c : char) : char_text c (escape_char c).
Proof.
  unfold escape_char.
  destruct (c =? QUOTE)%N eqn:Hq.
  { apply N.eqb_eq in Hq. subst c. apply written_escaped. reflexivity. }
  destruct (c =? BACKSLASH)%N eqn:Hb.
  { apply N.eqb_eq in Hb. subst c. apply written_escaped. reflexivity. }
  destruct (c <=? 0x1F)%N eqn:Hc.
  { destruct (control_escape c Hc) as [Hhex Hhi].
    apply written_hex; assumption. }
  apply written_plain; assumption.
Qed.

Lemma encode_str_text (s : str) : string_text s (encode_str s).
Proof.
  unfold encode_str. apply quoted.
  induction s as [|c s IH]; cbn [flat_map].
  - apply body_end.
  - apply body_char; [apply escape_char_text | exact IH].
Qed.

Lemma int_of_digits_snoc (l : str) (d : char) :
  int_of_digits (l ++ [d]) = (10 * int_of_digits l + (d - 0x30))%N.
Proof. unfold int_of_digits. rewrite fold_left_app. reflexivity. Qed.

Lemma isdigit_digit (x : N) : (x < 10)%N -> isdigit (0x30 + x)%N = true.
Proof.
  intros H. unfold isdigit. apply andb_true_iff.
  split; apply N.leb_le; lia.
Qed.

(** The digits of a number: they are digits, they start with a zero only
    for zero, and [int] reads the number back. *)
Lemma digits_fuel_spec (f : nat) :
  forall n : N,
    (n < 10 ^ N.of_nat f)%N -> 0 < f ->
    int_of_digits (digits_fuel f n) = n
    /\ forallb isdigit (digits_fuel f n) = true
    /\ exists c t,
         digits_fuel f n = c :: t
         /\ (n = 0%N -> c = 0x30%N /\ t = [])
         /\ (n <> 0%N -> (0x31 <= c <= 0x39)%N).
Proof.
  induction f as [|f IH]; intros n Hn Hf; [lia|].
  cbn [digits_fuel].
  assert (Hmod : (n mod 10 < 10)%N) by (apply N.mod_lt; lia).
  assert (Hdm : n = (10 * (n / 10) + n mod 10)%N) by (apply N.div_mod; lia).
  destruct (n / 10 =? 0)%N eqn:Hq.
  - apply N.eqb_eq in Hq. cbn [app].
    assert (Hsmall : (n mod 10 = n)%N) by lia.
    rewrite Hsmall. split; [|split].
    + unfold int_of_digits. cbn [fold_left]. lia.
    + cbn [forallb]. rewrite isdigit_digit by lia. reflexivity.
    + exists (0x30 + n)%N, []. split; [reflexivity|]. split.
      * intros ->. split; reflexivity.
      * intros Hnz. lia.
  - apply N.eqb_neq in Hq.
    assert (Hdiv : (n / 10 < 10 ^ N.of_nat f)%N).
    { apply N.Div0.div_lt_upper_bound.
      replace (N.of_nat (S f)) with (N.succ (N.of_nat f)) in Hn by lia.
      rewrite N.pow_succ_r' in Hn. exact Hn. }
    assert (Hf' : 0 < f).
    { destruct f; [|lia]. simpl in Hdiv. lia. }
    destruct (IH (n / 10)%N Hdiv Hf') as [Hint [Hall [c [t [Hct [_ Hhead]]]]]].
    split; [|split].
    + rewrite int_of_digits_snoc, Hint. clear - Hdm Hmod.
      replace (48 + n mod 10 - 48)%N with (n mod 10)%N
        by (clear; generalize (n mod 10)%N; intros; lia).
      symmetry. exact Hdm.
    + rewrite forallb_app, Hall. cbn [forallb].
      rewrite isdigit_digit by exact Hmod. reflexivity.
    + exists c, (t ++ [0x30 + n mod 10])%N. rewrite Hct. split; [reflexivity|].
      split; [intros ->; exfalso; apply Hq; reflexivity|].
      intros _. apply Hhead, Hq.
Qed.

Lemma digits_enough (n : N) : (n < 10 ^ N.of_nat (S (N.to_nat (N.log2 n))))%N.
Proof.
  destruct (N.eq_dec n 0) as [->|Hnz]; [reflexivity|].
  replace (N.of_nat (S (N.to_nat (N.log2 n)))) with (N.succ (N.log2 n)) by lia.
  apply N.lt_le_trans with (2 ^ N.succ (N.log2 n))%N.
  - apply N.log2_spec. lia.
  - apply N.pow_le_mono_l. lia.
Qed.

Lemma digits_spec (n : N) :
  int_of_digits (digits n) = n
  /\ forallb isdigit (digits n) = true
  /\ exists c t,
       digits n = c :: t
       /\ (n = 0%N -> c = 0x30%N /\ t = [])
       /\ (n <> 0%N -> (0x31 <= c <= 0x39)%N).
Proof. apply digits_fuel_spec; [apply digits_enough | lia]. Qed.

(** More fuel than the digits need changes nothing. *)
Lemma digits_fuel_any (f : nat) :
  forall (f' : nat) (n : N),
    (n < 10 ^ N.of_nat f)%N -> (n < 10 ^ N.of_nat f')%N -> 0 < f -> 0 < f' ->
    digits_fuel f n = digits_fuel f' n.
Proof.
  induction f as [|f IH]; intros f' n Hn Hn' Hf Hf'; [lia|].
  destruct f' as [|f']; [lia|].
  cbn [digits_fuel].
  destruct (n / 10 =? 0)%N eqn:Hq; [reflexivity|].
  apply N.eqb_neq in Hq.
  assert (Hdiv : forall g, (n < 10 ^ N.of_nat (S g))%N ->
                           (n / 10 < 10 ^ N.of_nat g)%N /\ 0 < g).
  { intros g Hg.
    assert (H : (n / 10 < 10 ^ N.of_nat g)%N).
    { apply N.Div0.div_lt_upper_bound.
      replace (N.of_nat (S g)) with (N.succ (N.of_nat g)) in Hg by lia.
      rewrite N.pow_succ_r' in Hg. exact Hg. }
    split; [exact H|]. destruct g; [|lia].
    change (10 ^ N.of_nat 0)%N with 1%N in H. apply N.lt_1_r in H.
    contradiction. }
  destruct (Hdiv f Hn) as [H1 H2]. destruct (Hdiv f' Hn') as [H3 H4].
  rewrite (IH f' (n / 10)%N H1 H3 H2 H4). reflexivity.
Qed.

(** The digits of ten times a number and a unit: those of the number, and
    the unit. *)
Lemma digits_step (m x : N) :
  (0 < m)%N -> (x < 10)%N ->
  digits (10 * m + x) = digits m ++ [(0x30 + x)%N].
Proof.
  intros Hm Hx. unfold digits at 1.
  pose proof (digits_enough (10 * m + x)) as He.
  set (L := N.to_nat (N.log2 (10 * m + x))) in *.
  cbn [digits_fuel].
  assert (Hdiv : ((10 * m + x) / 10 = m)%N).
  { symmetry. apply (N.div_unique (10 * m + x) 10 m x); [exact Hx | reflexivity]. }
  assert (Hmod : ((10 * m + x) mod 10 = x)%N).
  { symmetry. apply (N.mod_unique (10 * m + x) 10 m x); [exact Hx | reflexivity]. }
  rewrite Hdiv, Hmod.
  replace (m =? 0)%N with false by (symmetry; apply N.eqb_neq; lia).
  replace (N.of_nat (S L)) with (N.succ (N.of_nat L)) in He by lia.
  rewrite N.pow_succ_r' in He.
  assert (HmL : (m < 10 ^ N.of_nat L)%N) by lia.
  assert (HL : 0 < L).
  { destruct L; [|lia]. simpl in HmL. lia. }
  f_equal. unfold digits.
  apply digits_fuel_any; [exact HmL | apply digits_enough | exact HL | lia].
Qed.

Lemma digits_pow10 (k : nat) :
  digits (10 ^ N.of_nat k) = 0x31%N :: repeat 0x30%N k.
Proof.
  induction k as [|k IH]; [reflexivity|].
  replace (N.of_nat (S k)) with (N.succ (N.of_nat k)) by lia.
  rewrite N.pow_succ_r'.
  replace (10 * 10 ^ N.of_nat k)%N with (10 * 10 ^ N.of_nat k + 0)%N by lia.
  rewrite digits_step; [| | lia].
  - rewrite IH. cbn [app repeat]. f_equal. symmetry. apply repeat_cons.
  - apply N.neq_0_lt_0. apply N.pow_nonzero. discriminate.
Qed.

Lemma span_digits_app (ds : str) (c0 : char) (rest : str) :
  forallb isdigit ds = true -> isdigit c0 = false ->
  span_digits (ds ++ c0 :: rest) = (ds, c0 :: rest).
Proof.
  intros Hds Hc0. induction ds as [|d ds IH]; cbn [app span_digits].
  - rewrite Hc0. reflexivity.
  - cbn [forallb] in Hds. apply andb_true_iff in Hds. destruct Hds as [Hd Hds].
    rewrite Hd, (IH Hds). reflexivity.
Qed.

(** A run of digits that [int] converts is read as the integer, signed or
    not. *)
Lemma match_number_unsigned (neg : bool) (n : N) (c0 : char) (rest : str) :
  ends_number c0 = true ->
  exceeds_int_max_str_digits int_max_str_digits (length (digits n)) = false ->
  match_number ((if neg then [MINUS] else []) ++ digits n ++ c0 :: rest)
  = Some (Scanned (JInt (if neg then (- Z.of_N n)%Z else Z.of_N n))
            (c0 :: rest)).
Proof.
  intros Hend Hlim. unfold ends_number in Hend.
  apply andb_true_iff in Hend. destruct Hend as [Hend HE].
  apply andb_true_iff in Hend. destruct Hend as [Hend He].
  apply andb_true_iff in Hend. destruct Hend as [Hdigit Hdot].
  apply negb_true_iff in HE, He, Hdot, Hdigit.
  destruct (digits_spec n) as [Hint [Hall [c [t [Hct [Hzero Hhead]]]]]].
  rewrite Hct in *. cbn [forallb] in Hall.
  apply andb_true_iff in Hall. destruct Hall as [Hc Ht].
  assert (Hminus : (c =? MINUS)%N = false).
  { unfold isdigit in Hc. apply andb_true_iff in Hc.
    destruct Hc as [Hc _]. apply N.leb_le in Hc.
    apply N.eqb_neq. unfold MINUS. lia. }
  assert (Hcond : n <> 0%N -> ((49 <=? c)%N && (c <=? 57)%N)%bool = true).
  { intros Hn. specialize (Hhead Hn).
    apply andb_true_iff; split; apply N.leb_le; lia. }
  unfold Json.match_number.
  destruct neg; cbn [app].
  - change ((MINUS =? MINUS)%N) with true. cbv iota.
    destruct (N.eq_dec n 0) as [Hn|Hn].
    + destruct (Hzero Hn) as [-> ->]. cbn [app].
      change ((49 <=? 48)%N && (48 <=? 57)%N)%bool with false.
      change ((48 =? 48)%N) with true. cbv iota.
      destruct rest as [|d1 rest];
        do 3 (cbv beta iota zeta; rewrite ?Hdot, ?He, ?HE; cbn [andb orb]);
        rewrite ?Hlim, ?Hint; reflexivity.
    + rewrite (Hcond Hn), (@span_digits_app t c0 rest Ht Hdigit).
      destruct rest as [|d1 rest];
        do 3 (cbv beta iota zeta; rewrite ?Hdot, ?He, ?HE; cbn [andb orb]);
        rewrite ?Hlim, ?Hint; reflexivity.
  - rewrite Hminus.
    destruct (N.eq_dec n 0) as [Hn|Hn].
    + destruct (Hzero Hn) as [-> ->]. cbn [app].
      change ((49 <=? 48)%N && (48 <=? 57)%N)%bool with false.
      change ((48 =? 48)%N) with true. cbv iota.
      destruct rest as [|d1 rest];
        do 3 (cbv beta iota zeta; rewrite ?Hdot, ?He, ?HE; cbn [andb orb]);
        rewrite ?Hlim, ?Hint; reflexivity.
    + rewrite (Hcond Hn), (@span_digits_app t c0 rest Ht Hdigit).
      destruct rest as [|d1 rest];
        do 3 (cbv beta iota zeta; rewrite ?Hdot, ?He, ?HE; cbn [andb orb]);
        rewrite ?Hlim, ?Hint; reflexivity.
Qed.

Lemma match_number_encoded (z : Z) (c0 : char) (rest : str) :
  ends_number c0 = true -> int_converts int_max_str_digits z ->
  match_number (encode_int z ++ c0 :: rest)
  = Some (Scanned (JInt z) (c0 :: rest)).
Proof.
  intros Hend Hlim. unfold int_converts, int_digits in Hlim. unfold encode_int.
  destruct (z <? 0)%Z eqn:Hz.
  - apply Z.ltb_lt in Hz. rewrite Z.abs_neq in Hlim by lia.
    pose proof (@match_number_unsigned true (Z.to_N (- z)) c0 rest Hend Hlim)
      as H.
    rewrite Z2N.id, Z.opp_involutive in H by lia. exact H.
  - apply Z.ltb_ge in Hz. rewrite Z.abs_eq in Hlim by lia.
    pose proof (@match_number_unsigned false (Z.to_N z) c0 rest Hend Hlim)
      as H.
    rewrite Z2N.id in H by lia. exact H.
Qed.

(** The first character of an encoded integer: a digit or the minus sign. *)
Lemma encode_int_head (z : Z) :
  exists c t, encode_int z = c :: t /\ (isdigit c = true \/ c = MINUS).
Proof.
  unfold encode_int. destruct (z <? 0)%Z.
  - exists MINUS, (digits (Z.to_N (- z))). auto.
  - destruct (digits_spec (Z.to_N z)) as [_ [Hall [c [t [Hct _]]]]].
    rewrite Hct in *. cbn [forallb] in Hall.
    apply andb_true_iff in Hall. destruct Hall as [Hc _].
    exists c, t. auto.
Qed.

Lemma isdigit_not (c : char) (k : N) :
  isdigit c = true -> (k < 0x30 \/ 0x39 < k)%N -> (c =? k)%N = false.
Proof.
  unfold isdigit. intros H Hk. apply andb_true_iff in H.
  destruct H as [H1 H2]. apply N.leb_le in H1, H2. apply N.eqb_neq. lia.
Qed.

(** A text that starts as a number is handed to [match_number]. *)
Lemma scan_once_number (f d : nat) (c : char) (r : str) :
  isdigit c = true ->
  (scan_once (S f) d (c :: r)
   = match match_number (c :: r) with
     | Some x => Some x
     | None => Some (Fail Expecting_value (length (c :: r)))
     end)
  /\ (scan_once (S f) d (MINUS :: c :: r)
      = match match_number (MINUS :: c :: r) with
        | Some x => Some x
        | None => Some (Fail Expecting_value (length (MINUS :: c :: r)))
        end).
Proof.
  intros Hc.
  assert (Hk : forall k, (k < 0x30 \/ 0x39 < k)%N -> (c =? k)%N = false)
    by (intros k; apply isdigit_not; exact Hc).
  split.
  - cbn [Json.scan_once startswith u List.map list_ascii_of_string].
    unfold QUOTE, LBRACE, LBRACKET. cbn [N_of_ascii N_of_digits].
    rewrite !Hk by (cbn; lia). reflexivity.
  - cbn [Json.scan_once startswith u List.map list_ascii_of_string].
    unfold QUOTE, LBRACE, LBRACKET, MINUS. cbn [N_of_ascii N_of_digits].
    cbn [N.eqb Pos.eqb andb].
    rewrite !Hk by (cbn; lia). reflexivity.
Qed.

Lemma scan_once_int (z : Z) :
  int_converts int_max_str_digits z ->
  reads int_max_str_digits 0 (encode_int z) (JInt z).
Proof.
  intros Hlim f d c0 rest _ Hend Hf.
  destruct f as [|f]; [lia|].
  pose proof (@match_number_encoded z c0 rest Hend Hlim) as Hm.
  unfold encode_int in *. destruct (z <? 0)%Z.
  - destruct (digits_spec (Z.to_N (- z))) as [_ [Hall [c [t [Hct _]]]]].
    rewrite Hct in *. cbn [forallb] in Hall.
    apply andb_true_iff in Hall. destruct Hall as [Hc _].
    cbn [app] in *.
    rewrite (proj2 (@scan_once_number f d c (t ++ c0 :: rest) Hc)), Hm.
    reflexivity.
  - destruct (digits_spec (Z.to_N z)) as [_ [Hall [c [t [Hct _]]]]].
    rewrite Hct in *. cbn [forallb] in Hall.
    apply andb_true_iff in Hall. destruct Hall as [Hc _].
    cbn [app] in *.
    rewrite (proj1 (@scan_once_number f d c (t ++ c0 :: rest) Hc)), Hm.
    reflexivity.
Qed.

(** *** Blanks between the tokens *)

Ltac norm_length H :=
  repeat first [rewrite length_app in H | progress cbn [length] in H].

Ltac norm_length_goal :=
  repeat first [rewrite length_app | progress cbn [length]].

Ltac norm_app :=
  repeat first [progress cbn [app] in * | rewrite <- app_assoc in * ].

Lemma is_whitespace_ends_number (c : char) :
  is_whitespace c = true -> ends_number c = true.
Proof.
  unfold is_whitespace. intros H.
  repeat (apply orb_true_iff in H; destruct H as [H|H]);
    apply N.eqb_eq in H; subst c; reflexivity.
Qed.

Lemma skip_ws_blank (w s : str) : blank w -> skip_ws (w ++ s) = skip_ws s.
Proof.
  unfold blank. induction w as [|c w IH]; intros H; [reflexivity|].
  cbn [forallb] in H. apply andb_true_iff in H. destruct H as [Hc Hw].
  unfold skip_ws in *. cbn [app lstrip_with]. rewrite Hc. apply IH, Hw.
Qed.

Lemma skip_ws_head (c : char) (r : str) :
  is_whitespace c = false -> skip_ws (c :: r) = c :: r.
Proof. intros H. unfold skip_ws. cbn [lstrip_with]. rewrite H. reflexivity. Qed.

Lemma skip_ws_value (w t rest : str) :
  blank w -> opens_value t -> skip_ws (w ++ t ++ rest) = t ++ rest.
Proof.
  intros Hw [c [r [-> [Hc _]]]]. rewrite skip_ws_blank by exact Hw.
  apply skip_ws_head, Hc.
Qed.

(** What follows a value after blanks cannot go on a number. *)
Lemma blank_then (w : str) (c : char) (rest : str) :
  blank w -> ends_number c = true ->
  exists c0 rest0, w ++ c :: rest = c0 :: rest0 /\ ends_number c0 = true.
Proof.
  intros Hw Hc. destruct w as [|x w].
  - exists c, rest. auto.
  - exists x, (w ++ c :: rest). split; [reflexivity|].
    unfold blank in Hw. cbn [forallb] in Hw. apply andb_true_iff in Hw.
    apply is_whitespace_ends_number, Hw.
Qed.

Lemma opens_string (s t : str) : string_text s t -> opens_value t.
Proof. intros [s' body _]. eexists _, _. repeat split. Qed.

Lemma opens_list {A} (elem : A -> str -> Prop) (l : list A) (t : str) :
  list_text elem l t -> opens_value t.
Proof. intros [w _ | l' w body _ _]; eexists _, _; repeat split. Qed.

Lemma opens_int (z : Z) : opens_value (encode_int z).
Proof.
  destruct (encode_int_head z) as [c [t [-> [Hc| ->]]]];
    eexists _, _; (split; [reflexivity|]); [|split; reflexivity].
  unfold is_whitespace, RBRACKET. rewrite !(isdigit_not _ Hc) by (cbn; lia).
  split; reflexivity.
Qed.

Lemma opens_item (q : QuizItem) (t : str) : item_text q t -> opens_value t.
Proof. intros H. destruct H. eexists _, _. repeat split. Qed.

(** *** Lists *)

(** A list is read back element by element, whatever the elements are,
    as long as each of them is read back with [k] containers to enter. *)
Section ListTexts.

Variable A : Type.
Variable elem : A -> str -> Prop.
Variable good : A -> Prop.
Variable accepts : json -> A -> Prop.
Variable k : nat.

Hypothesis elem_head : forall a t, elem a t -> opens_value t.

Hypothesis elem_read :
  forall a t,
    elem a t -> good a ->
    exists v, accepts v a /\ reads int_max_str_digits k t v.

Lemma elements_head (l : list A) (body : str) :
  elements_text elem l body -> opens_value body.
Proof.
  intros H.
  destruct H as [a t w Ha Hw | a l t w1 w2 rest Ha _ _ _];
    destruct (elem_head Ha) as [c [r [-> Hc]]];
    eexists _, _; (split; [reflexivity | exact Hc]).
Qed.

Lemma elements_nonempty (l : list A) (body : str) :
  elements_text elem l body -> exists a l', l = a :: l'.
Proof. intros H. destruct H; eauto. Qed.

Lemma parse_array_elements (l : list A) (body : str) :
  elements_text elem l body -> Forall good l ->
  exists vs,
    Forall2 accepts vs l
    /\ forall (acc : list json) (rest : str) (f d : nat),
         k <= d -> 2 * length (body ++ RBRACKET :: rest) + 1 < f ->
         parse_array f d (body ++ RBRACKET :: rest) acc
         = Some (Scanned (JList (acc ++ vs)) rest).
Proof.
  induction 1 as [a t w Ha Hw | a l t w1 w2 body Ha Hw1 Hw2 Hl IH];
    intros Hgood; inversion Hgood as [|? ? Hga Hgl]; subst;
    destruct (elem_read Ha Hga) as [v [Hv Hread]].
  - exists [v]. split; [constructor; [exact Hv | constructor]|].
    intros acc rest f d Hd Hf. destruct f as [|f]; [lia|].
    rewrite <- app_assoc in *.
    destruct (@blank_then w RBRACKET rest Hw eq_refl) as [c0 [rest0 [E Hc0]]].
    cbn [Json.parse_array]. rewrite E in *.
    rewrite (Hread f d c0 rest0 Hd Hc0) by lia.
    rewrite <- E. cbv beta iota zeta.
    rewrite skip_ws_blank by exact Hw. rewrite skip_ws_head by reflexivity.
    reflexivity.
  - destruct (IH Hgl) as [vs [Hvs Hrest]].
    exists (v :: vs). split; [constructor; assumption|].
    intros acc rest f d Hd Hf. destruct f as [|f]; [lia|].
    norm_app.
    destruct (@blank_then w1 COMMA (w2 ++ body ++ RBRACKET :: rest) Hw1 eq_refl)
      as [c0 [rest0 [E Hc0]]].
    assert (Hlen : length (t ++ w1 ++ COMMA :: w2 ++ body ++ RBRACKET :: rest)
                   = length t + length w1 + 1 + length w2
                     + length (body ++ RBRACKET :: rest)).
    { norm_length_goal. lia. }
    cbn [Json.parse_array]. rewrite E in *.
    rewrite (Hread f d c0 rest0 Hd Hc0) by lia.
    rewrite <- E in *. cbv beta iota zeta.
    rewrite skip_ws_blank by exact Hw1. rewrite skip_ws_head by reflexivity.
    change ((COMMA =? RBRACKET)%N) with false.
    change ((COMMA =? COMMA)%N) with true. cbv iota.
    rewrite (skip_ws_value _ Hw2 (elements_head Hl)).
    rewrite Hrest by lia. rewrite <- app_assoc. reflexivity.
Qed.

Lemma scan_once_list_text (l : list A) (t : str) :
  list_text elem l t -> Forall good l ->
  exists vs,
    Forall2 accepts vs l
    /\ forall (f d : nat) (rest : str),
         match l with [] => 1 | _ :: _ => S k end <= d ->
         2 * length (t ++ rest) < f ->
         scan_once f d (t ++ rest) = Some (Scanned (JList vs) rest).
Proof.
  intros [w Hw | l' w body Hw Hb] Hgood.
  - exists []. split; [constructor|].
    intros f d rest Hd Hf.
    destruct f as [|f]; [lia|]. destruct d as [|d]; [lia|].
    cbn [app Json.scan_once].
    change ((LBRACKET =? QUOTE)%N) with false.
    change ((LBRACKET =? LBRACE)%N) with false.
    change ((LBRACKET =? LBRACKET)%N) with true. cbv iota.
    rewrite <- app_assoc. cbn [app].
    rewrite skip_ws_blank by exact Hw. rewrite skip_ws_head by reflexivity.
    reflexivity.
  - destruct (parse_array_elements Hb Hgood) as [vs [Hvs Hrest]].
    exists vs. split; [exact Hvs|].
    intros f d rest Hd Hf.
    destruct (elements_nonempty Hb) as [a [l'' ->]].
    pose proof (elements_head Hb) as Hopen.
    destruct f as [|f]; [lia|]. destruct d as [|d]; [lia|].
    norm_app.
    assert (Hlen : length (LBRACKET :: w ++ body ++ RBRACKET :: rest)
                   = 1 + length w + length (body ++ RBRACKET :: rest)).
    { norm_length_goal. lia. }
    specialize (Hrest [] rest f d).
    cbn [Json.scan_once].
    change ((LBRACKET =? QUOTE)%N) with false.
    change ((LBRACKET =? LBRACE)%N) with false.
    change ((LBRACKET =? LBRACKET)%N) with true. cbv iota.
    rewrite (skip_ws_value _ Hw Hopen).
    destruct Hopen as [c [r [-> [_ Hc]]]]. cbn [app] in *.
    rewrite Hc. apply Hrest; lia.
Qed.

End ListTexts.

Lemma strings_decoded (vs : list json) (l : list str) :
  Forall2 (fun v s => v = JStr s) vs l -> vs = List.map JStr l.
Proof. induction 1; cbn [List.map]; congruence. Qed.

Lemma scan_once_strings (l : list str) (t : str) :
  list_text string_text l t ->
  forall (f d : nat) (rest : str),
    1 <= d -> 2 * length (t ++ rest) < f ->
    scan_once f d (t ++ rest) = Some (Scanned (JList (List.map JStr l)) rest).
Proof.
  intros Ht.
  destruct (@scan_once_list_text str string_text (fun _ => True)
              (fun v s => v = JStr s) 0) with (l := l) (t := t)
    as [vs [Hvs Hscan]].
  - intros a ta. apply opens_string.
  - intros a ta Ha _. exists (JStr a). split; [reflexivity|].
    intros f d c0 rest _ _ Hf. destruct f as [|f]; [lia|].
    apply scan_once_string, Ha.
  - exact Ht.
  - apply Forall_forall. intros; exact I.
  - apply strings_decoded in Hvs. subst vs.
    intros f d rest Hd Hf. apply Hscan; [|exact Hf].
    destruct l; exact Hd.
Qed.

(** *** Objects *)

Lemma member_head (key value m rest : str) :
  member_text key value m -> exists r, m ++ rest = QUOTE :: r.
Proof. intros [w1 w2 w3 _ _ _]. eexists. reflexivity. Qed.

Lemma skip_ws_member (w key value m rest : str) :
  blank w -> member_text key value m -> skip_ws (w ++ m ++ rest) = m ++ rest.
Proof.
  intros Hw Hm. rewrite skip_ws_blank by exact Hw.
  destruct (member_head rest Hm) as [r ->]. reflexivity.
Qed.

Lemma scan_once_object (f d : nat) (w key value m rest : str) :
  blank w -> member_text key value m ->
  scan_once (S f) (S d) (LBRACE :: w ++ m ++ rest)
  = parse_object f d (m ++ rest) [].
Proof.
  intros Hw Hm. cbn [Json.scan_once].
  change ((LBRACE =? QUOTE)%N) with false.
  change ((LBRACE =? LBRACE)%N) with true. cbv iota.
  rewrite (skip_ws_member rest Hw Hm).
  destruct (member_head rest Hm) as [r ->].
  reflexivity.
Qed.

(** One member of an object and what follows it: the comma of the next
    member or the closing brace. *)
Lemma parse_object_member (f d k : nat) (key vt m : str) (v : json)
    (c4 : char) (rest : str) (acc : dict) :
  member_text key vt m ->
  (forall begin r, scanstring begin (key ++ QUOTE :: r) = Scanned key r) ->
  opens_value vt -> reads int_max_str_digits k vt v -> k <= d ->
  c4 = COMMA \/ c4 = RBRACE ->
  2 * length (m ++ c4 :: rest) < f ->
  parse_object (S f) d (m ++ c4 :: rest) acc
  = if (c4 =? RBRACE)%N
    then Some (Scanned (JDict (dict_set key v acc)) rest)
    else parse_object f d (skip_ws rest) (dict_set key v acc).
Proof.
  intros [w1 w2 w3 Hw1 Hw2 Hw3] Hkey Hvt Hread Hd Hc4 Hf.
  assert (Hend : ends_number c4 = true /\ is_whitespace c4 = false)
    by (destruct Hc4 as [-> | ->]; split; reflexivity).
  destruct Hend as [Hend Hws4].
  norm_app.
  destruct (@blank_then w3 c4 rest Hw3 Hend) as [c0 [rest0 [E Hc0]]].
  assert (Hlen : length (QUOTE :: key ++ QUOTE :: w1 ++ COLON :: w2 ++ vt
                           ++ w3 ++ c4 :: rest)
                 = 3 + length key + length w1 + length w2
                   + length (vt ++ w3 ++ c4 :: rest)).
  { norm_length_goal. lia. }
  cbn [Json.parse_object].
  change ((QUOTE =? QUOTE)%N) with true. cbv iota.
  rewrite Hkey.
  rewrite skip_ws_blank by exact Hw1. rewrite skip_ws_head by reflexivity.
  change ((COLON =? COLON)%N) with true. cbv iota.
  rewrite (skip_ws_value _ Hw2 Hvt).
  rewrite E in *. rewrite (Hread f d c0 rest0 Hd Hc0) by lia.
  rewrite <- E. cbv beta iota zeta.
  rewrite skip_ws_blank by exact Hw3. rewrite skip_ws_head by exact Hws4.
  destruct Hc4 as [-> | ->]; reflexivity.
Qed.

(** *** Items and the whole value *)

Lemma reads_string (s t : str) :
  string_text s t -> reads int_max_str_digits 0 t (JStr s).
Proof.
  intros H f d c0 rest _ _ Hf. destruct f as [|f]; [lia|].
  apply scan_once_string, H.
Qed.

Lemma reads_strings (l : list str) (t : str) :
  list_text string_text l t ->
  reads int_max_str_digits 1 t (JList (List.map JStr l)).
Proof. intros H f d c0 rest Hd _ Hf. apply scan_once_strings; assumption. Qed.

Lemma reads_null : reads int_max_str_digits 0 (u "null") JNull.
Proof. intros f d c0 rest _ _ Hf. destruct f as [|f]; [lia|]. reflexivity. Qed.

Lemma opens_null : opens_value (u "null").
Proof. eexists _, _. repeat split. Qed.

(** One member of an object, the text standing at its key. *)
Ltac member_step Hopen Hread :=
  erewrite parse_object_member;
    [ | eassumption | intros; reflexivity | exact Hopen | exact Hread
      | lia | auto | norm_length_goal; lia ].

(** The comma after a member, the blanks and the next key. *)
Ltac next_member Hw Hm :=
  change ((COMMA =? RBRACE)%N) with false; cbv iota;
  erewrite skip_ws_member; [ | exact Hw | exact Hm ].

Lemma scan_once_item_text (q : QuizItem) (t : str) :
  item_text q t -> int_converts int_max_str_digits (correct_index q) ->
  exists v,
    item_value q v
    /\ forall (f d : nat) (rest : str),
         2 <= d -> 2 * length (t ++ rest) < f ->
         scan_once f d (t ++ rest) = Some (Scanned v rest).
Proof.
  intros Ht Hint.
  destruct Ht as [tq tc w0 m1 w1 m2 w2 m3 te Hq Hc Hw0 Hw1 Hw2 Hm1 Hm2 Hm3 He].
  pose proof (reads_string Hq) as Rq. pose proof (reads_strings Hc) as Rc.
  pose proof (scan_once_int Hint) as Ri.
  pose proof (opens_string Hq) as Oq. pose proof (opens_list Hc) as Oc.
  pose proof (opens_int (correct_index q)) as Oi.
  remember (explanation q) as ex eqn:Eex.
  destruct He as [ | w m Hw Hm | e te' w m He Hw Hm].
  - exists (JDict [(u "question", JStr (question q));
                   (u "choices", JList (List.map JStr (choices q)));
                   (u "correct_index", JInt (correct_index q))]).
    split.
    { eexists. split; [reflexivity|]. unfold item_object. rewrite <- Eex.
      repeat split. left. reflexivity. }
    intros f d rest Hd Hf. norm_app. norm_length Hf.
    destruct d as [|d]; [lia|].
    do 4 (destruct f as [|f]; [exfalso; lia|]).
    erewrite scan_once_object; [ | exact Hw0 | exact Hm1 ].
    member_step Oq Rq. next_member Hw1 Hm2.
    member_step Oc Rc. next_member Hw2 Hm3.
    member_step Oi Ri. reflexivity.
  - exists (JDict [(u "question", JStr (question q));
                   (u "choices", JList (List.map JStr (choices q)));
                   (u "correct_index", JInt (correct_index q));
                   (u "explanation", JNull)]).
    split.
    { eexists. split; [reflexivity|]. unfold item_object. rewrite <- Eex.
      repeat split. right. reflexivity. }
    intros f d rest Hd Hf. norm_app. norm_length Hf.
    destruct d as [|d]; [lia|].
    do 5 (destruct f as [|f]; [exfalso; lia|]).
    erewrite scan_once_object; [ | exact Hw0 | exact Hm1 ].
    member_step Oq Rq. next_member Hw1 Hm2.
    member_step Oc Rc. next_member Hw2 Hm3.
    member_step Oi Ri. next_member Hw Hm.
    member_step opens_null reads_null. reflexivity.
  - pose proof (reads_string He) as Re. pose proof (opens_string He) as Oe.
    exists (JDict [(u "question", JStr (question q));
                   (u "choices", JList (List.map JStr (choices q)));
                   (u "correct_index", JInt (correct_index q));
                   (u "explanation", JStr e)]).
    split.
    { eexists. split; [reflexivity|]. unfold item_object. rewrite <- Eex.
      repeat split. }
    intros f d rest Hd Hf. norm_app. norm_length Hf.
    destruct d as [|d]; [lia|].
    do 5 (destruct f as [|f]; [exfalso; lia|]).
    erewrite scan_once_object; [ | exact Hw0 | exact Hm1 ].
    member_step Oq Rq. next_member Hw1 Hm2.
    member_step Oc Rc. next_member Hw2 Hm3.
    member_step Oi Ri. next_member Hw Hm.
    member_step Oe Re. reflexivity.
Qed.

Lemma scan_once_items (l : list QuizItem) (t : str) :
  list_text item_text l t ->
  Forall (fun q => int_converts int_max_str_digits (correct_index q)) l ->
  exists vs,
    Forall2 (fun v q => item_value q v) vs l
    /\ forall (f d : nat) (rest : str),
         match l with [] => 1 | _ :: _ => 3 end <= d ->
         2 * length (t ++ rest) < f ->
         scan_once f d (t ++ rest) = Some (Scanned (JList vs) rest).
Proof.
  apply scan_once_list_text.
  - intros q tq. apply opens_item.
  - intros q tq Hq Hgood.
    destruct (scan_once_item_text Hq Hgood) as [v [Hv Hscan]].
    exists v. split; [exact Hv|].
    intros f d c0 rest Hd _ Hf. apply Hscan; assumption.
Qed.

(** Every text of a value that the limits of the interpreter let through
    is read as an object that the validator turns into the value. *)
Lemma scan_once_value_text (r : PdfSummaryWithQuiz) (t : str) :
  value_text r t ->
  Forall (fun q => int_converts int_max_str_digits (correct_index q)) (quiz r) ->
  exists data,
    parse_obj data = Return r
    /\ forall (f d : nat) (rest : str),
         nesting r <= d -> 2 * length (t ++ rest) < f ->
         scan_once f d (t ++ rest) = Some (Scanned data rest).
Proof.
  intros Ht Hint.
  destruct Ht as [ts tq w0 m1 w1 m2 Hs Hq Hw0 Hw1 Hm1 Hm2].
  destruct (scan_once_items Hq Hint) as [vs [Hvs Hscan]].
  pose proof (reads_string Hs) as Rs. pose proof (opens_string Hs) as Os.
  pose proof (opens_list Hq) as Oq.
  exists (JDict [(u "summary", JStr (summary r)); (u "quiz", JList vs)]).
  split.
  { destruct r as [s qs]. apply parse_obj_object with (items := vs);
      [reflexivity | reflexivity | exact Hvs]. }
  intros f d rest Hd Hf.
  remember (match quiz r with [] => 1 | _ :: _ => 3 end) as k eqn:Ek.
  assert (Hk : S k <= d)
    by (unfold nesting in Hd; subst k; destruct (quiz r); lia).
  assert (Rq : reads int_max_str_digits k tq (JList vs))
    by (intros f' d' c0 rest' Hd' _ Hf'; apply Hscan; assumption).
  clear Ek Hscan.
  norm_app. norm_length Hf.
  destruct d as [|d]; [lia|].
  do 3 (destruct f as [|f]; [exfalso; lia|]).
  erewrite scan_once_object; [ | exact Hw0 | exact Hm1 ].
  member_step Os Rs. next_member Hw1 Hm2.
  member_step Oq Rq. reflexivity.
Qed.

(** The text of a value starts with a brace and ends with one. *)
Lemma value_text_shape (r : PdfSummaryWithQuiz) (t : str) :
  value_text r t -> exists middle, t = LBRACE :: middle ++ [RBRACE].
Proof.
  intros H. destruct H as [ts tq w0 m1 w1 m2 _ _ _ _ _ _].
  exists (w0 ++ m1 ++ COMMA :: w1 ++ m2). norm_app. reflexivity.
Qed.

Lemma is_whitespace_not_bom (c : char) :
  is_whitespace c = true -> (c =? BOM)%N = false.
Proof.
  unfold is_whitespace. intros H.
  repeat (apply orb_true_iff in H; destruct H as [H|H]);
    apply N.eqb_eq in H; subst c; reflexivity.
Qed.

(** [json.loads] on a text that holds one object between blanks, and
    something or nothing behind it. *)
Lemma json_loads_around (t middle : str) (data : json) (w tail : str) :
  t = LBRACE :: middle ->
  (forall (f : nat) (rest : str),
     2 * length (t ++ rest) < f ->
     scan_once f recursion_depth (t ++ rest) = Some (Scanned data rest)) ->
  blank w ->
  json_loads (w ++ t ++ tail)
  = match skip_ws tail with
    | [] => Return data
    | c :: r =>
        Raise (Malformed {| msg := Extra_data;
                            pos := length (w ++ t ++ tail) - length (c :: r) |})
    end.
Proof.
  intros Et Hscan Hw. unfold Json.json_loads.
  assert (Hbom : startswith (w ++ t ++ tail) [BOM] = false).
  { destruct w as [|c w'].
    - rewrite Et. reflexivity.
    - cbn [app startswith]. unfold blank in Hw. cbn [forallb] in Hw.
      apply andb_true_iff in Hw. destruct Hw as [Hc _].
      rewrite (is_whitespace_not_bom _ Hc). reflexivity. }
  rewrite Hbom, skip_ws_blank by exact Hw.
  assert (Hws : skip_ws (t ++ tail) = t ++ tail)
    by (rewrite Et; reflexivity).
  rewrite Hws, Hscan by (rewrite (length_app w); lia).
  reflexivity.
Qed.

Lemma skip_ws_only_blank (w : str) : blank w -> skip_ws w = [].
Proof.
  intros H. rewrite <- (app_nil_r w). rewrite skip_ws_blank by exact H.
  reflexivity.
Qed.

(** What [json.loads] makes of a text of a value, blanks around it: the
    object, or the refusal of what stands behind it. *)
Lemma json_loads_value_text (r : PdfSummaryWithQuiz) (t : str) :
  value_text r t -> nesting r <= recursion_depth ->
  Forall (fun q => int_converts int_max_str_digits (correct_index q)) (quiz r) ->
  exists data,
    parse_obj data = Return r
    /\ forall w1 w2,
         blank w1 -> blank w2 ->
         json_loads (w1 ++ t ++ w2) = Return data
         /\ forall c extra,
              is_whitespace c = false ->
              json_loads (w1 ++ t ++ w2 ++ c :: extra)
              = Raise (Malformed {| msg := Extra_data;
                                    pos := length (w1 ++ t ++ w2) |}).
Proof.
  intros Ht Hdepth Hint.
  destruct (scan_once_value_text Ht Hint) as [data [Hdata Hscan]].
  destruct (value_text_shape Ht) as [middle Et].
  exists data. split; [exact Hdata|].
  intros w1 w2 Hw1 Hw2.
  assert (Hs : forall (f : nat) (rest : str),
             2 * length (t ++ rest) < f ->
             scan_once f recursion_depth (t ++ rest) = Some (Scanned data rest))
    by (intros f rest Hf; apply Hscan; assumption).
  split.
  - rewrite (@json_loads_around t _ data w1 w2 Et Hs Hw1).
    rewrite (skip_ws_only_blank Hw2). reflexivity.
  - intros c extra Hc.
    rewrite (@json_loads_around t _ data w1 (w2 ++ c :: extra) Et Hs Hw1).
    rewrite skip_ws_blank by exact Hw2. rewrite skip_ws_head by exact Hc.
    f_equal. f_equal. f_equal. norm_length_goal. lia.
Qed.

(** The normalizer leaves a text alone that starts with a brace and ends
    with one. *)
Lemma normalize_response_braced (middle : str) :
  normalize_response (LBRACE :: middle ++ [RBRACE])
  = LBRACE :: middle ++ [RBRACE].
Proof.
  assert (Hstrip : strip (LBRACE :: middle ++ [RBRACE])
                   = LBRACE :: middle ++ [RBRACE]).
  { apply strip_with_fix.
    - reflexivity.
    - unfold last_kept.
      change (LBRACE :: middle ++ [RBRACE])
        with ((LBRACE :: middle) ++ [RBRACE]).
      rewrite rev_app_distr. reflexivity. }
  rewrite normalize_response_unfenced; rewrite Hstrip; reflexivity.
Qed.

(** *** The compact text *)

Lemma member_compact (key value : str) :
  member_text key value (QUOTE :: key ++ QUOTE :: COLON :: value).
Proof.
  pose proof (@member key value [] [] [] eq_refl eq_refl eq_refl) as H.
  cbn [app] in H. rewrite app_nil_r in H. exact H.
Qed.

Lemma encode_list_text {A} (elem : A -> str -> Prop) (enc : A -> str)
    (l : list A) :
  (forall a, elem a (enc a)) ->
  list_text elem l (encode_list (List.map enc l)).
Proof.
  intros H. unfold encode_list. destruct l as [|a l].
  - apply empty_list with (w := []). reflexivity.
  - apply full_list with (w := []); [reflexivity|].
    revert a. induction l as [|b l IH]; intros a.
    + cbn [List.map join_comma]. rewrite <- (app_nil_r (enc a)).
      apply last_element; [apply H | reflexivity].
    + change (join_comma (List.map enc (a :: b :: l)))
        with (enc a ++ [] ++ COMMA :: []
                ++ join_comma (List.map enc (b :: l))).
      apply next_element; [apply H | reflexivity | reflexivity | apply IH].
Qed.

Lemma encode_item_text (q : QuizItem) : item_text q (encode_item q).
Proof.
  pose proof (@item_written q (encode_str (question q))
                (encode_list (List.map encode_str (choices q)))
                [] _ [] _ [] _
                (match explanation q with
                 | Some e =>
                     COMMA :: [] ++ QUOTE :: u "explanation" ++ QUOTE :: COLON
                       :: encode_str e
                 | None => []
                 end)
                (encode_str_text (question q))
                (encode_list_text string_text encode_str (choices q)
                   encode_str_text)
                eq_refl eq_refl eq_refl
                (member_compact _ _) (member_compact _ _) (member_compact _ _))
    as H.
  assert (E : encode_item q
              = LBRACE :: [] ++ (QUOTE :: u "question" ++ QUOTE :: COLON
                                   :: encode_str (question q))
                  ++ COMMA :: [] ++ (QUOTE :: u "choices" ++ QUOTE :: COLON
                       :: encode_list (List.map encode_str (choices q)))
                  ++ COMMA :: [] ++ (QUOTE :: u "correct_index" ++ QUOTE :: COLON
                       :: encode_int (correct_index q))
                  ++ match explanation q with
                     | Some e =>
                         COMMA :: [] ++ QUOTE :: u "explanation" ++ QUOTE
                           :: COLON :: encode_str e
                     | None => []
                     end ++ [RBRACE]).
  { unfold encode_item. destruct (explanation q); norm_app; reflexivity. }
  rewrite E. apply H.
  destruct (explanation q) as [e|].
  - apply explanation_given with (te := encode_str e);
      [apply encode_str_text | reflexivity | apply member_compact].
  - apply explanation_left_out.
Qed.

(** The text [encode] writes is one of the texts of the value. *)
Lemma encode_value_text (r : PdfSummaryWithQuiz) : value_text r (encode r).
Proof.
  pose proof (@value_written r (encode_str (summary r))
                (encode_list (List.map encode_item (quiz r)))
                [] _ [] _
                (encode_str_text (summary r))
                (encode_list_text item_text encode_item (quiz r)
                   encode_item_text)
                eq_refl eq_refl
                (member_compact _ _) (member_compact _ _))
    as H.
  assert (E : encode r
              = LBRACE :: [] ++ (QUOTE :: u "summary" ++ QUOTE :: COLON
                                   :: encode_str (summary r))
                  ++ COMMA :: [] ++ (QUOTE :: u "quiz" ++ QUOTE :: COLON
                       :: encode_list (List.map encode_item (quiz r)))
                  ++ [RBRACE]).
  { unfold encode. norm_app. reflexivity. }
  rewrite E. exact H.
Qed.

(** What the pipeline makes of a decoded and validated response. *)
Lemma extract_of_value (text : str) (data : json) (r : PdfSummaryWithQuiz) :
  json_loads (normalize_response text) = Return data ->
  parse_obj data = Return r ->
  extract_summary_with_quiz (Text (Some text)) = Return r.
Proof.
  intros Hj Hp. unfold Pipeline.extract_summary_with_quiz.
  rewrite Hj, Hp. reflexivity.
Qed.


(** The object of a value is validated into the value. *)
Lemma item_json_value (q : QuizItem) : item_value q (item_json q).
Proof.
  unfold item_value, item_json. eexists. split; [reflexivity|].
  unfold item_object. destruct q as [qn cs ci [e|]]; cbn; auto.
Qed.

Lemma parse_obj_value_json (r : PdfSummaryWithQuiz) :
  parse_obj (value_json r) = Return r.
Proof.
  destruct r as [s qs]. unfold value_json. cbn [summary quiz].
  apply parse_obj_object with (items := List.map item_json qs).
  - reflexivity.
  - reflexivity.
  - induction qs as [|q qs IH]; cbn [List.map]; constructor;
      [apply item_json_value | exact IH].
Qed.

(** The digits of a power of ten. *)
Lemma encode_int_pow10 (k : nat) :
  encode_int (10 ^ Z.of_nat k) = 0x31%N :: repeat 0x30%N k.
Proof.
  unfold encode_int.
  replace (10 ^ Z.of_nat k <? 0)%Z with false
    by (symmetry; apply Z.ltb_ge, Z.pow_nonneg; discriminate).
  rewrite Z2N.inj_pow by (try apply Nat2Z.is_nonneg; discriminate).
  rewrite <- nat_N_Z, N2Z.id. apply digits_pow10.
Qed.


End Properties.

(** * Runs on stub collaborators

    The theorems above applied to the stubs, under the limits the
    interpreter starts with. *)


Lemma C2_validator_permissive_witness :
  summarize_and_quiz_pdf_bytes no_conversion no_conversion
    default_max_str_digits default_depth
    (model_answers out_of_range_response) [] 3
  = Return {| summary := u "s"; quiz := [out_of_range_item] |}.
Proof.
  apply (proj2 (@C2_validator_permissive no_conversion no_conversion
                  default_max_str_digits default_depth
                  (model_answers out_of_range_response)) [] 3%Z).
  - unfold default_depth. lia.
  - reflexivity.
Defined.

Lemma C5_malformed_response_witness :
  let raw_text := normalize_response malformed_response in
  let snippet := slice_to 300 raw_text in
  summarize_and_quiz_pdf_bytes no_conversion no_conversion
    default_max_str_digits default_depth
    (model_answers malformed_response) [] 5
  = Raise (MalformedResponse {| msg := Expecting_value; pos := 26 |} snippet)
  /\ (forall pdf_url,
        _download_pdf (server_answers 200 []) pdf_url = Return [] ->
        summarize_and_quiz_pdf_from_url no_conversion no_conversion
          default_max_str_digits default_depth
          (model_answers malformed_response) (server_answers 200 [])
          pdf_url 5
        = Raise (MalformedResponse {| msg := Expecting_value; pos := 26 |}
                   snippet))
  /\ length snippet = Nat.min 300 (length raw_text)
  /\ raw_text = snippet ++ slice_from 300 raw_text.
Proof.
  intros raw_text snippet.
  destruct (@C5_malformed_response no_conversion no_conversion
              default_max_str_digits default_depth
              (model_answers malformed_response) (server_answers 200 [])
              [] 5%Z malformed_response eq_refl)
    as [H1 [_ [_ [H4 [H5 _]]]]].
  destruct (H1 {| msg := Expecting_value; pos := 26 |}) as [Hb Hu].
  - vm_compute. reflexivity.
  - repeat split; assumption.
Defined.

(** C5, refuted as stated.  The malformed text of section 8 of the
    specification has 27 characters, and the diagnostic carries all of
    it: the snippet is the full text whenever the text has at most 300
    characters.  A text with the constant [NaN] is no JSON text, and the
    pipeline returns a value for it.  A text that nests more arrays than
    the interpreter nests calls, and one integer of 4301 digits, are not
    reported as malformed responses but as generation failures. *)
Lemma C5_malformed_response_counterexample :
  summarize_and_quiz_pdf_bytes no_conversion no_conversion
    default_max_str_digits default_depth
    (model_answers malformed_response) [] 5
  = Raise (MalformedResponse {| msg := Expecting_value; pos := 26 |}
             malformed_response)
  /\ length malformed_response = 27
  /\ summarize_and_quiz_pdf_bytes no_conversion no_conversion
       default_max_str_digits default_depth
       (model_answers nan_response) [] 5
     = Return {| summary := u "s"; quiz := [] |}
  /\ summarize_and_quiz_pdf_bytes no_conversion no_conversion
       default_max_str_digits default_depth
       (model_answers deep_response) [] 5
     = Raise (GenerationFailure RecursionError)
  /\ summarize_and_quiz_pdf_bytes no_conversion no_conversion
       default_max_str_digits default_depth
       (model_answers long_number_response) [] 5
     = Raise (GenerationFailure ValueError).
Proof. repeat split; vm_compute; reflexivity. Qed.


(** The text [escaped_response] writes [escaped_value]. *)
Lemma escaped_response_text : value_text escaped_value escaped_response.
Proof.
  assert (Hs : string_text (summary escaped_value) (uq "'a\nb\ud83d\uDE00'")).
  { apply (@quoted _ (u "a\nb\ud83d\uDE00")).
    apply (@body_char _ _ (u "a") (u "\nb\ud83d\uDE00"));
      [apply written_plain; reflexivity|].
    apply (@body_char _ _ (u "\n") (u "b\ud83d\uDE00"));
      [apply written_escaped; reflexivity|].
    apply (@body_char _ _ (u "b") (u "\ud83d\uDE00"));
      [apply written_plain; reflexivity|].
    apply (@body_char _ _ (u "\ud83d\uDE00") []);
      [|apply body_end].
    apply (@written_pair 0x64 0x38 0x33 0x64 0x44 0x45 0x30 0x30
             0xD83D 0xDE00)%N; reflexivity. }
  assert (Hq : string_text (u "q") (uq "'q'")) by apply (encode_str_text (u "q")).
  assert (Hx : string_text (u "x") (uq "'x'")) by apply (encode_str_text (u "x")).
  assert (Hy : string_text [0x79; 0xE9]%N (uq "'y\u00e9'")).
  { apply (@quoted _ (u "y\u00e9")).
    apply (@body_char _ _ (u "y") (u "\u00e9"));
      [apply written_plain; reflexivity|].
    apply (@body_char _ _ (u "\u00e9") []); [|apply body_end].
    apply (@written_hex 0x30 0x30 0x65 0x39 0xE9)%N; reflexivity. }
  assert (Hc : list_text string_text [u "x"; [0x79; 0xE9]%N]
                 (uq "[ 'x' , 'y\u00e9' ]")).
  { apply (@full_list _ string_text _ (u " ") (uq "'x' , 'y\u00e9' "));
      [reflexivity|].
    apply (@next_element _ string_text (u "x") _ (uq "'x'") (u " ") (u " ")
             (uq "'y\u00e9' ")); [exact Hx | reflexivity | reflexivity |].
    apply (@last_element _ string_text _ (uq "'y\u00e9'") (u " "));
      [exact Hy | reflexivity]. }
  assert (Hi : item_text
                 {| question := u "q"; choices := [u "x"; [0x79; 0xE9]%N];
                    correct_index := -7; explanation := None |}
                 (uq "{ 'question' : 'q', 'choices' : [ 'x' , 'y\u00e9' ], 'correct_index' : -7, 'explanation' : null }")).
  { apply (@item_written _ (uq "'q'") (uq "[ 'x' , 'y\u00e9' ]")
             (u " ") (uq "'question' : 'q'") (u " ")
             (uq "'choices' : [ 'x' , 'y\u00e9' ]") (u " ")
             (uq "'correct_index' : -7")
             (uq ", 'explanation' : null "));
      try reflexivity; try assumption.
    - apply (@member (u "question") (uq "'q'") (u " ") (u " ") []);
        reflexivity.
    - apply (@member (u "choices") (uq "[ 'x' , 'y\u00e9' ]") (u " ") (u " ")
               []); reflexivity.
    - apply (@member (u "correct_index") (u "-7") (u " ") (u " ") []);
        reflexivity.
    - apply (@explanation_null (u " ") (uq "'explanation' : null "));
        [reflexivity|].
      apply (@member (u "explanation") (u "null") (u " ") (u " ") (u " "));
        reflexivity. }
  apply (@value_written escaped_value (uq "'a\nb\ud83d\uDE00'")
           (uq "[ { 'question' : 'q', 'choices' : [ 'x' , 'y\u00e9' ], 'correct_index' : -7, 'explanation' : null } ]")
           (u " ") (uq "'summary' : 'a\nb\ud83d\uDE00' ") (u " ")
           (uq "'quiz' : [ { 'question' : 'q', 'choices' : [ 'x' , 'y\u00e9' ], 'correct_index' : -7, 'explanation' : null } ] "));
    try reflexivity; try assumption.
  - apply (@full_list _ item_text _ (u " ")
             (uq "{ 'question' : 'q', 'choices' : [ 'x' , 'y\u00e9' ], 'correct_index' : -7, 'explanation' : null } ")); [reflexivity|].
    apply (@last_element _ item_text _
             (uq "{ 'question' : 'q', 'choices' : [ 'x' , 'y\u00e9' ], 'correct_index' : -7, 'explanation' : null }")
             (u " ")); [exact Hi | reflexivity].
  - apply (@member (u "summary") (uq "'a\nb\ud83d\uDE00'")
             (u " ") (u " ") (u " ")); reflexivity.
  - apply (@member (u "quiz")
             (uq "[ { 'question' : 'q', 'choices' : [ 'x' , 'y\u00e9' ], 'correct_index' : -7, 'explanation' : null } ]")
             (u " ") (u " ") (u " ")); reflexivity.
Qed.


(** The text of [long_index_value]: its index is a one and 4300 zeros. *)
Lemma long_index_response_text :
  encode long_index_value = long_index_response.
Proof.
  unfold encode, long_index_value, long_index_response, encode_item.
  cbn [summary quiz question choices correct_index explanation List.map].
  unfold long_index. rewrite encode_int_pow10.
  repeat first [progress cbn [app] | rewrite <- app_assoc]. reflexivity.
Qed.


Lemma C8_download_failure_witness :
  _download_pdf (server_answers 404 []) (u " http://host/a.pdf ")
  = Raise (DownloadFailure (u "http://host/a.pdf") (HTTPStatusError 404))
  /\ _download_pdf no_route (u " http://host/a.pdf ")
     = Raise (DownloadFailure (u "http://host/a.pdf")
                (OtherException (u "ConnectError"))).
Proof.
  split.
  - apply (proj1 (proj2 (@C8_download_failure no_conversion no_conversion
                           default_max_str_digits default_depth
                           (model_answers []) (server_answers 404 [])
                           (u " http://host/a.pdf "))) 404%Z []);
      reflexivity.
  - apply (proj1 (@C8_download_failure no_conversion no_conversion
                    default_max_str_digits default_depth
                    (model_answers []) no_route (u " http://host/a.pdf ")));
      reflexivity.
Defined.



Lemma C10_summary_verbatim_witness :
  summarize_pdf_from_url (model_answers untidy_summary) (server_answers 200 [])
    (u "http://host/a.pdf") (u "summarize")
  = Return {| summary_text := untidy_summary |}.
Proof.
  apply (@C10_summary_verbatim (model_answers untidy_summary)
           (server_answers 200 []) (u "http://host/a.pdf") (u "summarize")
           [] untidy_summary);
    reflexivity.
Defined.


(** * Further properties *)

(** ** Stripping a padded text *)

Section PaddingFacts.

Variable p : char -> bool.

Lemma lstrip_with_all (ws s : str) :
  forallb p ws = true -> lstrip_with p (ws ++ s) = lstrip_with p s.
Proof.
  induction ws as [|c ws IH]; intros H; [reflexivity|].
  cbn [forallb] in H. apply andb_true_iff in H. destruct H as [Hc Hws].
  cbn [app lstrip_with]. rewrite Hc. apply IH, Hws.
Qed.

Lemma forallb_rev (l : str) : forallb p l = true -> forallb p (rev l) = true.
Proof.
  rewrite !forallb_forall. intros H x Hx. apply H, in_rev, Hx.
Qed.

Lemma rstrip_with_all (s ws : str) :
  forallb p ws = true -> rstrip_with p (s ++ ws) = rstrip_with p s.
Proof.
  intros H. unfold rstrip_with. rewrite rev_app_distr.
  rewrite lstrip_with_all by (apply forallb_rev, H). reflexivity.
Qed.

(** A core whose two ends are kept comes back out of its padding. *)
Lemma strip_with_padded (a core b : str) :
  forallb p a = true -> forallb p b = true ->
  head_kept p core -> last_kept p core ->
  strip_with p (a ++ core ++ b) = core.
Proof.
  intros Ha Hb Hh Hl. unfold strip_with.
  rewrite lstrip_with_all by exact Ha.
  destruct core as [|c t].
  - cbn [app]. rewrite <- (app_nil_r b), lstrip_with_all by exact Hb.
    reflexivity.
  - assert (Hfix : lstrip_with p ((c :: t) ++ b) = (c :: t) ++ b).
    { cbn [app lstrip_with]. simpl in Hh. rewrite Hh. reflexivity. }
    rewrite Hfix, rstrip_with_all by exact Hb.
    apply rstrip_with_fix, Hl.
Qed.

Lemma strip_with_all (ws : str) : forallb p ws = true -> strip_with p ws = [].
Proof.
  intros H.
  pose proof (@strip_with_padded ws [] [] H eq_refl I I) as Hp.
  cbn [app] in Hp. rewrite app_nil_r in Hp. exact Hp.
Qed.

Lemma last_kept_app (a b : str) :
  last_kept p b -> (b = [] -> last_kept p a) -> last_kept p (a ++ b).
Proof.
  unfold last_kept. rewrite rev_app_distr. intros Hb Ha.
  destruct b as [|x b'] using rev_ind.
  - cbn [rev app]. apply Ha. reflexivity.
  - rewrite rev_app_distr in *. cbn [rev app] in *. exact Hb.
Qed.

End PaddingFacts.


(** ** What the normalizer removes and what it keeps *)

Lemma isspace_range (c : char) :
  isspace c = true -> (c <= 0x20 \/ 0x85 <= c)%N.
Proof.
  unfold isspace. intros H.
  repeat match type of H with
         | (_ || _)%bool = true => apply orb_true_iff in H; destruct H as [H|H]
         end;
    try (apply andb_true_iff in H; destruct H as [H1 H2];
         apply N.leb_le in H1, H2);
    try apply N.eqb_eq in H; lia.
Qed.

Lemma isspace_not_backtick (c : char) :
  isspace c = true -> is_backtick c = false.
Proof.
  intros H. apply isspace_range in H. unfold is_backtick, BACKTICK.
  cbn [existsb]. rewrite orb_false_r. apply N.eqb_neq. lia.
Qed.

Lemma is_backtick_eq (c : char) : is_backtick c = true -> c = BACKTICK.
Proof.
  unfold is_backtick. cbn [existsb]. rewrite orb_false_r. apply N.eqb_eq.
Qed.

Lemma backticks_not_space (l : str) :
  forallb is_backtick l = true -> head_kept isspace l /\ last_kept isspace l.
Proof.
  intros H.
  assert (Hh : forall l', forallb is_backtick l' = true -> head_kept isspace l').
  { intros [|c l'] Hl; [exact I|]. cbn [forallb] in Hl.
    apply andb_true_iff in Hl. destruct Hl as [Hc _].
    apply is_backtick_eq in Hc. subst c. reflexivity. }
  split; [apply Hh, H|]. unfold last_kept. apply Hh, forallb_rev, H.
Qed.

Lemma startswith_split (s lit : str) :
  startswith s lit = true -> s = lit ++ skipn (length lit) s.
Proof.
  revert s. induction lit as [|x lit IH]; intros s H; [reflexivity|].
  destruct s as [|c s]; [discriminate H|].
  cbn [startswith] in H. apply andb_true_iff in H. destruct H as [Hc Hs].
  apply N.eqb_eq in Hc. subst c. cbn [length skipn app]. f_equal.
  apply IH, Hs.
Qed.

Lemma forallb_Forall_space (l : str) :
  forallb isspace l = true -> Forall (fun c => isspace c = true) l.
Proof. intros H. apply Forall_forall. apply forallb_forall. exact H. Qed.

(** X1: the result of the normalizer is one contiguous part of the
    response; in front of it only whitespace, backticks and the tag
    [json] are dropped, behind it only whitespace and backticks.  So the
    result is never longer than the response and no character is
    changed, added or reordered. *)
Theorem X1_normalizer_keeps_a_contiguous_part (text : str) :
  exists before after,
    text = before ++ normalize_response text ++ after
    /\ Forall removable_before before
    /\ Forall removable_after after
    /\ length (normalize_response text) <= length text.
Proof.
  assert (Hlen : forall a b c d : str, a = (b ++ c) ++ d -> length c <= length a)
    by (intros a b c d ->; repeat rewrite length_app; lia).
  assert (Hsp : forall l, forallb isspace l = true -> Forall removable_before l
                          /\ Forall removable_after l).
  { intros l Hl. apply forallb_Forall_space in Hl.
    split; eapply Forall_impl; try exact Hl; intros c Hc;
      unfold removable_before, removable_after; auto. }
  assert (Hbt : forall l, forallb is_backtick l = true ->
                          Forall removable_before l /\ Forall removable_after l).
  { intros l Hl.
    assert (Hall : Forall (fun c => c = BACKTICK) l).
    { apply Forall_forall. intros c Hc. apply is_backtick_eq.
      rewrite forallb_forall in Hl. apply Hl, Hc. }
    split; eapply Forall_impl; try exact Hall; intros c Hc;
      unfold removable_before, removable_after; auto. }
  destruct (strip_with_split isspace text) as [a1 [b1 [E1 [Fa1 Fb1]]]].
  fold (strip text) in E1.
  unfold normalize_response, slice_from.
  remember (strip text) as A eqn:HA. clear HA.
  destruct (startswith A FENCE).
  - destruct (strip_with_split is_backtick A) as [a2 [b2 [E2 [Fa2 Fb2]]]].
    change (strip_with is_backtick A) with (strip_chars [BACKTICK] A) in E2.
    remember (strip_chars [BACKTICK] A) as B eqn:HB. clear HB.
    destruct (startswith B (u "json")) eqn:Hj.
    + pose proof (startswith_split _ _ Hj) as E3.
      change (length (u "json")) with 4 in E3.
      destruct (strip_with_split isspace (skipn 4 B))
        as [a4 [b4 [E4 [Fa4 Fb4]]]].
      fold (strip (skipn 4 B)) in E4.
      remember (strip (skipn 4 B)) as D eqn:HD. clear HD.
      remember (skipn 4 B) as C eqn:HC. clear HC.
      assert (E : text = (a1 ++ a2 ++ u "json" ++ a4) ++ D ++ (b4 ++ b2 ++ b1)).
      { rewrite E1, E2, E3, E4. repeat rewrite <- app_assoc. reflexivity. }
      exists (a1 ++ a2 ++ u "json" ++ a4), (b4 ++ b2 ++ b1).
      split; [exact E|]. split; [|split].
      * repeat (apply Forall_app; split);
          try (apply Hsp; assumption); try (apply Hbt; assumption).
        apply Forall_forall. intros c Hc. right. right. exact Hc.
      * repeat (apply Forall_app; split);
          try (apply Hsp; assumption); try (apply Hbt; assumption).
      * eapply Hlen. rewrite E. rewrite app_assoc. reflexivity.
    + assert (E : text = (a1 ++ a2) ++ B ++ (b2 ++ b1)).
      { rewrite E1, E2. repeat rewrite <- app_assoc. reflexivity. }
      exists (a1 ++ a2), (b2 ++ b1).
      split; [exact E|]. split; [|split].
      * repeat (apply Forall_app; split);
          try (apply Hsp; assumption); try (apply Hbt; assumption).
      * repeat (apply Forall_app; split);
          try (apply Hsp; assumption); try (apply Hbt; assumption).
      * eapply Hlen. rewrite E. rewrite app_assoc. reflexivity.
  - exists a1, b1. split; [exact E1|]. split; [|split].
    + apply Hsp, Fa1.
    + apply Hsp, Fb1.
    + eapply Hlen. rewrite E1. rewrite app_assoc. reflexivity.
Qed.


(** ** Unwrapping a fenced payload *)

Section AffixFacts.

Variable p : char -> bool.

Lemma lstrip_with_app (s b : str) :
  lstrip_with p (s ++ b)
  = if forallb p s then lstrip_with p b else lstrip_with p s ++ b.
Proof.
  induction s as [|c s IH]; [reflexivity|].
  cbn [app lstrip_with forallb]. destruct (p c); cbn [andb]; [exact IH|].
  reflexivity.
Qed.

Lemma lstrip_with_nil (ws : str) : forallb p ws = true -> lstrip_with p ws = [].
Proof.
  intros H. rewrite <- (app_nil_r ws), lstrip_with_all by exact H. reflexivity.
Qed.

(** Padding at either end does not change what [strip] returns. *)
Lemma strip_with_app_l (a s : str) :
  forallb p a = true -> strip_with p (a ++ s) = strip_with p s.
Proof.
  intros H. unfold strip_with. rewrite lstrip_with_all by exact H. reflexivity.
Qed.

Lemma strip_with_app_r (s b : str) :
  forallb p b = true -> strip_with p (s ++ b) = strip_with p s.
Proof.
  intros H. unfold strip_with. rewrite lstrip_with_app.
  destruct (forallb p s) eqn:Hs.
  - rewrite !lstrip_with_nil by assumption. reflexivity.
  - apply rstrip_with_all, H.
Qed.

(** A front part that ends in a kept character stays in place. *)
Lemma rstrip_with_app (a s : str) :
  last_kept p a -> rstrip_with p (a ++ s) = a ++ rstrip_with p s.
Proof.
  intros Ha. unfold rstrip_with. rewrite rev_app_distr, lstrip_with_app.
  destruct (forallb p (rev s)) eqn:Hs.
  - rewrite (lstrip_with_nil (rev s)) by exact Hs. cbn [rev]. rewrite app_nil_r.
    rewrite lstrip_with_fix by exact Ha. apply rev_involutive.
  - rewrite rev_app_distr, rev_involutive. reflexivity.
Qed.

Lemma strip_with_front (a s : str) :
  a <> [] -> head_kept p a -> last_kept p a ->
  strip_with p (a ++ s) = a ++ rstrip_with p s.
Proof.
  intros Hne Hh Hl. unfold strip_with.
  destruct a as [|c a']; [contradiction Hne; reflexivity|].
  assert (Hfix : lstrip_with p ((c :: a') ++ s) = (c :: a') ++ s).
  { cbn [app lstrip_with]. simpl in Hh. rewrite Hh. reflexivity. }
  rewrite Hfix. apply rstrip_with_app, Hl.
Qed.

End AffixFacts.

Lemma startswith_app (lit r : str) : startswith (lit ++ r) lit = true.
Proof.
  induction lit as [|x lit IH]; [destruct r; reflexivity|].
  cbn [app startswith]. rewrite N.eqb_refl. exact IH.
Qed.

Lemma spaces_not_backtick (l : str) :
  forallb isspace l = true -> last_kept is_backtick l.
Proof.
  intros H. unfold last_kept.
  assert (Hr : forallb isspace (rev l) = true) by (apply forallb_rev, H).
  destruct (rev l) as [|c t]; [exact I|].
  cbn [forallb] in Hr. apply andb_true_iff in Hr. destruct Hr as [Hc _].
  apply isspace_not_backtick, Hc.
Qed.

Lemma last_kept_snoc (p : char -> bool) (a : str) (c : char) :
  p c = false -> last_kept p (a ++ [c]).
Proof.
  intros H. unfold last_kept. rewrite rev_app_distr. exact H.
Qed.

(** What is left of the text behind the tag once the closing fence and
    the blanks around it are gone. *)
Lemma tagged_tail (ws1 payload ws2 t2 : str) :
  forallb isspace ws1 = true -> forallb isspace ws2 = true ->
  forallb is_backtick t2 = true ->
  head_kept isspace payload -> last_kept isspace payload ->
  last_kept is_backtick payload ->
  strip (rstrip_with is_backtick
           (rstrip_with isspace (ws1 ++ payload ++ ws2 ++ t2)))
  = payload.
Proof.
  intros H1 H2 Ht Hh Hl Hb.
  assert (Hkeep : forall w, forallb isspace w = true ->
            strip (rstrip_with is_backtick (ws1 ++ payload ++ w)) = payload).
  { intros w Hw. rewrite rstrip_with_fix.
    - apply strip_with_padded; assumption.
    - rewrite app_assoc. apply last_kept_app; [apply spaces_not_backtick, Hw|].
      intros _. apply last_kept_app; [exact Hb|].
      intros _. apply spaces_not_backtick, H1. }
  destruct t2 as [|c t2'] using rev_ind.
  - rewrite app_nil_r.
    replace (ws1 ++ payload ++ ws2) with ((ws1 ++ payload) ++ ws2)
      by (symmetry; apply app_assoc).
    rewrite rstrip_with_all by exact H2.
    destruct payload as [|x q].
    + rewrite app_nil_r.
      assert (E : rstrip_with isspace ws1 = []).
      { unfold rstrip_with.
        rewrite lstrip_with_nil by (apply forallb_rev, H1). reflexivity. }
      rewrite E. reflexivity.
    + rewrite (@rstrip_with_fix isspace (ws1 ++ x :: q)).
      * specialize (Hkeep [] eq_refl). rewrite app_nil_r in Hkeep. exact Hkeep.
      * apply last_kept_app; [exact Hl|]. intros E. discriminate E.
  - assert (Hc : is_backtick c = true).
    { rewrite forallb_app in Ht. apply andb_true_iff in Ht.
      destruct Ht as [_ Ht]. cbn [forallb] in Ht.
      apply andb_true_iff in Ht. apply Ht. }
    rewrite (@rstrip_with_fix isspace).
    + replace (ws1 ++ payload ++ ws2 ++ t2' ++ [c])
        with ((ws1 ++ payload ++ ws2) ++ (t2' ++ [c]))
        by (repeat rewrite <- app_assoc; reflexivity).
      rewrite rstrip_with_all by exact Ht. apply Hkeep, H2.
    + replace (ws1 ++ payload ++ ws2 ++ t2' ++ [c])
        with ((ws1 ++ payload ++ ws2 ++ t2') ++ [c])
        by (repeat rewrite <- app_assoc; reflexivity).
      apply last_kept_snoc. apply is_backtick_eq in Hc. subst c. reflexivity.
Qed.

Lemma normalize_response_tagged (ws0 t1 ws1 payload ws2 t2 ws3 : str) :
  forallb isspace ws0 = true -> forallb isspace ws1 = true ->
  forallb isspace ws2 = true -> forallb isspace ws3 = true ->
  forallb is_backtick t1 = true -> forallb is_backtick t2 = true ->
  head_kept isspace payload -> last_kept isspace payload ->
  last_kept is_backtick payload ->
  normalize_response
    (ws0 ++ FENCE ++ t1 ++ u "json" ++ ws1 ++ payload ++ ws2 ++ t2 ++ ws3)
  = payload.
Proof.
  intros H0 H1 H2 H3 Ht1 Ht2 Hh Hl Hb.
  set (Z := ws1 ++ payload ++ ws2 ++ t2).
  assert (HA : strip (ws0 ++ FENCE ++ t1 ++ u "json" ++ ws1 ++ payload ++ ws2
                        ++ t2 ++ ws3)
               = (FENCE ++ t1 ++ u "json") ++ rstrip_with isspace Z).
  { unfold strip. rewrite strip_with_app_l by exact H0.
    replace (FENCE ++ t1 ++ u "json" ++ ws1 ++ payload ++ ws2 ++ t2 ++ ws3)
      with (((FENCE ++ t1 ++ u "json") ++ Z) ++ ws3)
      by (unfold Z; repeat rewrite <- app_assoc; reflexivity).
    rewrite strip_with_app_r by exact H3.
    apply strip_with_front.
    - discriminate.
    - reflexivity.
    - rewrite app_assoc. apply last_kept_app; [reflexivity|].
      intros E. discriminate E. }
  unfold normalize_response. rewrite HA. clear HA.
  repeat rewrite <- app_assoc. rewrite startswith_app.
  assert (HB : strip_chars [BACKTICK]
                 (FENCE ++ t1 ++ u "json" ++ rstrip_with isspace Z)
               = u "json" ++ rstrip_with is_backtick (rstrip_with isspace Z)).
  { change (strip_chars [BACKTICK]) with (strip_with is_backtick).
    repeat rewrite app_assoc. repeat rewrite <- app_assoc.
    rewrite (app_assoc FENCE t1).
    rewrite strip_with_app_l
      by (rewrite forallb_app; rewrite Ht1; reflexivity).
    apply strip_with_front; [discriminate|reflexivity|reflexivity]. }
  cbv zeta. rewrite HB. clear HB.
  rewrite startswith_app.
  change (slice_from 4 (u "json" ++ rstrip_with is_backtick (rstrip_with isspace Z)))
    with (rstrip_with is_backtick (rstrip_with isspace Z)).
  apply tagged_tail; assumption.
Qed.

Lemma normalize_response_untagged (ws0 t1 payload t2 ws3 : str) :
  forallb isspace ws0 = true -> forallb isspace ws3 = true ->
  forallb is_backtick t1 = true -> forallb is_backtick t2 = true ->
  t2 <> [] ->
  head_kept is_backtick payload -> last_kept is_backtick payload ->
  startswith payload (u "json") = false ->
  normalize_response (ws0 ++ FENCE ++ t1 ++ payload ++ t2 ++ ws3) = payload.
Proof.
  intros H0 H3 Ht1 Ht2 Hne Hh Hl Hj.
  assert (HA : strip (ws0 ++ FENCE ++ t1 ++ payload ++ t2 ++ ws3)
               = (FENCE ++ t1) ++ payload ++ t2).
  { replace (ws0 ++ FENCE ++ t1 ++ payload ++ t2 ++ ws3)
      with (ws0 ++ ((FENCE ++ t1) ++ payload ++ t2) ++ ws3)
      by (repeat rewrite <- app_assoc; reflexivity).
    apply strip_with_padded; [exact H0|exact H3|reflexivity|].
    rewrite app_assoc. apply last_kept_app.
    - apply backticks_not_space, Ht2.
    - intros E. contradiction (Hne E). }
  unfold normalize_response. rewrite HA. clear HA.
  repeat rewrite <- app_assoc. rewrite startswith_app.
  rewrite (app_assoc FENCE t1).
  change (strip_chars [BACKTICK]) with (strip_with is_backtick).
  rewrite strip_with_padded by assumption.
  rewrite Hj. reflexivity.
Qed.

(** X2: a payload that the model wraps in a fence with the tag [json] is
    returned exactly: blanks before the fence, between tag and payload,
    between payload and closing fence and after it are dropped, the fences
    may be longer than three backticks and the closing fence may be
    absent.  The payload is any text that neither begins nor ends with a
    blank and does not end with a backtick. *)
Theorem X2_tagged_fence_unwrapped (ws0 t1 ws1 payload ws2 t2 ws3 : str) :
  forallb isspace (ws0 ++ ws1 ++ ws2 ++ ws3) = true ->
  forallb is_backtick (t1 ++ t2) = true ->
  head_kept isspace payload -> last_kept isspace payload ->
  last_kept is_backtick payload ->
  normalize_response
    (ws0 ++ FENCE ++ t1 ++ u "json" ++ ws1 ++ payload ++ ws2 ++ t2 ++ ws3)
  = payload.
Proof.
  intros Hws Ht. repeat rewrite forallb_app in Hws. rewrite forallb_app in Ht.
  repeat (apply andb_true_iff in Hws; destruct Hws as [? Hws]).
  apply andb_true_iff in Ht. destruct Ht as [? ?].
  apply normalize_response_tagged; assumption.
Qed.

(** X3: behind a fence without tag the payload is returned as it stands
    between the fences, blanks at its ends included: only the tagged form
    is trimmed again. *)
Theorem X3_untagged_fence_unwrapped (ws0 t1 payload t2 ws3 : str) :
  forallb isspace (ws0 ++ ws3) = true ->
  forallb is_backtick (t1 ++ t2) = true ->
  t2 <> [] ->
  head_kept is_backtick payload -> last_kept is_backtick payload ->
  startswith payload (u "json") = false ->
  normalize_response (ws0 ++ FENCE ++ t1 ++ payload ++ t2 ++ ws3) = payload.
Proof.
  intros Hws Ht. rewrite forallb_app in Hws, Ht.
  apply andb_true_iff in Hws. destruct Hws as [? ?].
  apply andb_true_iff in Ht. destruct Ht as [? ?].
  apply normalize_response_untagged; assumption.
Qed.


(** ** The decoder on text around the object *)

Lemma is_whitespace_isspace (c : char) :
  is_whitespace c = true -> isspace c = true.
Proof.
  unfold is_whitespace. intros H.
  repeat (apply orb_true_iff in H; destruct H as [H|H]);
    apply N.eqb_eq in H; subst c; reflexivity.
Qed.

Lemma startswith_head_false (c x : char) (rest lit lit' : str) :
  lit = x :: lit' -> (c =? x)%N = false -> startswith (c :: rest) lit = false.
Proof. intros -> H. cbn [startswith]. rewrite H. reflexivity. Qed.

(** A text that begins with a character no value begins with. *)
Lemma json_loads_no_value (int_max_str_digits recursion_depth : nat)
    (c : char) (rest : str) :
  starts_value c = false -> is_whitespace c = false -> c <> BOM ->
  json_loads int_max_str_digits recursion_depth (c :: rest)
  = Raise (Malformed {| msg := Expecting_value; pos := 0 |}).
Proof.
  intros Hv Hw Hb. unfold starts_value in Hv.
  apply orb_false_iff in Hv. destruct Hv as [Hv Hdig].
  apply orb_false_iff in Hv. destruct Hv as [Hv Hminus].
  apply orb_false_iff in Hv. destruct Hv as [Hv HI].
  apply orb_false_iff in Hv. destruct Hv as [Hv HN].
  apply orb_false_iff in Hv. destruct Hv as [Hv Hf].
  apply orb_false_iff in Hv. destruct Hv as [Hv Ht].
  apply orb_false_iff in Hv. destruct Hv as [Hv Hn].
  apply orb_false_iff in Hv. destruct Hv as [Hv Hlbk].
  apply orb_false_iff in Hv. destruct Hv as [Hq Hlb].
  assert (Hnum : match_number int_max_str_digits (c :: rest) = None).
  { unfold match_number. rewrite Hminus. unfold isdigit in Hdig.
    destruct ((0x31 <=? c)%N && (c <=? 0x39)%N) eqn:E1.
    - apply andb_true_iff in E1. destruct E1 as [E1 E2].
      apply N.leb_le in E1, E2.
      apply andb_false_iff in Hdig. destruct Hdig as [Hd|Hd];
        apply N.leb_gt in Hd; lia.
    - destruct (c =? 0x30)%N eqn:E2; [|reflexivity].
      apply N.eqb_eq in E2. subst c. discriminate Hdig. }
  unfold json_loads. cbn [startswith].
  replace (c =? BOM)%N with false by (symmetry; apply N.eqb_neq, Hb).
  cbn [andb]. unfold skip_ws. cbn [lstrip_with]. rewrite Hw.
  cbn [scan_once]. rewrite Hq, Hlb, Hlbk.
  rewrite (@startswith_head_false c 0x6E%N rest (u "null") (u "ull") eq_refl Hn).
  rewrite (@startswith_head_false c 0x74%N rest (u "true") (u "rue") eq_refl Ht).
  rewrite (@startswith_head_false c 0x66%N rest (u "false") (u "alse") eq_refl Hf).
  rewrite (@startswith_head_false c 0x4E%N rest (u "NaN") (u "aN") eq_refl HN).
  rewrite (@startswith_head_false c 0x49%N rest (u "Infinity") (u "nfinity")
             eq_refl HI).
  rewrite (@startswith_head_false c MINUS rest (u "-Infinity") (u "Infinity")
             eq_refl Hminus).
  rewrite Hnum. rewrite Nat.sub_diag. reflexivity.
Qed.


(** ** The pipeline on wrapped, blank and surrounded responses *)

Lemma normalize_response_blank (ws0 t ws3 : str) :
  forallb isspace ws0 = true -> forallb isspace ws3 = true ->
  forallb is_backtick t = true ->
  normalize_response (ws0 ++ t ++ ws3) = if 3 <=? length t then [] else t.
Proof.
  intros H0 H3 Ht.
  assert (HA : strip (ws0 ++ t ++ ws3) = t).
  { apply strip_with_padded; try assumption; apply backticks_not_space, Ht. }
  unfold normalize_response. rewrite HA. clear HA.
  destruct t as [|a [|b [|c t']]]; try reflexivity;
    cbn [forallb] in Ht;
    repeat (apply andb_true_iff in Ht; destruct Ht as [?Hc Ht]);
    repeat match goal with
           | H : is_backtick _ = true |- _ => apply is_backtick_eq in H; subst
           end;
    try reflexivity.
  change (BACKTICK :: BACKTICK :: BACKTICK :: t') with (FENCE ++ t').
  rewrite startswith_app.
  change (strip_chars [BACKTICK]) with (strip_with is_backtick).
  rewrite strip_with_all; [reflexivity|].
  cbn [app forallb]. exact Ht.
Qed.

Section PipelineFacts.

Variable float_as_int : str -> result error_type Z.
Variable str_as_int : str -> result error_type Z.
Variable int_max_str_digits : nat.
Variable recursion_depth : nat.
Variable generate_content : list Byte.byte -> prompt -> response.
Variable httpx_get : str -> http_response.

Local Abbreviation json_loads :=
  (Json.json_loads int_max_str_digits recursion_depth).
Local Abbreviation parse_obj := (Pydantic.parse_obj float_as_int str_as_int).
Local Abbreviation _download_pdf := (Pipeline._download_pdf httpx_get).
Local Abbreviation summarize_pdf_from_url :=
  (Pipeline.summarize_pdf_from_url generate_content httpx_get).
Local Abbreviation extract_summary_with_quiz :=
  (Pipeline.extract_summary_with_quiz float_as_int str_as_int
     int_max_str_digits recursion_depth).
Local Abbreviation summarize_and_quiz_pdf_bytes :=
  (Pipeline.summarize_and_quiz_pdf_bytes float_as_int str_as_int
     int_max_str_digits recursion_depth generate_content).
Local Abbreviation summarize_and_quiz_pdf_from_url :=
  (Pipeline.summarize_and_quiz_pdf_from_url float_as_int str_as_int
     int_max_str_digits recursion_depth generate_content httpx_get).

Lemma extract_malformed (text : str) (e : JSONDecodeError) :
  json_loads (normalize_response text) = Raise (Malformed e) ->
  extract_summary_with_quiz (Text (Some text))
  = Raise (MalformedResponse e (slice_to 300 (normalize_response text))).
Proof.
  intros H. unfold Pipeline.extract_summary_with_quiz. rewrite H. reflexivity.
Qed.

(** X4: a response with nothing in it but blanks and one run of
    backticks is reported as malformed, the decoder expecting a value at
    position 0; the snippet is empty, or the one or two backticks that
    make no fence. *)
Theorem X4_blank_response (pdf_bytes : list Byte.byte) (n : Z)
    (ws0 t ws3 : str) :
  forallb isspace (ws0 ++ ws3) = true ->
  forallb is_backtick t = true ->
  generate_content pdf_bytes (QuizPrompt n) = Text (Some (ws0 ++ t ++ ws3)) ->
  summarize_and_quiz_pdf_bytes pdf_bytes n
  = Raise (MalformedResponse {| msg := Expecting_value; pos := 0 |}
             (if 3 <=? length t then [] else t)).
Proof.
  intros Hws Ht Hgen. rewrite forallb_app in Hws.
  apply andb_true_iff in Hws. destruct Hws as [H0 H3].
  unfold Pipeline.summarize_and_quiz_pdf_bytes,
    Pipeline.extract_summary_with_quiz.
  rewrite Hgen, (normalize_response_blank _ _ _ H0 H3 Ht).
  destruct t as [|a [|b [|c t']]]; try reflexivity;
    cbn [forallb] in Ht;
    repeat (apply andb_true_iff in Ht; destruct Ht as [?Hc Ht]);
    repeat match goal with
           | H : is_backtick _ = true |- _ => apply is_backtick_eq in H; subst
           end;
    reflexivity.
Qed.


(** X6: text behind the object is not cut off: when the normalized
    response is a text of a value, one the interpreter lets through,
    followed by anything but blanks of JSON, the call fails as malformed,
    with the message for extra data and the position at which the extra
    text begins. *)
Theorem X6_trailing_text_rejected (pdf_bytes : list Byte.byte) (n : Z)
    (text : str) (r : PdfSummaryWithQuiz) (t w : str) (c : char)
    (extra : str) :
  value_text r t ->
  nesting r <= recursion_depth ->
  Forall (fun q => int_converts int_max_str_digits (correct_index q)) (quiz r) ->
  generate_content pdf_bytes (QuizPrompt n) = Text (Some text) ->
  normalize_response text = t ++ w ++ c :: extra ->
  forallb is_whitespace w = true -> is_whitespace c = false ->
  summarize_and_quiz_pdf_bytes pdf_bytes n
  = Raise (MalformedResponse
             {| msg := Extra_data; pos := length (t ++ w) |}
             (slice_to 300 (normalize_response text))).
Proof.
  intros Hvt Hdepth Hint Hgen Hn Hw Hc.
  unfold Pipeline.summarize_and_quiz_pdf_bytes.
  rewrite Hgen. apply extract_malformed. rewrite Hn.
  destruct (json_loads_value_text float_as_int str_as_int Hvt Hdepth Hint)
    as [data [_ Hloads]].
  destruct (Hloads [] w eq_refl Hw) as [_ Hextra].
  apply (Hextra c extra Hc).
Qed.

(** X7: nothing is looked for inside a response: when the normalized
    response begins with a character that begins no JSON value (a letter
    of an introducing sentence, say), the call fails as malformed at
    position 0, whatever follows. *)
Theorem X7_leading_text_rejected (pdf_bytes : list Byte.byte) (n : Z)
    (text : str) (c : char) (rest : str) :
  generate_content pdf_bytes (QuizPrompt n) = Text (Some text) ->
  normalize_response text = c :: rest ->
  starts_value c = false -> is_whitespace c = false -> c <> BOM ->
  summarize_and_quiz_pdf_bytes pdf_bytes n
  = Raise (MalformedResponse {| msg := Expecting_value; pos := 0 |}
             (slice_to 300 (normalize_response text))).
Proof.
  intros Hgen Hn Hv Hw Hb. unfold Pipeline.summarize_and_quiz_pdf_bytes.
  rewrite Hgen. apply extract_malformed. rewrite Hn.
  apply json_loads_no_value; assumption.
Qed.


(** ** Every outcome of the entry points *)

(** The cases of an outcome: equations between answers and between
    outcomes are taken apart until the two sides agree or clash. *)
Ltac outcome_step :=
  match goal with
  | |- _ /\ _ => split
  | |- _ <-> _ => split
  | |- forall _, _ => intro
  | |- _ <> _ => intro
  | H : exists _, _ |- _ => destruct H
  | H : _ /\ _ |- _ => destruct H
  | H : _ \/ _ |- _ => destruct H
  | H : Raises _ = Raises _ |- _ => inversion H; clear H; subst
  | H : Text _ = Text _ |- _ => inversion H; clear H; subst
  | H : Return _ = Return _ |- _ => inversion H; clear H; subst
  | H : Raise _ = Raise _ |- _ => inversion H; clear H; subst
  | H : HttpResponse _ _ = HttpResponse _ _ |- _ => inversion H; clear H; subst
  | H : HttpRaises _ = HttpRaises _ |- _ => inversion H; clear H; subst
  end.

Ltac outcome_end :=
  solve [ congruence
        | exfalso; match goal with
                   | H : forall _, _ <> _ |- _ => eapply H; reflexivity
                   end
        | left; split; [reflexivity | intros ? ?; congruence]
        | right; left; split; reflexivity
        | right; right; repeat eexists; eassumption
        | split; [reflexivity | eexists; reflexivity]
        | repeat eexists; eauto; congruence ].

Ltac outcome_cases := repeat outcome_step; try outcome_end.

(** X8: the outcomes of [summarize_and_quiz_pdf_bytes], each with the
    ways it comes about.  A value is returned exactly when the model
    answered text that decodes and validates to it; the three failures
    are told apart by the step that failed; an answer without text counts
    as a generation failure, and so does a text on which [json.loads]
    raises something else than a decoding error: [RecursionError] for
    nesting beyond the recursion limit, [ValueError] for an integer with
    too many digits.  When the model call itself raises a JSON
    decoding error, the handler for malformed responses runs before
    [raw_text] is bound and the call ends in an [UnboundLocalError] that
    nothing wraps.  A download or summary failure is never reported. *)
Theorem X8_outcomes_of_summarize_and_quiz_pdf_bytes
    (pdf_bytes : list Byte.byte) (n : Z) :
  let answer := generate_content pdf_bytes (QuizPrompt n) in
  let outcome := summarize_and_quiz_pdf_bytes pdf_bytes n in
  (forall r, outcome = Return r
     <-> exists text data,
           answer = Text (Some text)
           /\ json_loads (normalize_response text) = Return data
           /\ parse_obj data = Return r)
  /\ (forall e snippet, outcome = Raise (MalformedResponse e snippet)
        <-> exists text,
              answer = Text (Some text)
              /\ json_loads (normalize_response text) = Raise (Malformed e)
              /\ snippet = slice_to 300 (normalize_response text))
  /\ (forall e data, outcome = Raise (SchemaViolation e data)
        <-> exists text,
              answer = Text (Some text)
              /\ json_loads (normalize_response text) = Return data
              /\ parse_obj data = Raise e)
  /\ (forall cause, outcome = Raise (GenerationFailure cause)
        <-> (answer = Raises cause /\ forall e, cause <> JSONDecodeError_ e)
            \/ (answer = Text None /\ cause = AttributeError)
            \/ (exists text l,
                  answer = Text (Some text)
                  /\ json_loads (normalize_response text)
                     = Raise (LimitExceeded l)
                  /\ cause = exception_of_limit l))
  /\ (forall e, outcome = Raise (Uncaught e)
        <-> e = UnboundLocalError
            /\ exists cause, answer = Raises (JSONDecodeError_ cause))
  /\ (forall pdf_url cause, outcome <> Raise (DownloadFailure pdf_url cause))
  /\ (forall cause, outcome <> Raise (SummaryGenerationFailure cause)).
Proof.
  cbv zeta. unfold Pipeline.summarize_and_quiz_pdf_bytes,
    Pipeline.extract_summary_with_quiz.
  destruct (generate_content pdf_bytes (QuizPrompt n)) as [ex|[text|]];
    [ destruct ex
    | destruct (json_loads (normalize_response text)) as [data|[e|l]] eqn:Hj;
      [ destruct (parse_obj data) as [r|ev] eqn:Hp | | ]
    | ];
    outcome_cases.
Qed.

Lemma download_return_iff (pdf_url : str) (content : list Byte.byte) :
  _download_pdf pdf_url = Return content
  <-> exists status_code,
        httpx_get (strip pdf_url) = HttpResponse status_code content
        /\ (200 <= status_code <= 299)%Z.
Proof.
  unfold Pipeline._download_pdf.
  destruct (httpx_get (strip pdf_url)) as [e|status body].
  - split; [discriminate|]. intros [s [H _]]. discriminate H.
  - unfold is_success.
    destruct ((200 <=? status)%Z && (status <=? 299)%Z) eqn:E.
    + apply andb_true_iff in E. destruct E as [E1 E2].
      apply Z.leb_le in E1, E2. split.
      * intros H. inversion H. subst. exists status. split; [reflexivity|lia].
      * intros [s [H _]]. inversion H. reflexivity.
    + split; [discriminate|]. intros [s [H [H1 H2]]]. inversion H. subst.
      apply Z.leb_le in H1, H2. rewrite H1, H2 in E. discriminate E.
Qed.

Lemma download_raise (pdf_url : str) (e : error) :
  _download_pdf pdf_url = Raise e ->
  exists cause, e = DownloadFailure (strip pdf_url) cause.
Proof.
  unfold Pipeline._download_pdf.
  destruct (httpx_get (strip pdf_url)) as [x|status body].
  - intros H. inversion H. eexists. reflexivity.
  - destruct (is_success status); intros H; inversion H.
    eexists. reflexivity.
Qed.

Lemma extract_return_iff (answer : response) (r : PdfSummaryWithQuiz) :
  extract_summary_with_quiz answer = Return r
  <-> exists text data,
        answer = Text (Some text)
        /\ json_loads (normalize_response text) = Return data
        /\ parse_obj data = Return r.
Proof.
  unfold Pipeline.extract_summary_with_quiz.
  destruct answer as [ex|[text|]];
    [ destruct ex
    | destruct (json_loads (normalize_response text)) as [data|[e|l]] eqn:Hj;
      [ destruct (parse_obj data) as [r'|ev] eqn:Hp | | ]
    | ];
    outcome_cases.
Qed.

Lemma extract_no_download_failure (answer : response) (pdf_url : str)
    (cause : exception) :
  extract_summary_with_quiz answer <> Raise (DownloadFailure pdf_url cause).
Proof.
  unfold Pipeline.extract_summary_with_quiz.
  destruct answer as [ex|[text|]];
    [ destruct ex
    | destruct (json_loads (normalize_response text)) as [data|[e|l]];
      [ destruct (parse_obj data) | | ]
    | ];
    discriminate.
Qed.

(** X9: the outcomes of [summarize_pdf_from_url].  The text of the model
    is returned as the summary, as it is; a failed download is passed on;
    any exception of the model call is a summary failure; an answer
    without text makes the construction of [PdfSummary] fail with a
    validation error on [summary], which is raised outside the [try] and
    so reaches the caller as it is.  None of the failures of the quiz
    pipeline occurs. *)
Theorem X9_outcomes_of_summarize_pdf_from_url (pdf_url prompt_text : str) :
  let outcome := summarize_pdf_from_url pdf_url prompt_text in
  (forall r, outcome = Return r
     <-> exists pdf_bytes,
           _download_pdf pdf_url = Return pdf_bytes
           /\ generate_content pdf_bytes (UserPrompt prompt_text)
              = Text (Some (summary_text r)))
  /\ (forall url cause, outcome = Raise (DownloadFailure url cause)
        <-> _download_pdf pdf_url = Raise (DownloadFailure url cause))
  /\ (forall cause, outcome = Raise (SummaryGenerationFailure cause)
        <-> exists pdf_bytes,
              _download_pdf pdf_url = Return pdf_bytes
              /\ generate_content pdf_bytes (UserPrompt prompt_text)
                 = Raises cause)
  /\ (forall e, outcome = Raise (Uncaught e)
        <-> e = ValidationError_
                  [{| type := string_type; loc := [Field (u "summary")];
                      input := JNull |}]
            /\ exists pdf_bytes,
                 _download_pdf pdf_url = Return pdf_bytes
                 /\ generate_content pdf_bytes (UserPrompt prompt_text)
                    = Text None)
  /\ (forall cause, outcome <> Raise (GenerationFailure cause))
  /\ (forall e snippet, outcome <> Raise (MalformedResponse e snippet))
  /\ (forall e data, outcome <> Raise (SchemaViolation e data)).
Proof.
  cbv zeta. unfold Pipeline.summarize_pdf_from_url.
  destruct (_download_pdf pdf_url) as [pdf_bytes|err] eqn:Hd.
  - destruct (generate_content pdf_bytes (UserPrompt prompt_text))
      as [ex|[text|]] eqn:Hg; cbn [new_PdfSummary];
      repeat outcome_step;
      try match goal with r : PdfSummary |- _ => destruct r end;
      cbn [summary_text] in *;
      try outcome_end;
      try (eexists; split; [reflexivity|]; cbn [summary_text]; congruence).
  - destruct (download_raise _ Hd) as [cause ->].
    outcome_cases.
Qed.

(** X10: the download succeeds exactly on a response with a status from
    200 to 299, whose body it returns; a redirect is a failure like any
    other status.  Blanks around the URL make no difference. *)
Theorem X10_download_succeeds_iff (pdf_url : str) (content : list Byte.byte) :
  (_download_pdf pdf_url = Return content
   <-> exists status_code,
         httpx_get (strip pdf_url) = HttpResponse status_code content
         /\ (200 <= status_code <= 299)%Z)
  /\ (forall a b, forallb isspace (a ++ b) = true ->
        _download_pdf (a ++ pdf_url ++ b) = _download_pdf pdf_url).
Proof.
  split; [apply download_return_iff|].
  intros a b H. rewrite forallb_app in H. apply andb_true_iff in H.
  destruct H as [Ha Hb]. unfold Pipeline._download_pdf.
  assert (E : strip (a ++ pdf_url ++ b) = strip pdf_url).
  { unfold strip. rewrite strip_with_app_l by exact Ha.
    apply strip_with_app_r, Hb. }
  rewrite E. reflexivity.
Qed.

(** X11: the URL entry point end to end.  It returns a value exactly
    when the server answers the trimmed URL with a status from 200 to 299
    and the model, given the body, answers text that decodes and
    validates to that value; it reports a download failure exactly when
    the download fails, and then the model is not asked. *)
Theorem X11_url_entry_point_end_to_end (pdf_url : str) (n : Z) :
  let outcome := summarize_and_quiz_pdf_from_url pdf_url n in
  (forall r, outcome = Return r
     <-> exists status_code content text data,
           httpx_get (strip pdf_url) = HttpResponse status_code content
           /\ (200 <= status_code <= 299)%Z
           /\ generate_content content (QuizPrompt n) = Text (Some text)
           /\ json_loads (normalize_response text) = Return data
           /\ parse_obj data = Return r)
  /\ (forall url cause, outcome = Raise (DownloadFailure url cause)
        <-> _download_pdf pdf_url = Raise (DownloadFailure url cause))
  /\ (forall content, _download_pdf pdf_url = Return content ->
        outcome = summarize_and_quiz_pdf_bytes content n).
Proof.
  cbv zeta. unfold Pipeline.summarize_and_quiz_pdf_from_url,
    Pipeline.summarize_and_quiz_pdf_bytes.
  destruct (_download_pdf pdf_url) as [pdf_bytes|err] eqn:Hd.
  - apply download_return_iff in Hd. destruct Hd as [status [Hget Hrange]].
    split; [|split].
    + intros r. rewrite extract_return_iff. split.
      * intros [text [data [H1 [H2 H3]]]].
        exists status, pdf_bytes, text, data. auto.
      * intros [s [c [text [data [H0 [_ [H1 [H2 H3]]]]]]]].
        rewrite Hget in H0. inversion H0. subst. eauto.
    + intros url cause. split; [|discriminate].
      intros H. contradiction (extract_no_download_failure _ H).
    + intros content H. inversion H. reflexivity.
  - split; [|split].
    + intros r. split; [discriminate|].
      intros [s [c [text [data [H0 [Hr _]]]]]].
      assert (Hok : _download_pdf pdf_url = Return c)
        by (apply download_return_iff; eauto).
      rewrite Hd in Hok. discriminate Hok.
    + intros url cause. split; intros H; inversion H; reflexivity.
    + discriminate.
Qed.

End PipelineFacts.


(** ** Keys the models do not declare *)

Lemma str_eqb_eq (a b : str) : str_eqb a b = true <-> a = b.
Proof.
  revert b. induction a as [|x a IH]; intros [|y b]; cbn [str_eqb];
    try (split; discriminate); [split; reflexivity|].
  rewrite andb_true_iff, N.eqb_eq, IH. split.
  - intros [-> ->]. reflexivity.
  - intros H. inversion H. split; reflexivity.
Qed.

Lemma str_eqb_neq (a b : str) : a <> b -> str_eqb a b = false.
Proof.
  intros H. destruct (str_eqb a b) eqn:E; [|reflexivity].
  apply str_eqb_eq in E. contradiction (H E).
Qed.

(** Setting one key leaves the value found under every other key. *)
Lemma dict_get_set_other (k k' : str) (v : json) (d : dict) :
  k' <> k -> dict_get k' (dict_set k v d) = dict_get k' d.
Proof.
  intros Hne. induction d as [|[k0 v0] d IH].
  - cbn [dict_set dict_get]. rewrite (str_eqb_neq Hne). reflexivity.
  - cbn [dict_set]. destruct (str_eqb k k0) eqn:E.
    + apply str_eqb_eq in E. subst k0. cbn [dict_get].
      rewrite (str_eqb_neq Hne). reflexivity.
    + cbn [dict_get]. rewrite IH. reflexivity.
Qed.

Lemma same_report_refl (a b : json) (x : ErrorDetails) : same_report a b x x.
Proof. unfold same_report. auto. Qed.

Lemma same_outcome_refl {A} (a b : json) (r : validated A) :
  same_outcome a b r r.
Proof.
  destruct r as [x|e]; cbn [same_outcome]; [reflexivity|].
  induction e; constructor; [apply same_report_refl | assumption].
Qed.

Lemma same_outcome_both {A B} (a b : json) (ra ra' : validated A)
    (rb rb' : validated B) :
  same_outcome a b ra ra' -> same_outcome a b rb rb' ->
  same_outcome a b (both ra rb) (both ra' rb').
Proof.
  destruct ra, ra', rb, rb'; cbn [same_outcome both]; intros Ha Hb;
    try contradiction; try assumption.
  - congruence.
  - apply Forall2_app; assumption.
Qed.

Lemma same_outcome_outline {A} (a b : json) (r r' : validated A) :
  same_outcome a b r r' -> outline r = outline r'.
Proof.
  destruct r as [x|e], r' as [y|e']; cbn [same_outcome outline]; intros H;
    try contradiction; [congruence|].
  f_equal. induction H as [|x y e e' [Ht [Hl _]] _ IH]; [reflexivity|].
  cbn [List.map]. rewrite Ht, Hl, IH. reflexivity.
Qed.

Lemma required_set_other {A} (name k : str) (validate : json -> validated A)
    (v : json) (d : dict) :
  name <> k ->
  same_outcome (JDict (dict_set k v d)) (JDict d)
    (required name validate (dict_set k v d)) (required name validate d).
Proof.
  intros H. unfold required. rewrite dict_get_set_other by exact H.
  destruct (dict_get name d) as [x|].
  - apply same_outcome_refl.
  - cbn [same_outcome]. constructor; [|constructor].
    unfold same_report. cbn [type loc input].
    split; [reflexivity|]. split; [reflexivity|]. right. repeat split.
Qed.

Lemma with_default_set_other {A} (name k : str) (default : A)
    (validate : json -> validated A) (v : json) (d : dict) :
  name <> k ->
  with_default name default validate (dict_set k v d)
  = with_default name default validate d.
Proof.
  intros H. unfold with_default. rewrite dict_get_set_other by exact H.
  reflexivity.
Qed.

Section ValidationFacts.

Variable float_as_int : str -> result error_type Z.
Variable str_as_int : str -> result error_type Z.

Local Abbreviation validate_int :=
  (Pydantic.validate_int float_as_int str_as_int).
Local Abbreviation validate_QuizItem :=
  (Pydantic.validate_QuizItem float_as_int str_as_int).
Local Abbreviation parse_obj := (Pydantic.parse_obj float_as_int str_as_int).

(** X12: a key that a model does not declare is ignored: adding it to
    the object, whatever its value, changes neither the value validated
    nor the kinds and places of the errors reported.  An entry of the
    error shows the key in one case only: the entry for a missing field
    carries the object as its input, and so the object with the key.
    This holds for the object of the whole answer and for the object of
    a quiz item. *)
Theorem X12_undeclared_keys_ignored (k k' : str) (v v' : json) (d d' : dict) :
  ~ In k [u "summary"; u "quiz"] ->
  ~ In k' [u "question"; u "choices"; u "correct_index"; u "explanation"] ->
  let data := JDict (dict_set k v d) in
  let item := JDict (dict_set k' v' d') in
  same_outcome data (JDict d) (parse_obj data) (parse_obj (JDict d))
  /\ outline (parse_obj data) = outline (parse_obj (JDict d))
  /\ same_outcome item (JDict d') (validate_QuizItem item)
       (validate_QuizItem (JDict d'))
  /\ outline (validate_QuizItem item) = outline (validate_QuizItem (JDict d')).
Proof.
  intros Hk Hk' data item.
  assert (H1 : same_outcome data (JDict d) (parse_obj data)
                 (parse_obj (JDict d))).
  { unfold data, Pydantic.parse_obj.
    pose proof (@same_outcome_both _ _ (JDict (dict_set k v d)) (JDict d)
                  _ _ _ _
                  (@required_set_other _ (u "summary") k validate_str v d
                     ltac:(intros E; apply Hk; rewrite <- E; cbn [In]; auto))
                  (@required_set_other _ (u "quiz") k
                     (validate_list validate_QuizItem) v d
                     ltac:(intros E; apply Hk; rewrite <- E; cbn [In]; auto)))
      as H.
    destruct (both (required (u "summary") validate_str (dict_set k v d)) _)
      as [[s q]|e];
      destruct (both (required (u "summary") validate_str d) _)
        as [[s0 q0]|e0];
      cbn [same_outcome] in *; try contradiction; [congruence | exact H]. }
  assert (H2 : same_outcome item (JDict d') (validate_QuizItem item)
                 (validate_QuizItem (JDict d'))).
  { unfold item, Pydantic.validate_QuizItem.
    rewrite with_default_set_other
      by (intros E; apply Hk'; rewrite <- E; cbn [In]; auto).
    pose proof (@same_outcome_both _ _ (JDict (dict_set k' v' d')) (JDict d')
                  _ _ _ _
                  (@required_set_other _ (u "question") k' validate_str v' d'
                     ltac:(intros E; apply Hk'; rewrite <- E; cbn [In]; auto))
                  (@same_outcome_both _ _ (JDict (dict_set k' v' d'))
                     (JDict d') _ _ _ _
                     (@required_set_other _ (u "choices") k'
                        (validate_list validate_str) v' d'
                        ltac:(intros E; apply Hk'; rewrite <- E; cbn [In];
                              auto))
                     (@same_outcome_both _ _ (JDict (dict_set k' v' d'))
                        (JDict d') _ _ _ _
                        (@required_set_other _ (u "correct_index") k'
                           validate_int v' d'
                           ltac:(intros E; apply Hk'; rewrite <- E; cbn [In];
                                 auto))
                        (same_outcome_refl (JDict (dict_set k' v' d'))
                           (JDict d')
                           (with_default (u "explanation") None
                              validate_optional_str d')))))
      as H.
    destruct (both (required (u "question") validate_str (dict_set k' v' d')) _)
      as [[q [c [i e]]]|e];
      destruct (both (required (u "question") validate_str d') _)
        as [[q0 [c0 [i0 e0]]]|e0];
      cbn [same_outcome] in *; try contradiction; [congruence | exact H]. }
  split; [exact H1|]. split; [eapply same_outcome_outline; exact H1|].
  split; [exact H2 | eapply same_outcome_outline; exact H2].
Qed.

End ValidationFacts.


(** ** The result page *)

Lemma choice_lines_unmarked (correct_index : Z) :
  forall (l : list str) (idx : nat),
    (correct_index < Z.of_nat idx
     \/ Z.of_nat (idx + length l) <= correct_index)%Z ->
    choice_lines correct_index idx l = List.map plain_line l.
Proof.
  induction l as [|c cs IH]; intros idx H; [reflexivity|].
  cbn [choice_lines List.map length] in *. unfold choice_line at 1.
  replace (Z.of_nat idx =? correct_index)%Z with false
    by (symmetry; apply Z.eqb_neq; lia).
  fold (plain_line c). f_equal. apply IH. lia.
Qed.

Lemma choice_lines_marked (correct_index : Z) :
  forall (before : list str) (c : str) (after : list str) (idx : nat),
    correct_index = Z.of_nat (idx + length before) ->
    choice_lines correct_index idx (before ++ c :: after)
    = List.map plain_line before ++ marked_line c :: List.map plain_line after.
Proof.
  induction before as [|b bs IH]; intros c after idx H.
  - cbn [app List.map length choice_lines] in *. unfold choice_line.
    replace (Z.of_nat idx =? correct_index)%Z with true
      by (symmetry; apply Z.eqb_eq; lia).
    fold (marked_line c). f_equal. apply choice_lines_unmarked. lia.
  - cbn [app List.map length choice_lines] in *. unfold choice_line at 1.
    replace (Z.of_nat idx =? correct_index)%Z with false
      by (symmetry; apply Z.eqb_neq; lia).
    fold (plain_line b). f_equal. apply IH. lia.
Qed.

Lemma marked_line_longer (c : str) :
  length (marked_line c) = length (plain_line c) + 7.
Proof.
  unfold marked_line, plain_line. repeat rewrite length_app.
  change (length MARK) with 7. lia.
Qed.

(** X13: on the result page the mark of the correct answer stands at the
    choice the index points to and nowhere else, when the index points to
    a choice. *)
Theorem X13_correct_choice_marked (q : QuizItem) :
  index_in_range q ->
  exists before c after,
    choices q = before ++ c :: after
    /\ Z.of_nat (length before) = correct_index q
    /\ choice_lines (correct_index q) 0 (choices q)
       = List.map plain_line before ++ marked_line c :: List.map plain_line after.
Proof.
  unfold index_in_range. intros H.
  destruct (@nth_split _ (Z.to_nat (correct_index q)) (choices q) [])
    as [before [after [E Hlen]]]; [lia|].
  exists before, (nth (Z.to_nat (correct_index q)) (choices q) []), after.
  split; [exact E|]. split; [lia|].
  rewrite E at 1. apply choice_lines_marked. cbn [Nat.add]. lia.
Qed.

(** X14: the page shows no correct answer exactly when the index of the
    item points outside its choices, which validation lets through: every
    choice is then listed without the mark. *)
Theorem X14_no_mark_iff_index_out_of_range (q : QuizItem) :
  choice_lines (correct_index q) 0 (choices q) = List.map plain_line (choices q)
  <-> ~ index_in_range q.
Proof.
  unfold index_in_range. split.
  - intros H Hin.
    destruct (@nth_split _ (Z.to_nat (correct_index q)) (choices q) [])
      as [before [after [E Hlen]]]; [lia|].
    rewrite E in H at 1.
    rewrite (@choice_lines_marked (correct_index q) before _ after 0) in H
      by (cbn [Nat.add]; lia).
    rewrite E in H at 2. rewrite List.map_app in H. cbn [List.map] in H.
    apply app_inv_head in H. apply (f_equal (hd [])) in H.
    cbn [hd] in H.
    apply (f_equal (@length char)) in H. rewrite marked_line_longer in H. lia.
  - intros H. apply choice_lines_unmarked. cbn [Nat.add]. lia.
Qed.

Lemma quiz_parts_app (l1 l2 : list QuizItem) :
  forall i, quiz_parts i (l1 ++ l2)
            = quiz_parts i l1 ++ quiz_parts (i + length l1) l2.
Proof.
  induction l1 as [|x l1 IH]; intros i.
  - cbn [app quiz_parts length]. rewrite Nat.add_0_r. reflexivity.
  - cbn [app quiz_parts length]. rewrite IH, <- app_assoc.
    replace (S i + length l1) with (i + S (length l1)) by lia. reflexivity.
Qed.

(** X15: the items are rendered in their order and numbered from 1 by
    their position: the parts of a quiz are the parts of the items before
    an item, then the parts of that item, then the parts of the items
    behind it, and the heading of the item carries the decimal digits of
    its place. *)
Theorem X15_items_numbered_by_position (before : list QuizItem) (q : QuizItem)
    (after : list QuizItem) :
  let place := S (length before) in
  quiz_parts 1 (before ++ q :: after)
  = quiz_parts 1 before ++ item_parts place q ++ quiz_parts (S place) after
  /\ exists number rest,
       item_parts place q
       = (u "<h2>" ++ [0xBB38; 0xC81C]%N ++ u " " ++ number ++ u "</h2>") :: rest
       /\ forallb isdigit number = true
       /\ int_of_digits number = N.of_nat place.
Proof.
  cbv zeta. split.
  - rewrite quiz_parts_app. reflexivity.
  - destruct (digits_spec (N.of_nat (S (length before)))) as [Hv [Hd _]].
    exists (digits (N.of_nat (S (length before)))). eexists.
    split; [reflexivity|]. split; assumption.
Qed.


(** ** What the validator accepts *)

Section AcceptedValues.

Variable float_as_int : str -> result error_type Z.
Variable str_as_int : str -> result error_type Z.

Local Abbreviation validate_int := (Pydantic.validate_int float_as_int str_as_int).
Local Abbreviation validate_QuizItem :=
  (Pydantic.validate_QuizItem float_as_int str_as_int).
Local Abbreviation parse_obj := (Pydantic.parse_obj float_as_int str_as_int).

(** X16: what validation accepts, exactly.  An item is an object with a
    string under [question], a list of strings under [choices], a value
    that the integer field takes under [correct_index], and under
    [explanation] a string, [null] or nothing; an answer is an object
    with a string under [summary] and a list of such items under [quiz].
    Nothing else is asked: not the number of items or of choices, not the
    range of the index, not that a text is not empty. *)
Theorem X16_accepted_values (v : json) (q : QuizItem) (data : json)
    (r : PdfSummaryWithQuiz) :
  (validate_QuizItem v = Return q
   <-> exists d,
         v = JDict d
         /\ dict_get (u "question") d = Some (JStr (question q))
         /\ dict_get (u "choices") d = Some (JList (List.map JStr (choices q)))
         /\ (exists x, dict_get (u "correct_index") d = Some x
                       /\ validate_int x = Return (correct_index q))
         /\ match explanation q with
            | Some e => dict_get (u "explanation") d = Some (JStr e)
            | None => dict_get (u "explanation") d = None
                      \/ dict_get (u "explanation") d = Some JNull
            end)
  /\ (parse_obj data = Return r
      <-> exists d items,
            data = JDict d
            /\ dict_get (u "summary") d = Some (JStr (summary r))
            /\ dict_get (u "quiz") d = Some (JList items)
            /\ Forall2 (fun x item => validate_QuizItem x = Return item)
                 items (quiz r)).
Proof.
  split; [apply validate_QuizItem_accepts | apply parse_obj_accepts].
Qed.

End AcceptedValues.

(** ** The page of the handler *)

Section HandlerFacts.

Variable float_as_int : str -> result error_type Z.
Variable str_as_int : str -> result error_type Z.
Variable int_max_str_digits : nat.
Variable recursion_depth : nat.
Variable generate_content : list Byte.byte -> prompt -> response.
Variable str_of_error : error -> str.

Local Abbreviation summarize_and_quiz_pdf_bytes :=
  (Pipeline.summarize_and_quiz_pdf_bytes float_as_int str_as_int
     int_max_str_digits recursion_depth generate_content).
Local Abbreviation summarize_quiz :=
  (Web.summarize_quiz float_as_int str_as_int int_max_str_digits
     recursion_depth generate_content str_of_error).

(** X17: the handler answers with a page in every case and the page
    tells the outcome: it is a result page exactly when the upload was
    read and the pipeline returned a value, whose page it then is; every
    failure, that of reading the upload included, gives the error page
    with the text of the exception, which begins with a line break and so
    is no result page. *)
Theorem X17_page_tells_outcome (pdf : result exception (list Byte.byte))
    (n : Z) :
  let page := summarize_quiz pdf n in
  (forall pdf_bytes r,
      pdf = Return pdf_bytes ->
      summarize_and_quiz_pdf_bytes pdf_bytes n = Return r ->
      page = concat (html_parts r))
  /\ (forall pdf_bytes e,
        pdf = Return pdf_bytes ->
        summarize_and_quiz_pdf_bytes pdf_bytes n = Raise e ->
        page = error_page (str_of_error e))
  /\ (forall e, pdf = Raise e -> page = error_page (str_of_error (Uncaught e)))
  /\ ((exists r, page = concat (html_parts r))
      <-> exists pdf_bytes r,
            pdf = Return pdf_bytes
            /\ summarize_and_quiz_pdf_bytes pdf_bytes n = Return r).
Proof.
  cbv zeta. unfold Web.summarize_quiz.
  assert (Hpages : forall m r, error_page m <> concat (html_parts r))
    by (intros m r H; discriminate H).
  destruct pdf as [pdf_bytes|e].
  - destruct (summarize_and_quiz_pdf_bytes pdf_bytes n) as [r|e] eqn:Hrun.
    + split; [|split; [|split]].
      * intros b r' Hb Hr. injection Hb as <-. rewrite Hrun in Hr.
        injection Hr as <-. reflexivity.
      * intros b e Hb He. injection Hb as <-. rewrite Hrun in He.
        discriminate He.
      * discriminate.
      * split; eauto.
    + split; [|split; [|split]].
      * intros b r Hb Hr. injection Hb as <-. rewrite Hrun in Hr.
        discriminate Hr.
      * intros b e' Hb He. injection Hb as <-. rewrite Hrun in He.
        injection He as <-. reflexivity.
      * discriminate.
      * split.
        -- intros [r H]. contradiction (Hpages _ _ H).
        -- intros [b [r [Hb Hr]]]. injection Hb as <-. rewrite Hrun in Hr.
           discriminate Hr.
  - split; [|split; [|split]]; try discriminate.
    + intros e' H. injection H as <-. reflexivity.
    + split.
      * intros [r H]. contradiction (Hpages _ _ H).
      * intros [b [r [Hb _]]]. discriminate Hb.
Qed.

End HandlerFacts.


(** ** The instructions *)

(** X18: the number of questions asked for reaches the model: the
    instructions for two numbers are the same text only when the numbers
    are the same. *)
Theorem X18_prompt_states_the_count (n m : Z) :
  system_prompt n = system_prompt m <-> n = m.
Proof.
  split; [|intros ->; reflexivity].
  unfold system_prompt. intros H. apply app_inv_head in H.
  assert (Hany : forall z, int_converts 0 z).
  { intros z. unfold int_converts, exceeds_int_max_str_digits.
    destruct (640 <? int_digits z); reflexivity. }
  assert (Hn := @match_number_encoded 0 n 0xAC1C%N (tl PROMPT_TAIL) eq_refl
                  (Hany n)).
  assert (Hm := @match_number_encoded 0 m 0xAC1C%N (tl PROMPT_TAIL) eq_refl
                  (Hany m)).
  change (0xAC1C%N :: tl PROMPT_TAIL) with PROMPT_TAIL in Hn, Hm.
  rewrite H, Hm in Hn. injection Hn as Hn. symmetry. exact Hn.
Qed.


(** * Further runs on stub collaborators *)

Lemma X2_tagged_fence_unwrapped_witness :
  normalize_response
    (u " ```json" ++ [10%N] ++ uq "{'a':1}" ++ [10%N] ++ u "``` ")
  = uq "{'a':1}".
Proof.
  exact (@X2_tagged_fence_unwrapped (u " ") [] [10%N] (uq "{'a':1}") [10%N]
           FENCE (u " ") eq_refl eq_refl eq_refl eq_refl eq_refl).
Defined.

Lemma X3_untagged_fence_unwrapped_witness :
  normalize_response (u "```" ++ [10%N] ++ uq "{'a':1}" ++ [10%N] ++ u "```")
  = [10%N] ++ uq "{'a':1}" ++ [10%N].
Proof.
  apply (@X3_untagged_fence_unwrapped [] [] ([10%N] ++ uq "{'a':1}" ++ [10%N])
           FENCE []); try reflexivity.
  discriminate.
Defined.

Lemma X4_blank_response_witness :
  summarize_and_quiz_pdf_bytes no_conversion no_conversion
    default_max_str_digits default_depth
    (model_answers (u "  ``` ")) [] 5
  = Raise (MalformedResponse {| msg := Expecting_value; pos := 0 |} []).
Proof.
  exact (@X4_blank_response no_conversion no_conversion
           default_max_str_digits default_depth
           (model_answers (u "  ``` ")) [] 5%Z (u "  ") FENCE (u " ")
           eq_refl eq_refl eq_refl).
Defined.


Lemma X6_trailing_text_rejected_witness :
  summarize_and_quiz_pdf_bytes no_conversion no_conversion
    default_max_str_digits default_depth
    (model_answers trailing_text_response) [] 1
  = Raise (MalformedResponse {| msg := Extra_data; pos := 26 |}
             trailing_text_response).
Proof.
  apply (@X6_trailing_text_rejected no_conversion no_conversion
           default_max_str_digits default_depth
           (model_answers trailing_text_response) [] 1%Z
           trailing_text_response empty_quiz (encode empty_quiz)
           (u " ") 0x44%N (u "one."));
    try reflexivity.
  - apply encode_value_text.
  - vm_compute. lia.
  - constructor.
Defined.

Lemma X7_leading_text_rejected_witness :
  summarize_and_quiz_pdf_bytes no_conversion no_conversion
    default_max_str_digits default_depth
    (model_answers leading_text_response) [] 1
  = Raise (MalformedResponse {| msg := Expecting_value; pos := 0 |}
             leading_text_response).
Proof.
  apply (@X7_leading_text_rejected no_conversion no_conversion
           default_max_str_digits default_depth
           (model_answers leading_text_response) [] 1%Z
           leading_text_response 0x48%N
           (uq "ere is the JSON: {'summary':'s','quiz':[]}"));
    try reflexivity.
  discriminate.
Defined.

Lemma X12_undeclared_keys_ignored_witness :
  let d := [(u "summary", JStr (u "s")); (u "quiz", JList [])] in
  let d' := [(u "question", JStr (u "q"))] in
  let data := JDict (dict_set (u "title") (JStr (u "t")) d) in
  let item := JDict (dict_set (u "difficulty") (JInt 2) d') in
  same_outcome data (JDict d)
    (parse_obj no_conversion no_conversion data)
    (parse_obj no_conversion no_conversion (JDict d))
  /\ outline (parse_obj no_conversion no_conversion data)
     = outline (parse_obj no_conversion no_conversion (JDict d))
  /\ same_outcome item (JDict d')
       (validate_QuizItem no_conversion no_conversion item)
       (validate_QuizItem no_conversion no_conversion (JDict d'))
  /\ outline (validate_QuizItem no_conversion no_conversion item)
     = outline (validate_QuizItem no_conversion no_conversion (JDict d')).
Proof.
  intros d d'.
  apply (@X12_undeclared_keys_ignored no_conversion no_conversion
           (u "title") (u "difficulty") (JStr (u "t")) (JInt 2) d d').
  - cbn [In]. intros [H|[H|[]]]; discriminate H.
  - cbn [In]. intros [H|[H|[H|[H|[]]]]]; discriminate H.
Defined.

Lemma X13_correct_choice_marked_witness :
  exists before c after,
    [u "a"; u "b"; u "c"; u "d"] = before ++ c :: after
    /\ Z.of_nat (length before) = 3%Z
    /\ choice_lines 3 0 [u "a"; u "b"; u "c"; u "d"]
       = List.map plain_line before ++ marked_line c :: List.map plain_line after.
Proof.
  apply (@X13_correct_choice_marked
           {| question := u "q1"; choices := [u "a"; u "b"; u "c"; u "d"];
              correct_index := 3; explanation := Some (u "e") |}).
  unfold index_in_range. cbn. lia.
Defined.
